(** * Annotation-consensus and evaluation pipeline of [training/evaluation_simple.py]

    A shallow embedding of the function [evaluate] and the properties of its
    stages: the per-row annotation decoder, the agreement engine with its
    items x categories table, the majority vote, the alignment of the
    tagger's output by line windows, and the accuracy and
    precision/recall/F1 scorer.

    Conventions of the embedding.
    - A Python [str] is a [string]; a character is its code point, restricted
      to the range 0..255.
    - A Python [int] is a [Z].
    - A Python [float] obtained by a true division is represented by the exact
      rational it rounds ([Q], normalised by [Qred]); the tests [x == 0] that
      decide whether a division raises are the same on both.
    - A raised exception is the [Raise] branch of [result]; the lines already
      written to the report before an exception are not modelled.
    - Spreadsheet and text-file reading are taken as already materialised
      data: a workbook is the ordered dictionary returned by
      [pd.read_excel(..., sheet_name=None)], a tag file the list returned by
      [read().splitlines()], a line of the offsets file its three used
      fields. *)

From Stdlib Require Import List String Ascii ZArith QArith Bool Lia.
Import ListNotations.
Open Scope string_scope.
Open Scope Z_scope.

(* ================================================================== *)
(** * Python primitives *)
(* ================================================================== *)

Module Py.

(** Exceptions the function can raise. *)
Inductive exn : Type :=
| ZeroDivisionError
| KeyError (key : string)
| IndexError
| ValueError
| FileNotFoundError (name : string)
| ExternalError.

Inductive result (A : Type) : Type :=
| Ok (a : A)
| Raise (e : exn).
Arguments Ok {A} a.
Arguments Raise {A} e.

Definition bind {A B : Type} (m : result A) (k : A -> result B) : result B :=
  match m with
  | Ok a => k a
  | Raise e => Raise e
  end.

Definition is_ok {A : Type} (m : result A) : bool :=
  match m with
  | Ok _ => true
  | Raise _ => false
  end.

(** [str.isspace] on one character: the ASCII whitespace table of CPython
    (TAB..CR, FS..US, SPACE) and the two Latin-1 code points with the
    Unicode White_Space property (NEL, NBSP). *)
Definition isspace (c : ascii) : bool :=
  let n := N_of_ascii c in
  (((9 <=? n) && (n <=? 13)) || ((28 <=? n) && (n <=? 32))
   || (n =? 133) || (n =? 160))%N.

Fixpoint all_space (s : string) : bool :=
  match s with
  | EmptyString => true
  | String c s' => isspace c && all_space s'
  end.

Fixpoint lstrip (s : string) : string :=
  match s with
  | EmptyString => EmptyString
  | String c s' => if isspace c then lstrip s' else s
  end.

Fixpoint rstrip (s : string) : string :=
  match s with
  | EmptyString => EmptyString
  | String c s' =>
      match rstrip s' with
      | EmptyString => if isspace c then EmptyString else String c EmptyString
      | r => String c r
      end
  end.

(** [s.strip()] *)
Definition strip (s : string) : string := rstrip (lstrip s).

(** [x in l] for a list of strings *)
Definition mem (x : string) (l : list string) : bool :=
  existsb (String.eqb x) l.

(** [zip(l1, l2)]: stops at the shorter list. *)
Fixpoint zip {A B : Type} (l1 : list A) (l2 : list B) : list (A * B) :=
  match l1, l2 with
  | a :: l1', b :: l2' => (a, b) :: zip l1' l2'
  | _, _ => []
  end.

(** [zip(l1, l2, l3)]: stops at the shortest list. *)
Fixpoint zip3 {A B C : Type} (l1 : list A) (l2 : list B) (l3 : list C)
  : list (A * B * C) :=
  match l1, l2, l3 with
  | a :: l1', b :: l2', c :: l3' => (a, b, c) :: zip3 l1' l2' l3'
  | _, _, _ => []
  end.

(** [sum(f(x) for x in l)] where [f] yields a [bool]: the number of [True]. *)
Definition sum_bool {A : Type} (f : A -> bool) (l : list A) : Z :=
  fold_left (fun acc x => acc + (if f x then 1 else 0)) l 0.

(** Normalisation of one bound of a slice [l[i:j]] of a list of length [n]:
    a negative bound counts from the end, then the bound is clipped to
    [0..n]. *)
Definition clamp_index (n i : Z) : Z :=
  if i <? 0 then Z.max 0 (i + n) else Z.min i n.

(** [l[i:j]]; never raises. *)
Definition slice {A : Type} (l : list A) (i j : Z) : list A :=
  let n := Z.of_nat (List.length l) in
  let lo := clamp_index n i in
  let hi := clamp_index n j in
  firstn (Z.to_nat (hi - lo)) (skipn (Z.to_nat lo) l).

(** [l.index(x)]: position of the first occurrence, [ValueError] if none. *)
Fixpoint index (x : string) (l : list string) : result Z :=
  match l with
  | [] => Raise ValueError
  | y :: l' => if String.eqb y x then Ok 0 else bind (index x l') (fun k => Ok (k + 1))
  end.

(** [a / b] on two [int]: a [float], or [ZeroDivisionError]. *)
Definition int_div (a b : Z) : result Q :=
  if b =? 0 then Raise ZeroDivisionError else Ok (Qred (Qdiv (inject_Z a) (inject_Z b))).

(** [x / y] on two [float]: [ZeroDivisionError] when [y == 0.0]. *)
Definition float_div (x y : Q) : result Q :=
  if Qeq_bool y 0 then Raise ZeroDivisionError else Ok (Qred (Qdiv x y)).

(** An insertion-ordered [dict] with [str] keys. *)
Definition dict (V : Type) : Type := list (string * V).

Definition keys {V : Type} (d : dict V) : list string := map fst d.

(** [d[k]] *)
Fixpoint get {V : Type} (d : dict V) (k : string) : result V :=
  match d with
  | [] => Raise (KeyError k)
  | (k', v) :: d' => if String.eqb k' k then Ok v else get d' k
  end.

(** [d[k] = v]: replaces in place, or appends a new key at the end. *)
Fixpoint set {V : Type} (d : dict V) (k : string) (v : V) : dict V :=
  match d with
  | [] => [(k, v)]
  | (k', v') :: d' => if String.eqb k' k then (k', v) :: d' else (k', v') :: set d' k v
  end.

End Py.

Import Py.

Notation "x <- m ;; k" := (bind m (fun x => k))
  (at level 61, m at next level, right associativity).
Notation "' pat <- m ;; k" := (bind m (fun x => match x with pat => k end))
  (at level 61, pat pattern, m at next level, right associativity).

(* ================================================================== *)
(** * Data model *)
(* ================================================================== *)

(** A spreadsheet cell as pandas delivers it: text, the [NaN] of an empty
    cell, or a number. *)
Inductive cell : Type :=
| Text (s : string)
| NaN
| Number (z : Z).

(** One row of an annotation sheet; the column [M] is read but never used. *)
Record row : Type := mkRow {
  col_line : cell;
  col_S : cell;
  col_N : cell;
  col_C : cell;
  col_D : cell;
  col_E : cell;
  col_T : cell
}.

(** [row[tag]] for the six tag columns. *)
Definition row_get (r : row) (tag : string) : cell :=
  if (tag =? "S")%string then col_S r
  else if (tag =? "N")%string then col_N r
  else if (tag =? "C")%string then col_C r
  else if (tag =? "D")%string then col_D r
  else if (tag =? "E")%string then col_E r
  else col_T r.

(** The six structural tags, in the order the loops visit them. *)
Definition TAGS : list string := ["S"; "N"; "C"; "D"; "E"; "T"].

(** The seven categories of the items x categories table. *)
Definition CLASSES : list string := ["S"; "N"; "C"; "D"; "E"; "T"; "O"].

(* ================================================================== *)
(** * Annotation decoder (lines 73-87) *)
(* ================================================================== *)

(** [isinstance(row[tag], str) and row["line"].strip() == row[tag].strip()] *)
Definition field_matches (l : string) (c : cell) : bool :=
  match c with
  | Text s => (strip l =? strip s)%string
  | _ => false
  end.

(** One turn of the loop over the tag columns, on the pair [(n, atag)]. *)
Definition decode_step (r : row) (l : string) (st : Z * string) (tag : string)
  : Z * string :=
  let '(n, atag) := st in
  if field_matches l (row_get r tag) then (n, tag) else (n + 1, atag).

(** The tag appended to [anns] for one row. *)
Definition decode_row (r : row) : string :=
  match col_line r with
  | Text l =>
      if (strip l =? EmptyString)%string then "O"
      else
        let '(n, atag) := fold_left (decode_step r l) TAGS (0, EmptyString) in
        if negb (atag =? EmptyString)%string && (n =? 5) then atag else "O"
  | _ => "O"
  end.

(** [anns] for one sheet. *)
Definition decode_sheet (df : list row) : list string := map decode_row df.

(* ================================================================== *)
(** * Consensus builder (lines 142-151) *)
(* ================================================================== *)

Definition majority (a1 a2 a3 : string) : string :=
  if ((a1 =? a2) || (a1 =? a3))%string then a1
  else if (a2 =? a3)%string then a2
  else "O".

Definition majority_seq (ann1 ann2 ann3 : list string) : list string :=
  map (fun '(a1, a2, a3) => majority a1 a2 a3) (zip3 ann1 ann2 ann3).

(* ================================================================== *)
(** * The dictionary [ann] (lines 64-89) *)
(* ================================================================== *)

Definition sheet : Type := list row.

(** The dictionary of sheets read from one annotator's workbook, in sheet
    order. *)
Definition workbook : Type := dict sheet.

(** [ann[movie]]: the keys ["ann1"], ["ann2"], ["ann3"] are set by the
    decoder, ["maj"] and ["sys"] later; a key not yet set is [None]. *)
Record entry : Type := mkEntry {
  ann1 : list string;
  ann2 : list string;
  ann3 : list string;
  maj : option (list string);
  sys : option (list string)
}.

(** [e[key]] for a key that may be unset. *)
Definition get_key (key : string) (v : option (list string)) : result (list string) :=
  match v with
  | Some l => Ok l
  | None => Raise (KeyError key)
  end.

(** [movies = list(annotator_1_df_dict.keys())[1:]] *)
Definition movies_of (annotator_1_df_dict : workbook) : list string :=
  tl (keys annotator_1_df_dict).

(** The body of the loop over [movies]: the three sheets are looked up, then
    decoded row by row. *)
Definition decode_movie (wb1 wb2 wb3 : workbook) (movie : string) : result entry :=
  df1 <- get wb1 movie ;;
  df2 <- get wb2 movie ;;
  df3 <- get wb3 movie ;;
  Ok (mkEntry (decode_sheet df1) (decode_sheet df2) (decode_sheet df3) None None).

Fixpoint decode_loop (wb1 wb2 wb3 : workbook) (movies : list string)
  (ann : dict entry) : result (dict entry) :=
  match movies with
  | [] => Ok ann
  | movie :: rest =>
      e <- decode_movie wb1 wb2 wb3 movie ;;
      decode_loop wb1 wb2 wb3 rest (set ann movie e)
  end.

(* ================================================================== *)
(** * Agreement engine (lines 95-135) *)
(* ================================================================== *)

(** The items x categories table: one list of seven counts per item. *)
Definition table : Type := list (list Z).

(** [np.zeros((rows, 7), dtype=int)] *)
Definition zeros (rows : Z) : table := repeat (repeat 0 7%nat) (Z.to_nat rows).

(** [sum(len(annotator_1_df_dict[movie]) for movie in movies)] *)
Fixpoint total_rows (wb1 : workbook) (movies : list string) : result Z :=
  match movies with
  | [] => Ok 0
  | movie :: rest =>
      df <- get wb1 movie ;;
      t <- total_rows wb1 rest ;;
      Ok (Z.of_nat (List.length df) + t)
  end.

(** Position [k] of an array axis of length [n]: a negative index counts from
    the end, an index outside the axis raises. *)
Definition np_index (n k : Z) : result nat :=
  let k' := if k <? 0 then k + n else k in
  if (0 <=? k') && (k' <? n) then Ok (Z.to_nat k') else Raise IndexError.

Fixpoint update_nth {A : Type} (l : list A) (k : nat) (f : A -> A) : list A :=
  match l, k with
  | [], _ => []
  | x :: l', O => f x :: l'
  | x :: l', S k' => x :: update_nth l' k' f
  end.

(** [item_x_class_table[i, j] += 1] *)
Definition table_incr (t : table) (i j : Z) : result table :=
  ki <- np_index (Z.of_nat (List.length t)) i ;;
  kj <- np_index 7 j ;;
  Ok (update_nth t ki (fun r => update_nth r kj (fun c => c + 1))).

(** The variables of the agreement loops; [i_item] is the item counter
    [i]. *)
Record agree_state : Type := mkAgree {
  n_rater_pairs : Z;
  n_agree_rater_pairs : Z;
  item_x_class_table : table;
  i_item : Z;
  n1 : Z;
  n2 : Z;
  n3 : Z
}.

(** [len(set([a1, a2, a3]))] *)
Definition n_distinct (a1 a2 a3 : string) : Z :=
  Z.of_nat (List.length (nodup string_dec [a1; a2; a3])).

(** One turn of [for a in [a1, a2, a3]] *)
Definition vote (t : table) (i : Z) (a : string) : result table :=
  j <- index a CLASSES ;;
  table_incr t i j.

(** The body of the loop over the zipped annotations of one movie. *)
Definition agree_line (st : agree_state) (a : string * string * string)
  : result agree_state :=
  let '(a1, a2, a3) := a in
  let S := n_distinct a1 a2 a3 in
  let '(c1, c2, c3, agree) :=
    if S =? 1 then (n1 st + 1, n2 st, n3 st, n_agree_rater_pairs st + 3)
    else if S =? 2 then (n1 st, n2 st + 1, n3 st, n_agree_rater_pairs st + 1)
    else (n1 st, n2 st, n3 st + 1, n_agree_rater_pairs st) in
  t1 <- vote (item_x_class_table st) (i_item st) a1 ;;
  t2 <- vote t1 (i_item st) a2 ;;
  t3 <- vote t2 (i_item st) a3 ;;
  Ok (mkAgree (n_rater_pairs st + 3) agree t3 (i_item st + 1) c1 c2 c3).

Fixpoint agree_lines (st : agree_state) (l : list (string * string * string))
  : result agree_state :=
  match l with
  | [] => Ok st
  | a :: l' => st' <- agree_line st a ;; agree_lines st' l'
  end.

(** The arguments of one line of "agreement scores by movie":
    [movie, 100*n1/n, n2, n3]. *)
Definition agree_row : Type := (string * Q * Z * Z)%type.

(** The body of the loop over [movies]. *)
Definition agree_movie (ann : dict entry) (st : agree_state) (movie : string)
  : result (agree_state * agree_row) :=
  e <- get ann movie ;;
  let st0 := mkAgree (n_rater_pairs st) (n_agree_rater_pairs st)
               (item_x_class_table st) (i_item st) 0 0 0 in
  st' <- agree_lines st0 (zip3 (ann1 e) (ann2 e) (ann3 e)) ;;
  let n := n1 st' + n2 st' + n3 st' in
  pct <- int_div (100 * n1 st') n ;;
  Ok (st', (movie, pct, n2 st', n3 st')).

Fixpoint agree_movies (ann : dict entry) (st : agree_state) (movies : list string)
  : result (agree_state * list agree_row) :=
  match movies with
  | [] => Ok (st, [])
  | movie :: rest =>
      '(st', line) <- agree_movie ann st movie ;;
      '(st'', lines) <- agree_movies ann st' rest ;;
      Ok (st'', line :: lines)
  end.

(** The state before the first movie. *)
Definition agree_init (rows : Z) : agree_state :=
  mkAgree 0 0 (zeros rows) 0 0 0 0.

(* ================================================================== *)
(** * Majority annotation of every movie (lines 142-151) *)
(* ================================================================== *)

(** [ann[movie]["maj"] = maj] for every key of [ann], in place. *)
Definition majority_loop (ann : dict entry) : dict entry :=
  map (fun '(movie, e) =>
         (movie, mkEntry (ann1 e) (ann2 e) (ann3 e)
                   (Some (majority_seq (ann1 e) (ann2 e) (ann3 e))) (sys e)))
      ann.

(* ================================================================== *)
(** * System-output aligner (lines 153-158) *)
(* ================================================================== *)

(** [t if t in ["S","N","C","D","E","T"] else "O"] *)
Definition normalize (t : string) : string :=
  if mem t TAGS then t else "O".

(** The value stored in [ann[movie]["sys"]] for the lines [tags] of the
    movie's tag file and the offsets [i], [j]. *)
Definition align (tags : list string) (i j : Z) : list string :=
  slice (map normalize tags) i j.

(** The used fields of one line of the offsets file: [movie, _, i, j]. *)
Record window : Type := mkWindow {
  w_movie : string;
  w_start : Z;
  w_end : Z
}.

(** The files of the parsed-screenplays folder, by name, each as its list of
    lines. *)
Definition folder : Type := dict (list string).

(** [open(os.path.join(folder, name)).read().splitlines()] *)
Definition read_lines (parsed : folder) (name : string) : result (list string) :=
  match get parsed name with
  | Ok l => Ok l
  | Raise _ => Raise (FileNotFoundError name)
  end.

Fixpoint align_loop (parsed : folder) (line_numbers : list window)
  (ann : dict entry) : result (dict entry) :=
  match line_numbers with
  | [] => Ok ann
  | w :: rest =>
      tags <- read_lines parsed (w_movie w ++ "_tags.txt") ;;
      e <- get ann (w_movie w) ;;
      let e' := mkEntry (ann1 e) (ann2 e) (ann3 e) (maj e)
                  (Some (align tags (w_start w) (w_end w))) in
      align_loop parsed rest (set ann (w_movie w) e')
  end.

(* ================================================================== *)
(** * Scorer (lines 164-187) *)
(* ================================================================== *)

(** [x == y] *)
Definition same (p : string * string) : bool :=
  let '(x, y) := p in (x =? y)%string.

(** [100*n/N] for one movie. *)
Definition accuracy (maj_seq sys_seq : list string) : result Q :=
  let n := sum_bool same (zip maj_seq sys_seq) in
  let N := Z.of_nat (List.length maj_seq) in
  int_div (100 * n) N.

Fixpoint accuracy_loop (ann : dict entry) : result (list (string * Q)) :=
  match ann with
  | [] => Ok []
  | (movie, e) :: rest =>
      m <- get_key "maj" (maj e) ;;
      s <- get_key "sys" (sys e) ;;
      acc <- accuracy m s ;;
      accs <- accuracy_loop rest ;;
      Ok ((movie, acc) :: accs)
  end.

(** [x == y == tag] *)
Definition is_tp (tag : string) (p : string * string) : bool :=
  let '(x, y) := p in ((x =? y) && (y =? tag))%string.

(** [x != y == tag] *)
Definition is_fp (tag : string) (p : string * string) : bool :=
  let '(x, y) := p in (negb (x =? y) && (y =? tag))%string.

(** [tag == x != y] *)
Definition is_fn (tag : string) (p : string * string) : bool :=
  let '(x, y) := p in ((tag =? x) && negb (x =? y))%string.

(** The loop over the movies that accumulates [tp], [fp] and [fn]; the three
    sums read the same two lists of the movie. *)
Fixpoint tag_counts (tag : string) (ann : dict entry) (acc : Z * Z * Z)
  : result (Z * Z * Z) :=
  match ann with
  | [] => Ok acc
  | (_, e) :: rest =>
      let '(tp, fp, fn) := acc in
      m <- get_key "maj" (maj e) ;;
      s <- get_key "sys" (sys e) ;;
      tag_counts tag rest
        (tp + sum_bool (is_tp tag) (zip m s),
         fp + sum_bool (is_fp tag) (zip m s),
         fn + sum_bool (is_fn tag) (zip m s))
  end.

(** [p], [r] and [f1] from the three counts. *)
Definition prf (tp fp fn : Z) : result (Q * Q * Q) :=
  p <- int_div tp (tp + fp) ;;
  r <- int_div tp (tp + fn) ;;
  f1 <- float_div (2 * p * r)%Q (p + r)%Q ;;
  Ok (p, r, f1).

(** The body of the loop over the tags. *)
Definition score_tag (ann : dict entry) (tag : string) : result (Q * Q * Q) :=
  '(tp, fp, fn) <- tag_counts tag ann (0, 0, 0) ;;
  prf tp fp fn.

Fixpoint score_loop (ann : dict entry) (tags : list string)
  : result (list (string * (Q * Q * Q))) :=
  match tags with
  | [] => Ok []
  | tag :: rest =>
      s <- score_tag ann tag ;;
      ss <- score_loop ann rest ;;
      Ok ((tag, s) :: ss)
  end.

(* ================================================================== *)
(** * The function [evaluate] *)
(* ================================================================== *)

(** What a completed run writes: the agreement line of every movie, the three
    inter-rater scores, the accuracy of every movie, and [p], [r], [f1] of
    every tag (each written multiplied by 100 and rounded to one decimal). *)
Record report : Type := mkReport {
  agreement_by_movie : list agree_row;
  rater_pairs_agree : Q;
  fleiss : Q;
  krippendorff : Q;
  accuracy_by_movie : list (string * Q);
  prf_by_tag : list (string * (Q * Q * Q))
}.

(** The part of the run after the inter-rater scores (lines 142-187): the
    majority annotation, the aligned system output, then the accuracy of
    every movie and the scores of every tag. *)
Definition parser_scores (ann : dict entry) (parsed_screenplays : folder)
  (line_numbers : list window)
  : result (list (string * Q) * list (string * (Q * Q * Q))) :=
  let ann := majority_loop ann in
  ann <- align_loop parsed_screenplays line_numbers ann ;;
  accs <- accuracy_loop ann ;;
  scores <- score_loop ann TAGS ;;
  Ok (accs, scores).

Section Evaluate.

(** The two imported statistics, functions of the completed table. *)
Variable krippendorff_alpha : table -> result Q.
Variable fleiss_kappa : table -> result Q.

(** The agreement part of the run, from the decoded annotations. *)
Definition agreement (wb1 : workbook) (ann : dict entry) (movies : list string)
  : result (agree_state * list agree_row * Q * Q * Q) :=
  rows <- total_rows wb1 movies ;;
  '(st, lines) <- agree_movies ann (agree_init rows) movies ;;
  ka <- krippendorff_alpha (item_x_class_table st) ;;
  fk <- fleiss_kappa (item_x_class_table st) ;;
  pct <- int_div (100 * n_agree_rater_pairs st) (n_rater_pairs st) ;;
  Ok (st, lines, pct, fk, ka).

Definition evaluate (annotator_1_df_dict annotator_2_df_dict annotator_3_df_dict : workbook)
  (parsed_screenplays : folder) (line_numbers : list window) : result report :=
  let movies := movies_of annotator_1_df_dict in
  ann <- decode_loop annotator_1_df_dict annotator_2_df_dict annotator_3_df_dict
           movies [] ;;
  '(st, lines, pct, fk, ka) <- agreement annotator_1_df_dict ann movies ;;
  '(accs, scores) <- parser_scores ann parsed_screenplays line_numbers ;;
  Ok (mkReport lines pct fk ka accs scores).

End Evaluate.

(* ================================================================== *)
(** * Vocabulary of the statements *)
(* ================================================================== *)

(** The field of tag [t] matches the line text [l]: it is text whose stripped
    value equals the stripped line text. *)
Definition matches (r : row) (l : string) (t : string) : Prop :=
  exists s, row_get r t = Text s /\ strip s = strip l.

(** [t] is the one tag whose field matches: the other five do not. *)
Definition only_match (r : row) (l : string) (t : string) : Prop :=
  matches r l t /\ forall t', In t' TAGS -> t' <> t -> ~ matches r l t'.

(** The number of annotators out of three that hold the tag [t]. *)
Definition holders (a1 a2 a3 t : string) : nat :=
  count_occ string_dec [a1; a2; a3] t.

(** The aligner as the specification words it: every token outside the six
    tags becomes "O", then the tokens at the positions [start <= k < end_]
    are kept. *)
Definition normalize_words (t : string) : string :=
  if in_dec string_dec t TAGS then t else "O".

Definition align_words (tags : list string) (start end_ : nat) : list string :=
  firstn (end_ - start) (skipn start (map normalize_words tags)).

(** The contract of a line window on a tag file of [n] lines. *)
Definition window_ok (n : nat) (i j : Z) : Prop :=
  0 <= i /\ i <= j /\ j <= Z.of_nat n.

(** The number of positions, among those both sequences have, at which they
    hold the same tag. *)
Fixpoint agree_count (m s : list string) : nat :=
  match m, s with
  | x :: m', y :: s' => (if string_dec x y then 1 else 0) + agree_count m' s'
  | _, _ => 0
  end.

(** The positions the scorer compares, over all movies concatenated: the
    pairs (consensus tag, system tag). *)
Definition corpus_pairs (seqs : list (list string * list string))
  : list (string * string) :=
  flat_map (fun '(m, s) => zip m s) seqs.

(** [ann] holds, movie by movie, the consensus and system sequences [seqs]. *)
Definition holds_seqs (ann : dict entry) (seqs : list (list string * list string))
  : Prop :=
  Forall2 (fun ke ms => maj (snd ke) = Some (fst ms) /\ sys (snd ke) = Some (snd ms))
    ann seqs.

(** The sum of one row of the table over its categories. *)
Definition row_sum (r : list Z) : Z := fold_right Z.add 0 r.

(** Every row has seven columns. *)
Definition seven_wide (t : table) : Prop :=
  Forall (fun r => List.length r = 7%nat) t.

(** The row sums of a table of [rows] rows in which the first [filled] items
    have received their three votes. *)
Definition sums_after (filled rows : nat) : list Z :=
  (repeat 3 filled ++ repeat 0 (rows - filled))%list.

(** What the agreement loops keep true of the table and the item counter. *)
Definition agree_inv (rows : nat) (st : agree_state) : Prop :=
  0 <= i_item st /\
  seven_wide (item_x_class_table st) /\
  map row_sum (item_x_class_table st) = sums_after (Z.to_nat (i_item st)) rows.

(** The three tags of a line are categories of the table. *)
Definition valid_line (a : string * string * string) : Prop :=
  In (fst (fst a)) CLASSES /\ In (snd (fst a)) CLASSES /\ In (snd a) CLASSES.

(** The number of lines of a movie the agreement loop visits. *)
Definition lines_of (e : entry) : nat :=
  List.length (zip3 (ann1 e) (ann2 e) (ann3 e)).

(** The number of lines the agreement loops visit over the movies. *)
Fixpoint processed_lines (ann : dict entry) (movies : list string) : nat :=
  match movies with
  | [] => 0
  | movie :: rest =>
      (match get ann movie with
       | Ok e => lines_of e
       | Raise _ => 0
       end + processed_lines ann rest)%nat
  end.

(** For every evaluated movie the sheets of annotators 2 and 3 have at least
    as many rows as the sheet of annotator 1. *)
Definition sheets_cover (wb1 wb2 wb3 : workbook) : Prop :=
  forall m df1 df2 df3,
    In m (movies_of wb1) ->
    get wb1 m = Ok df1 -> get wb2 m = Ok df2 -> get wb3 m = Ok df3 ->
    (List.length df1 <= List.length df2 /\ List.length df1 <= List.length df3)%nat.

(* ================================================================== *)
(** * Example data *)
(* ================================================================== *)

(** A row whose line [text] is copied to the column of the tag [t]. *)
Definition tagged (t text : string) : row :=
  let c (u : string) := if (t =? u)%string then Text text else NaN in
  mkRow (Text text) (c "S") (c "N") (c "C") (c "D") (c "E") (c "T").

(** A workbook with a leading sheet of instructions and one movie of six
    lines, one line per tag. *)
Definition demo_sheet : sheet :=
  [tagged "S" "INT. HOUSE"; tagged "N" "He sits."; tagged "C" "JOHN";
   tagged "D" "Hello."; tagged "E" "(beat)"; tagged "T" "CUT TO:"].

Definition demo_workbook : workbook :=
  [("instructions", []); ("m", demo_sheet)].

(** The annotations decoded from the demonstration workbook used for the
    three annotators. *)
Definition demo_ann : dict entry :=
  [("m", mkEntry TAGS TAGS TAGS None None)].

(** The tagger's output for the whole script of the movie: eight lines. *)
Definition demo_folder : folder :=
  [("m_tags.txt", ["S"; "N"; "C"; "D"; "E"; "T"; "S"; "N"])].

(** Two workbooks for a movie of two lines; in the second the sheet of the
    movie lacks the last row. *)
Definition two_line_workbook : workbook :=
  [("instructions", []); ("m", [tagged "D" "Hello."; tagged "D" "Bye."])].

Definition one_line_workbook : workbook :=
  [("instructions", []); ("m", [tagged "D" "Hello."])].

(** Both statistics when the raters agree on every item and use more than
    one category. *)
Definition stat_one (t : table) : result Q := Ok 1%Q.

(** Rows of the examples: a heading tagged S, the same line copied to S and
    N, a blank line, and an empty cell. *)
Definition row_heading : row :=
  mkRow (Text "INT. HOUSE") (Text "INT. HOUSE") NaN NaN NaN NaN NaN.
Definition row_ambiguous : row :=
  mkRow (Text "INT. HOUSE") (Text "INT. HOUSE") (Text "INT. HOUSE") NaN NaN NaN NaN.
Definition row_blank : row :=
  mkRow (Text "  ") (Text "  ") NaN NaN NaN NaN NaN.
Definition row_empty : row :=
  mkRow NaN NaN NaN NaN NaN NaN NaN.

(* ================================================================== *)
(** * Text files: the tagging script and the report writer
      ([run_parser.py]; [logf], lines 10-13; the read of line 156) *)
(* ================================================================== *)

Definition LF : ascii := "010"%char.
Definition CR : ascii := "013"%char.

(** The characters at which [str.splitlines] ends a line: LF, VT, FF, CR,
    FS, GS, RS and NEL. *)
Definition is_linebreak (c : ascii) : bool :=
  let n := N_of_ascii c in
  (((10 <=? n) && (n <=? 13)) || ((28 <=? n) && (n <=? 30)) || (n =? 133))%N.

(** [s.splitlines()]: CR followed by LF ends one line; no empty line is
    produced after a final line break. *)
Fixpoint splitlines (s : string) : list string :=
  match s with
  | EmptyString => []
  | String c s' =>
      if is_linebreak c then
        match s' with
        | String c2 s'' =>
            if Ascii.eqb c CR && Ascii.eqb c2 LF
            then EmptyString :: splitlines s''
            else EmptyString :: splitlines s'
        | EmptyString => [EmptyString]
        end
      else
        match splitlines s' with
        | [] => [String c EmptyString]
        | l :: ls => String c l :: ls
        end
  end.

(** [s.split("\n")]: the pieces between the LF characters, always at least
    one. *)
Fixpoint split_newline (s : string) : list string :=
  match s with
  | EmptyString => [EmptyString]
  | String c s' =>
      if Ascii.eqb c LF then EmptyString :: split_newline s'
      else
        match split_newline s' with
        | [] => [String c EmptyString]
        | l :: ls => String c l :: ls
        end
  end.

(** What [read()] returns for a file opened in text mode with the default
    [newline=None]: CR LF and a lone CR are read as LF. *)
Fixpoint universal_newlines (s : string) : string :=
  match s with
  | EmptyString => EmptyString
  | String c s' =>
      if Ascii.eqb c CR then
        match s' with
        | String c2 s'' =>
            if Ascii.eqb c2 LF then String LF (universal_newlines s'')
            else String LF (universal_newlines s')
        | EmptyString => String LF EmptyString
        end
      else String c (universal_newlines s')
  end.

(** The line separator of the platform, [os.linesep]. *)
Inductive platform : Type := Posix | Windows.

Definition linesep (os : platform) : string :=
  match os with
  | Posix => String LF EmptyString
  | Windows => String CR (String LF EmptyString)
  end.

(** What [write(s)] stores in a file opened in text mode with the default
    [newline=None]: every LF becomes the line separator. *)
Fixpoint write_text (os : platform) (s : string) : string :=
  match s with
  | EmptyString => EmptyString
  | String c s' =>
      if Ascii.eqb c LF then (linesep os ++ write_text os s')%string
      else String c (write_text os s')
  end.

(** [open(path).read().splitlines()] on the stored characters of a file. *)
Definition read_splitlines (stored : string) : list string :=
  splitlines (universal_newlines stored).

(** The text written by [for tag in tags: f.write(f'{tag}\n')]
    ([run_parser.py], lines 29-35). *)
Fixpoint write_tags (tags : list string) : string :=
  match tags with
  | [] => EmptyString
  | tag :: rest => (tag ++ String LF (write_tags rest))%string
  end.

(** [script = reader.read().split("\n")] ([run_parser.py], lines 18-19), from
    the stored characters of the script file. *)
Definition read_script (stored : string) : list string :=
  split_newline (universal_newlines stored).

Section RunParser.

(** [ScreenplayParser.parse] of the transformer-based and of the rule-based
    parser, imported from the package. *)
Variable trx_parse : list string -> list string.
Variable rule_parse : list string -> list string.

(** The script [run_parser.py]: the stored characters of [trx_tags.txt] and
    [rule_tags.txt] for the stored characters of the screenplay. *)
Definition run_parser (os : platform) (stored : string) : string * string :=
  let script := read_script stored in
  let trx_tags := trx_parse script in
  let rule_tags := rule_parse script in
  (write_text os (write_tags trx_tags), write_text os (write_tags rule_tags)).

End RunParser.

(** The two places [logf] writes to: what was printed and the text written
    to [fw]. *)
Record sinks : Type := mkSinks {
  printed : string;
  fw : string
}.

(** [logf(fw, msg)]: [print(msg)] then [fw.write(msg + "\n")]. *)
Definition logf (o : sinks) (msg : string) : sinks :=
  mkSinks (printed o ++ msg ++ String LF EmptyString)%string
          (fw o ++ msg ++ String LF EmptyString)%string.

(** Two cells hold the same text up to surrounding whitespace, or are both
    not text. *)
Definition cell_alike (c c' : cell) : Prop :=
  match c, c' with
  | Text s, Text s' => strip s = strip s'
  | Text _, _ => False
  | _, Text _ => False
  | _, _ => True
  end.

(** The seven cells of two rows are alike. *)
Definition row_alike (r r' : row) : Prop :=
  cell_alike (col_line r) (col_line r') /\
  forall t, In t TAGS -> cell_alike (row_get r t) (row_get r' t).

(** The cell with its text stripped. *)
Definition cell_strip (c : cell) : cell :=
  match c with
  | Text s => Text (strip s)
  | _ => c
  end.

Definition row_strip (r : row) : row :=
  mkRow (cell_strip (col_line r)) (cell_strip (col_S r)) (cell_strip (col_N r))
    (cell_strip (col_C r)) (cell_strip (col_D r)) (cell_strip (col_E r))
    (cell_strip (col_T r)).

(** The three annotators hold the same tag on a line, no two of them do, or
    exactly two of them do. *)
Definition all_agree (a : string * string * string) : bool :=
  let '(a1, a2, a3) := a in ((a1 =? a2) && (a1 =? a3))%string.

Definition none_agree (a : string * string * string) : bool :=
  let '(a1, a2, a3) := a in
  (negb (a1 =? a2) && negb (a1 =? a3) && negb (a2 =? a3))%string.

Definition two_agree (a : string * string * string) : bool :=
  negb (all_agree a) && negb (none_agree a).

(** The lines of a movie the agreement loop visits, and those of all the
    movies in order. *)
Definition movie_lines (ann : dict entry) (movie : string)
  : list (string * string * string) :=
  match get ann movie with
  | Ok e => zip3 (ann1 e) (ann2 e) (ann3 e)
  | Raise _ => []
  end.

Definition corpus_lines (ann : dict entry) (movies : list string)
  : list (string * string * string) :=
  flat_map (movie_lines ann) movies.

(** The agreement line of a movie, from its lines: the percentage of lines
    on which all agree, then the numbers of lines on which two and none
    do. *)
Definition agree_row_of (movie : string) (l : list (string * string * string))
  : agree_row :=
  (movie,
   Qred (inject_Z (100 * sum_bool all_agree l) / inject_Z (Z.of_nat (List.length l))),
   sum_bool two_agree l,
   sum_bool none_agree l).

(** The last line of the offsets file that names the movie, if any. *)
Fixpoint last_window (movie : string) (line_numbers : list window) : option window :=
  match line_numbers with
  | [] => None
  | w :: rest =>
      match last_window movie rest with
      | Some w' => Some w'
      | None => if (w_movie w =? movie)%string then Some w else None
      end
  end.

(** A sequence of calls of [logf], one per message. *)
Definition log_all (o : sinks) (msgs : list string) : sinks :=
  fold_left logf msgs o.

(** A stand-in for a parser: it tags every line of the script with "D",
    except the empty ones, tagged "O". *)
Definition demo_parse (script : list string) : list string :=
  map (fun l => if (l =? EmptyString)%string then "O" else "D") script.

(** No character of [s] ends a line. *)
Fixpoint one_line (s : string) : bool :=
  match s with
  | EmptyString => true
  | String c s' => negb (is_linebreak c) && one_line s'
  end.

(** No character of [s] is a carriage return. *)
Fixpoint no_CR (s : string) : bool :=
  match s with
  | EmptyString => true
  | String c s' => negb (Ascii.eqb c CR) && no_CR s'
  end.

(** The number of LF characters of [s]. *)
Fixpoint count_LF (s : string) : nat :=
  match s with
  | EmptyString => 0
  | String c s' => ((if Ascii.eqb c LF then 1 else 0) + count_LF s')%nat
  end.

(* ================================================================== *)
(** * Properties of the Python primitives *)
(* ================================================================== *)

Lemma lstrip_empty_iff (s : string) :
  lstrip s = EmptyString <-> all_space s = true.
Proof.
  induction s as [| c s IH]; simpl.
  - tauto.
  - destruct (isspace c); simpl.
    + exact IH.
    + split; discriminate.
Qed.

Lemma rstrip_empty_iff (s : string) :
  rstrip s = EmptyString <-> all_space s = true.
Proof.
  induction s as [| c s IH]; simpl.
  - tauto.
  - destruct (rstrip s) eqn:Hr.
    + destruct (isspace c); simpl.
      * split; intros _; [apply IH |]; reflexivity.
      * split; discriminate.
    + split; [discriminate |].
      intros H. apply andb_true_iff in H. destruct H as [_ H].
      apply IH in H. discriminate.
Qed.

Lemma all_space_lstrip (s : string) :
  all_space (lstrip s) = all_space s.
Proof.
  induction s as [| c s IH]; simpl; [reflexivity |].
  destruct (isspace c) eqn:Hc; simpl.
  - exact IH.
  - now rewrite Hc.
Qed.

(** [s.strip()] is the empty string exactly when [s] holds only whitespace. *)
Lemma strip_empty_iff (s : string) :
  strip s = EmptyString <-> all_space s = true.
Proof.
  unfold strip. rewrite rstrip_empty_iff. now rewrite all_space_lstrip.
Qed.

Lemma strip_eqb_empty (s : string) :
  (strip s =? EmptyString)%string = all_space s.
Proof.
  destruct (all_space s) eqn:H.
  - apply String.eqb_eq. now apply strip_empty_iff.
  - apply String.eqb_neq. intros E. apply strip_empty_iff in E. congruence.
Qed.

(** [lstrip] removes a prefix of whitespace, as long as possible. *)
Lemma lstrip_spec (s : string) :
  exists l,
    s = (l ++ lstrip s)%string /\ all_space l = true /\
    forall c t, lstrip s = String c t -> isspace c = false.
Proof.
  induction s as [| c s (l & E & Hl & Hc)]; cbn [lstrip].
  - exists EmptyString. repeat split. discriminate.
  - destruct (isspace c) eqn:Hsp.
    + exists (String c l). cbn [append all_space]. rewrite Hsp, Hl, <- E.
      repeat split. exact Hc.
    + exists EmptyString. repeat split. intros c' t H. inversion H; subst. exact Hsp.
Qed.

(** [rstrip] removes a suffix of whitespace, as long as possible. *)
Lemma rstrip_spec (s : string) :
  exists r,
    s = (rstrip s ++ r)%string /\ all_space r = true /\
    forall t c, rstrip s = (t ++ String c EmptyString)%string -> isspace c = false.
Proof.
  induction s as [| c s (r & E & Hr & Hc)]; cbn [rstrip].
  - exists EmptyString. repeat split. intros [| a t] c H; discriminate.
  - destruct (rstrip s) as [| a u] eqn:Hu.
    + cbn [append] in E. subst r. destruct (isspace c) eqn:Hsp.
      * exists (String c s). cbn [append all_space]. rewrite Hsp, Hr.
        repeat split. intros [| a t] c' H; discriminate.
      * exists s. cbn [append]. repeat split; [exact Hr |].
        intros [| a t] c' H; cbn [append] in H; inversion H; subst; [exact Hsp |].
        destruct t; discriminate.
    + exists r. cbn [append] in E |- *. rewrite <- E. repeat split; [exact Hr |].
      intros [| b t] c' H; cbn [append] in H; inversion H; subst.
      now apply (Hc t c').
Qed.

(** [strip] keeps the text between the first and the last character that is
    not whitespace. *)
Lemma strip_spec (s : string) :
  exists l r,
    s = (l ++ strip s ++ r)%string /\ all_space l = true /\ all_space r = true /\
    (forall c t, strip s = String c t -> isspace c = false) /\
    (forall t c, strip s = (t ++ String c EmptyString)%string -> isspace c = false).
Proof.
  destruct (lstrip_spec s) as (l & El & Hl & Hfirst).
  destruct (rstrip_spec (lstrip s)) as (r & Er & Hr & Hlast).
  exists l, r. unfold strip. split; [now rewrite <- Er |].
  split; [exact Hl |]. split; [exact Hr |]. split; [| exact Hlast].
  intros c t H. destruct (lstrip s) as [| c0 u] eqn:Hu; [discriminate |].
  assert (c = c0).
  { cbn [rstrip] in H. destruct (rstrip u); [destruct (isspace c0) |];
      inversion H; reflexivity. }
  subst c0. now apply (Hfirst c u).
Qed.

(* ================================================================== *)
(** * Annotation decoder *)
(* ================================================================== *)

Lemma field_matches_iff (r : row) (l t : string) :
  field_matches l (row_get r t) = true <-> matches r l t.
Proof.
  unfold matches, field_matches. destruct (row_get r t) as [s | | z].
  - rewrite String.eqb_eq. split.
    + intros H. exists s. split; congruence.
    + intros (s' & E & H). inversion E; subst. congruence.
  - split; [discriminate | intros (s & E & _); discriminate].
  - split; [discriminate | intros (s & E & _); discriminate].
Qed.

(** [only_match] on the six boolean tests the loop makes. *)
Lemma only_match_iff (r : row) (l t : string) :
  only_match r l t <->
  field_matches l (row_get r t) = true /\
  forall t', In t' TAGS -> t' <> t -> field_matches l (row_get r t') = false.
Proof.
  unfold only_match. rewrite <- field_matches_iff. split.
  - intros [H1 H2]. split; [exact H1 |]. intros t' Hin Hne.
    apply not_true_is_false. rewrite field_matches_iff. now apply H2.
  - intros [H1 H2]. split; [exact H1 |]. intros t' Hin Hne Hm.
    apply field_matches_iff in Hm. rewrite (H2 t' Hin Hne) in Hm. discriminate.
Qed.

(** The decoder on a row whose line is text with a non-blank character, as
    a function of the six tests. *)
Lemma decode_row_text (r : row) (l : string) :
  col_line r = Text l -> all_space l = false ->
  decode_row r =
    let '(n, atag) := fold_left (decode_step r l) TAGS (0, EmptyString) in
    if negb (atag =? EmptyString)%string && (n =? 5) then atag else "O".
Proof.
  intros Hl Hs. unfold decode_row. rewrite Hl, strip_eqb_empty, Hs. reflexivity.
Qed.

Lemma forall_TAGS (P : string -> Prop) :
  (forall t, In t TAGS -> P t) <->
  P "S" /\ P "N" /\ P "C" /\ P "D" /\ P "E" /\ P "T".
Proof.
  unfold TAGS. split.
  - intros H. repeat split; apply H; simpl; tauto.
  - intros (H1 & H2 & H3 & H4 & H5 & H6) t Ht. simpl in Ht.
    destruct Ht as [<- | [<- | [<- | [<- | [<- | [<- | []]]]]]]; assumption.
Qed.

(** Closes one case of the table of the six tests: either the decoded tag
    differs from the tag asked for, or one of the seven facts about the
    tests is contradictory. *)
Ltac close_decode_case :=
  split;
  [ intros H; try discriminate H;
    repeat split; intros; try reflexivity; congruence
  | intros (H1 & H2 & H3 & H4 & H5 & H6 & H7);
    try reflexivity; exfalso;
    first [ discriminate H1
          | solve [specialize (H2 ltac:(discriminate)); discriminate]
          | solve [specialize (H3 ltac:(discriminate)); discriminate]
          | solve [specialize (H4 ltac:(discriminate)); discriminate]
          | solve [specialize (H5 ltac:(discriminate)); discriminate]
          | solve [specialize (H6 ltac:(discriminate)); discriminate]
          | solve [specialize (H7 ltac:(discriminate)); discriminate] ] ].

Lemma decode_row_only_match (r : row) (l t : string) :
  col_line r = Text l -> all_space l = false -> In t TAGS ->
  (decode_row r = t <-> only_match r l t).
Proof.
  intros Hl Hs Hin. rewrite (decode_row_text r l Hl Hs), only_match_iff.
  rewrite (forall_TAGS (fun t' => t' <> t -> field_matches l (row_get r t') = false)).
  unfold TAGS in Hin |- *. unfold decode_step. cbn [fold_left].
  simpl in Hin.
  destruct Hin as [<- | [<- | [<- | [<- | [<- | [<- | []]]]]]];
    change (row_get r "S") with (col_S r); change (row_get r "N") with (col_N r);
    change (row_get r "C") with (col_C r); change (row_get r "D") with (col_D r);
    change (row_get r "E") with (col_E r); change (row_get r "T") with (col_T r);
    destruct (field_matches l (col_S r)), (field_matches l (col_N r)),
      (field_matches l (col_C r)), (field_matches l (col_D r)),
      (field_matches l (col_E r)), (field_matches l (col_T r));
    cbn; close_decode_case.
Qed.

(** The decoder only ever yields one of the seven categories. *)
Lemma decode_row_class (r : row) :
  decode_row r = "O" \/ In (decode_row r) TAGS.
Proof.
  unfold decode_row. destruct (col_line r) as [l | | z]; try (now left).
  destruct (strip l =? EmptyString)%string; [now left |].
  unfold TAGS, decode_step. cbn [fold_left].
  destruct (field_matches l (row_get r "S")), (field_matches l (row_get r "N")),
    (field_matches l (row_get r "C")), (field_matches l (row_get r "D")),
    (field_matches l (row_get r "E")), (field_matches l (row_get r "T"));
    cbn; tauto.
Qed.

Lemma decode_row_blank (r : row) (l : string) :
  col_line r = Text l -> all_space l = true -> decode_row r = "O".
Proof.
  intros Hl Hs. unfold decode_row. now rewrite Hl, strip_eqb_empty, Hs.
Qed.

Lemma decode_row_not_text (r : row) :
  (forall l, col_line r <> Text l) -> decode_row r = "O".
Proof.
  intros H. unfold decode_row. destruct (col_line r) as [l | | z]; try reflexivity.
  now destruct (H l).
Qed.

(** C2. The annotation decoder returns "O" when the [line] field is not text
    or holds only whitespace; otherwise it returns a tag [t] of S, N, C, D,
    E, T exactly when the field of [t] is text whose stripped value equals
    the stripped line text and none of the other five fields matches; in
    every other case (no match, or two or more matches) it returns "O". *)
Theorem decode_row_spec (r : row) :
  ((forall l, col_line r <> Text l) -> decode_row r = "O") /\
  (forall l, col_line r = Text l -> all_space l = true -> decode_row r = "O") /\
  (forall l, col_line r = Text l -> all_space l = false ->
     (forall t, In t TAGS -> (decode_row r = t <-> only_match r l t)) /\
     ((forall t, In t TAGS -> ~ only_match r l t) -> decode_row r = "O")).
Proof.
  split; [apply decode_row_not_text |].
  split; [apply decode_row_blank |].
  intros l Hl Hs. split.
  - intros t Ht. now apply decode_row_only_match.
  - intros Hno. destruct (decode_row_class r) as [H | H]; [exact H |].
    exfalso. apply (Hno _ H). now apply (decode_row_only_match r l).
Qed.

Lemma decode_row_spec_witness :
  decode_row row_empty = "O" /\
  decode_row row_blank = "O" /\
  decode_row row_heading = "S" /\
  decode_row row_ambiguous = "O".
Proof.
  split; [| split; [| split]].
  - apply (proj1 (decode_row_spec row_empty)). intros l. discriminate.
  - apply (proj1 (proj2 (decode_row_spec row_blank)) "  "); reflexivity.
  - apply (proj1 (proj2 (proj2 (decode_row_spec row_heading))
                    "INT. HOUSE" eq_refl eq_refl)).
    + simpl. tauto.
    + split.
      * exists "INT. HOUSE". split; reflexivity.
      * intros t' Hin Hne [s [E _]]. simpl in Hin.
        destruct Hin as [<- | [<- | [<- | [<- | [<- | [<- | []]]]]]];
          try discriminate E. now apply Hne.
  - apply (proj2 (proj2 (proj2 (decode_row_spec row_ambiguous))
                    "INT. HOUSE" eq_refl eq_refl)).
    intros t Hin [[s [E _]] Hothers]. simpl in Hin.
    destruct Hin as [<- | [<- | [<- | [<- | [<- | [<- | []]]]]]];
      try discriminate E.
    + apply (Hothers "N"); [simpl; tauto | discriminate |].
      exists "INT. HOUSE". split; reflexivity.
    + apply (Hothers "S"); [simpl; tauto | discriminate |].
      exists "INT. HOUSE". split; reflexivity.
Defined.

(* ================================================================== *)
(** * Consensus builder *)
(* ================================================================== *)

(** C1. For every triple of tags the consensus tag is the tag held by at
    least two of the three annotators, and "O" when no tag is held by two;
    ("S","S","N") gives "S", ("S","N","C") gives "O" and ("O","S","S")
    gives "S". *)
Theorem majority_spec (a1 a2 a3 : string) :
  (forall t, (2 <= holders a1 a2 a3 t)%nat -> majority a1 a2 a3 = t) /\
  ((forall t, (holders a1 a2 a3 t < 2)%nat) -> majority a1 a2 a3 = "O") /\
  majority "S" "S" "N" = "S" /\
  majority "S" "N" "C" = "O" /\
  majority "O" "S" "S" = "S".
Proof.
  unfold majority, holders. repeat split.
  - intros t. simpl.
    destruct (String.eqb_spec a1 a2), (String.eqb_spec a1 a3),
      (String.eqb_spec a2 a3); simpl;
      destruct (string_dec a1 t), (string_dec a2 t), (string_dec a3 t);
      simpl; intros H; subst; try congruence; lia.
  - intros H.
    destruct (String.eqb_spec a1 a2) as [E12 | N12]; simpl.
    + specialize (H a1). subst a2. simpl in H.
      destruct (string_dec a1 a1); [| congruence].
      destruct (string_dec a3 a1); lia.
    + destruct (String.eqb_spec a1 a3) as [E13 | N13]; simpl.
      * specialize (H a1). subst a3. simpl in H.
        destruct (string_dec a1 a1); [| congruence].
        destruct (string_dec a2 a1); lia.
      * destruct (String.eqb_spec a2 a3) as [E23 | N23]; [| reflexivity].
        specialize (H a2). subst a3. simpl in H.
        destruct (string_dec a2 a2); [| congruence].
        destruct (string_dec a1 a2); lia.
Qed.

Lemma majority_spec_witness :
  majority "D" "C" "D" = "D" /\ majority "T" "E" "N" = "O".
Proof.
  split.
  - apply (proj1 (majority_spec "D" "C" "D")). unfold holders. cbn [count_occ].
    destruct (string_dec "D" "D"); [| congruence].
    destruct (string_dec "C" "D"); lia.
  - apply (proj1 (proj2 (majority_spec "T" "E" "N"))). intros t.
    unfold holders. cbn [count_occ].
    destruct (string_dec "T" t), (string_dec "E" t), (string_dec "N" t);
      cbv beta iota; try lia; congruence.
Defined.

(* ================================================================== *)
(** * System-output aligner *)
(* ================================================================== *)

Lemma clamp_index_bounds (n i : Z) :
  0 <= n -> 0 <= clamp_index n i <= n.
Proof.
  intros Hn. unfold clamp_index. destruct (Z.ltb_spec i 0); lia.
Qed.

Lemma clamp_index_nonneg (n i : Z) :
  0 <= i -> clamp_index n i = Z.min i n.
Proof.
  intros Hi. unfold clamp_index. destruct (Z.ltb_spec i 0); [lia | reflexivity].
Qed.

Lemma slice_length {A : Type} (l : list A) (i j : Z) :
  List.length (slice l i j) =
  Z.to_nat (clamp_index (Z.of_nat (List.length l)) j
            - clamp_index (Z.of_nat (List.length l)) i).
Proof.
  unfold slice. rewrite length_firstn, length_skipn.
  pose proof (clamp_index_bounds (Z.of_nat (List.length l)) i ltac:(lia)).
  pose proof (clamp_index_bounds (Z.of_nat (List.length l)) j ltac:(lia)).
  lia.
Qed.

Lemma slice_map {A B : Type} (f : A -> B) (l : list A) (i j : Z) :
  slice (map f l) i j = map f (slice l i j).
Proof.
  unfold slice. now rewrite length_map, skipn_map, firstn_map.
Qed.

Lemma Forall_firstn_skipn {A : Type} (P : A -> Prop) (l : list A) (a b : nat) :
  Forall P l -> Forall P (firstn a (skipn b l)).
Proof.
  intros H. rewrite <- (firstn_skipn b l) in H. apply Forall_app in H.
  destruct H as [_ H]. rewrite <- (firstn_skipn a (skipn b l)) in H.
  apply Forall_app in H. tauto.
Qed.

(** A slice with non-negative bounds keeps the positions [i <= k < j] that
    exist. *)
Lemma slice_nonneg {A : Type} (l : list A) (i j : Z) :
  0 <= i -> 0 <= j ->
  slice l i j = firstn (Z.to_nat j - Z.to_nat i) (skipn (Z.to_nat i) l).
Proof.
  intros Hi Hj. unfold slice. rewrite !clamp_index_nonneg by assumption.
  set (n := List.length l).
  destruct (Z_lt_le_dec i (Z.of_nat n)) as [Hin | Hin].
  - rewrite (Z.min_l i) by lia.
    destruct (Z_lt_le_dec j (Z.of_nat n)) as [Hjn | Hjn].
    + rewrite (Z.min_l j) by lia. f_equal. lia.
    + rewrite (Z.min_r j) by lia.
      rewrite !firstn_all2; [reflexivity | |]; rewrite length_skipn; fold n; lia.
  - rewrite (Z.min_r i) by lia.
    rewrite !skipn_all2 by (fold n; lia).
    now rewrite !firstn_nil.
Qed.

Lemma normalize_words_eq (t : string) :
  normalize t = normalize_words t.
Proof.
  unfold normalize, normalize_words, mem.
  destruct (in_dec string_dec t TAGS) as [Hin | Hnin].
  - assert (E : existsb (String.eqb t) TAGS = true).
    { apply existsb_exists. exists t. split; [exact Hin | apply String.eqb_refl]. }
    now rewrite E.
  - destruct (existsb (String.eqb t) TAGS) eqn:E; [| reflexivity].
    apply existsb_exists in E. destruct E as [x [Hx E]].
    apply String.eqb_eq in E. subst x. contradiction.
Qed.

Lemma normalize_class (t : string) :
  In (normalize t) CLASSES.
Proof.
  rewrite normalize_words_eq. unfold normalize_words.
  destruct (in_dec string_dec t TAGS) as [Hin | _].
  - unfold TAGS in Hin. unfold CLASSES. simpl in *. tauto.
  - unfold CLASSES. simpl. tauto.
Qed.

Lemma align_classes (tags : list string) (i j : Z) :
  Forall (fun t => In t CLASSES) (align tags i j).
Proof.
  unfold align, slice. apply Forall_firstn_skipn.
  apply Forall_map. apply Forall_forall. intros t _. apply normalize_class.
Qed.

(** C7. For every tag file and every window the aligner returns the token
    list with every token outside S, N, C, D, E, T replaced by "O", sliced
    by the window: the slice [start:end] of the normalised list, which for
    non-negative bounds consists of the positions [start <= k < end]; every
    element of the result is one of S, N, C, D, E, T, O. *)
Theorem align_refines (tags : list string) (i j : Z) :
  align tags i j = slice (map normalize_words tags) i j /\
  (0 <= i -> 0 <= j -> align tags i j = align_words tags (Z.to_nat i) (Z.to_nat j)) /\
  Forall (fun t => In t CLASSES) (align tags i j).
Proof.
  assert (E : map normalize tags = map normalize_words tags).
  { apply map_ext. apply normalize_words_eq. }
  split; [| split].
  - unfold align. now rewrite E.
  - intros Hi Hj. unfold align, align_words. rewrite E. now apply slice_nonneg.
  - apply align_classes.
Qed.

Lemma align_refines_witness :
  align ["X"; "S"; "dialogue"; "D"; "T"] 1 4 = ["S"; "O"; "D"].
Proof.
  rewrite (proj1 (proj2 (align_refines ["X"; "S"; "dialogue"; "D"; "T"] 1 4)));
    [reflexivity | lia | lia].
Defined.

Lemma read_lines_ok (parsed : folder) (name : string) (tags : list string) :
  get parsed name = Ok tags -> read_lines parsed name = Ok tags.
Proof.
  intros H. unfold read_lines. now rewrite H.
Qed.

(** A window outside its contract does not make the aligner fail: on a file
    of two lines the window (1, 5) is accepted and the one available token
    is stored. *)
Lemma align_loop_accepts_bad_window :
  ~ window_ok (List.length ["S"; "N"]) 1 5 /\
  align_loop [("m_tags.txt", ["S"; "N"])] [mkWindow "m" 1 5]
    [("m", mkEntry ["N"] ["N"] ["N"] (Some ["N"]) None)]
  = Ok [("m", mkEntry ["N"] ["N"] ["N"] (Some ["N"]) (Some ["N"]))].
Proof.
  split.
  - unfold window_ok. simpl. lia.
  - reflexivity.
Qed.

(** C8, as the code has it. A window is never checked against its contract:
    when the tag file and the movie exist, the turn of the loop succeeds for
    every pair of offsets and stores the slice of the normalised tokens.
    Each offset is clipped to the file, a negative one counting from the
    end; the slice holds the tokens from the clipped start up to the clipped
    end, and none exactly when the clipped end is not after the clipped
    start. An end at or past the end of the file keeps every token from the
    clipped start on; for offsets that are not negative, an end past the
    file keeps the tokens from the start on and an end before the start
    keeps none. *)
Theorem align_loop_clips (parsed : folder) (w : window) (rest : list window)
  (ann : dict entry) (tags : list string) (e : entry) :
  get parsed (w_movie w ++ "_tags.txt") = Ok tags ->
  get ann (w_movie w) = Ok e ->
  let n := Z.of_nat (List.length tags) in
  let lo := clamp_index n (w_start w) in
  let hi := clamp_index n (w_end w) in
  let out := align tags (w_start w) (w_end w) in
  align_loop parsed (w :: rest) ann =
    align_loop parsed rest
      (set ann (w_movie w)
         (mkEntry (ann1 e) (ann2 e) (ann3 e) (maj e) (Some out))) /\
  lo = (if w_start w <? 0 then Z.max 0 (w_start w + n) else Z.min (w_start w) n) /\
  hi = (if w_end w <? 0 then Z.max 0 (w_end w + n) else Z.min (w_end w) n) /\
  0 <= lo <= n /\ 0 <= hi <= n /\
  List.length out = Z.to_nat (hi - lo) /\
  (forall k, (k < Z.to_nat (hi - lo))%nat ->
     exists t, nth_error tags (Z.to_nat lo + k) = Some t /\
               nth_error out k = Some (normalize t)) /\
  (out = [] <-> hi <= lo) /\
  (n <= w_end w -> out = skipn (Z.to_nat lo) (map normalize tags)) /\
  (0 <= w_start w -> n < w_end w ->
   out = skipn (Z.to_nat (w_start w)) (map normalize tags)) /\
  (0 <= w_start w -> 0 <= w_end w -> w_end w < w_start w -> out = []).
Proof.
  intros Hf He n lo hi out.
  pose proof (clamp_index_bounds n (w_start w) ltac:(unfold n; lia)) as Hlo.
  pose proof (clamp_index_bounds n (w_end w) ltac:(unfold n; lia)) as Hhi.
  fold lo in Hlo. fold hi in Hhi.
  assert (Hout : out = firstn (Z.to_nat (hi - lo))
                         (skipn (Z.to_nat lo) (map normalize tags))).
  { unfold out, align, slice. rewrite length_map. reflexivity. }
  assert (Hlen : List.length out = Z.to_nat (hi - lo)).
  { rewrite Hout, length_firstn, length_skipn, length_map. unfold n in *. lia. }
  split; [| split; [| split; [| split; [| split; [| split; [| split;
    [| split; [| split; [| split]]]]]]]]].
  - cbn [align_loop]. rewrite (read_lines_ok _ _ _ Hf). cbn [bind].
    rewrite He. reflexivity.
  - reflexivity.
  - reflexivity.
  - exact Hlo.
  - exact Hhi.
  - exact Hlen.
  - intros k Hk. rewrite Hout, nth_error_firstn.
    destruct (Nat.ltb_spec k (Z.to_nat (hi - lo))) as [_ | Hge]; [| lia].
    rewrite nth_error_skipn, nth_error_map.
    destruct (nth_error tags (Z.to_nat lo + k)) as [t |] eqn:E.
    + exists t. split; reflexivity.
    + apply nth_error_None in E. unfold n in *. lia.
  - rewrite <- length_zero_iff_nil, Hlen. lia.
  - intros Hend. rewrite Hout.
    assert (Hn : hi = n).
    { unfold hi, clamp_index. destruct (Z.ltb_spec (w_end w) 0); unfold n in *; lia. }
    apply firstn_all2. rewrite length_skipn, length_map, Hn. unfold n. lia.
  - intros Hi Hj. unfold out, align. rewrite slice_nonneg by (unfold n in *; lia).
    apply firstn_all2. rewrite length_skipn, length_map. unfold n in *. lia.
  - intros Hi Hj Hij. unfold out, align. rewrite slice_nonneg by lia.
    replace (Z.to_nat (w_end w) - Z.to_nat (w_start w))%nat with 0%nat by lia.
    reflexivity.
Qed.

Lemma align_loop_clips_witness :
  align_loop [("m_tags.txt", ["S"; "N"])] [mkWindow "m" 1 5]
    [("m", mkEntry ["N"] ["N"] ["N"] (Some ["N"]) None)]
  = Ok [("m", mkEntry ["N"] ["N"] ["N"] (Some ["N"]) (Some ["N"]))].
Proof.
  rewrite (proj1 (align_loop_clips [("m_tags.txt", ["S"; "N"])] (mkWindow "m" 1 5) []
                    [("m", mkEntry ["N"] ["N"] ["N"] (Some ["N"]) None)]
                    ["S"; "N"] (mkEntry ["N"] ["N"] ["N"] (Some ["N"]) None)
                    eq_refl eq_refl)).
  reflexivity.
Defined.

(** The two short rules need offsets that are not negative: an end counted
    from the end of the file can lie before the start as a number and still
    after it as a position. *)
Example align_end_counted_from_the_end :
  align ["S"; "N"; "C"] 1 (-1) = ["N"].
Proof. reflexivity. Qed.

(* ================================================================== *)
(** * Scorer *)
(* ================================================================== *)

Lemma fold_left_count_acc {A : Type} (f : A -> bool) (l : list A) (a : Z) :
  fold_left (fun acc x => acc + (if f x then 1 else 0)) l a =
  a + fold_left (fun acc x => acc + (if f x then 1 else 0)) l 0.
Proof.
  revert a. induction l as [| x l IH]; intros a; simpl; [lia |].
  rewrite IH, (IH (if f x then 1 else 0)). lia.
Qed.

Lemma sum_bool_nil {A : Type} (f : A -> bool) :
  sum_bool f [] = 0.
Proof. reflexivity. Qed.

Lemma sum_bool_cons {A : Type} (f : A -> bool) (x : A) (l : list A) :
  sum_bool f (x :: l) = (if f x then 1 else 0) + sum_bool f l.
Proof.
  unfold sum_bool. simpl. now rewrite fold_left_count_acc.
Qed.

Lemma sum_bool_app {A : Type} (f : A -> bool) (l1 l2 : list A) :
  sum_bool f (l1 ++ l2) = sum_bool f l1 + sum_bool f l2.
Proof.
  induction l1 as [| x l1 IH]; cbn [app].
  - rewrite sum_bool_nil. lia.
  - rewrite !sum_bool_cons, IH. lia.
Qed.

Lemma sum_bool_bounds {A : Type} (f : A -> bool) (l : list A) :
  0 <= sum_bool f l <= Z.of_nat (List.length l).
Proof.
  induction l as [| x l IH].
  - rewrite sum_bool_nil. simpl. lia.
  - rewrite sum_bool_cons. simpl List.length. destruct (f x); lia.
Qed.

Lemma sum_bool_pos {A : Type} (f : A -> bool) (l : list A) :
  0 < sum_bool f l <-> exists x, In x l /\ f x = true.
Proof.
  induction l as [| x l IH].
  - rewrite sum_bool_nil. split; [lia | intros (x & [] & _)].
  - rewrite sum_bool_cons. pose proof (sum_bool_bounds f l) as Hb. split.
    + intros H. destruct (f x) eqn:Hx.
      * exists x. split; [now left | exact Hx].
      * destruct (proj1 IH ltac:(lia)) as (y & Hy & Hfy).
        exists y. split; [now right | exact Hfy].
    + intros (y & [<- | Hy] & Hfy).
      * rewrite Hfy. lia.
      * assert (0 < sum_bool f l) by (apply IH; eauto). destruct (f x); lia.
Qed.

Lemma is_tp_iff (t x y : string) :
  is_tp t (x, y) = true <-> x = t /\ y = t.
Proof.
  unfold is_tp. rewrite andb_true_iff, !String.eqb_eq. split; intros []; split; congruence.
Qed.

Lemma is_fp_iff (t x y : string) :
  is_fp t (x, y) = true <-> x <> y /\ y = t.
Proof.
  unfold is_fp. rewrite andb_true_iff, negb_true_iff, String.eqb_neq, String.eqb_eq.
  tauto.
Qed.

Lemma is_fn_iff (t x y : string) :
  is_fn t (x, y) = true <-> x = t /\ y <> t.
Proof.
  unfold is_fn. rewrite andb_true_iff, negb_true_iff, String.eqb_neq, String.eqb_eq.
  split; intros [H1 H2]; split; congruence.
Qed.

Lemma tag_counts_acc (t : string) (ann : dict entry)
  (seqs : list (list string * list string)) (tp fp fn : Z) :
  holds_seqs ann seqs ->
  tag_counts t ann (tp, fp, fn) =
  Ok (tp + sum_bool (is_tp t) (corpus_pairs seqs),
      fp + sum_bool (is_fp t) (corpus_pairs seqs),
      fn + sum_bool (is_fn t) (corpus_pairs seqs)).
Proof.
  intros H. revert tp fp fn.
  induction H as [| [movie e] [m s] ann seqs [Hm Hs] _ IH]; intros tp fp fn.
  - cbn [tag_counts corpus_pairs flat_map]. rewrite !sum_bool_nil.
    apply f_equal. apply f_equal2; [apply f_equal2 |]; lia.
  - simpl in Hm, Hs. cbn [tag_counts]. rewrite Hm, Hs. cbn [get_key bind].
    rewrite IH. unfold corpus_pairs. cbn [flat_map].
    rewrite !sum_bool_app. apply f_equal.
    apply f_equal2; [apply f_equal2 |]; lia.
Qed.

Lemma inject_Z_div_pos (a b : Z) :
  0 < a -> 0 < b -> (0 < inject_Z a / inject_Z b)%Q.
Proof.
  intros Ha Hb. apply Qlt_shift_div_l.
  - change 0%Q with (inject_Z 0). rewrite <- Zlt_Qlt. exact Hb.
  - rewrite Qmult_0_l. change 0%Q with (inject_Z 0). rewrite <- Zlt_Qlt. exact Ha.
Qed.

Lemma int_div_ok (a b : Z) :
  b <> 0 -> int_div a b = Ok (Qred (inject_Z a / inject_Z b)).
Proof.
  intros Hb. unfold int_div. destruct (Z.eqb_spec b 0); [contradiction | reflexivity].
Qed.

Lemma int_div_zero (a : Z) :
  int_div a 0 = Raise ZeroDivisionError.
Proof. reflexivity. Qed.

(** With a true positive the three divisions are defined. *)
Lemma prf_defined (tp fp fn : Z) :
  0 < tp -> 0 <= fp -> 0 <= fn ->
  exists p r f1,
    prf tp fp fn = Ok (p, r, f1) /\
    (p == inject_Z tp / inject_Z (tp + fp))%Q /\
    (r == inject_Z tp / inject_Z (tp + fn))%Q /\
    (f1 == 2 * p * r / (p + r))%Q.
Proof.
  intros Htp Hfp Hfn. unfold prf.
  rewrite !int_div_ok by lia. cbn [bind].
  set (p := Qred (inject_Z tp / inject_Z (tp + fp))).
  set (r := Qred (inject_Z tp / inject_Z (tp + fn))).
  assert (Hp : (0 < p)%Q).
  { unfold p. rewrite Qred_correct. apply inject_Z_div_pos; lia. }
  assert (Hr : (0 < r)%Q).
  { unfold r. rewrite Qred_correct. apply inject_Z_div_pos; lia. }
  assert (Hpr : ~ (p + r == 0)%Q).
  { intros E. pose proof (Qplus_lt_compat 0 p 0 r Hp Hr) as H.
    rewrite E in H. now apply (Qlt_irrefl 0). }
  unfold float_div. destruct (Qeq_bool (p + r) 0) eqn:E.
  - apply Qeq_bool_eq in E. contradiction.
  - cbn [bind]. exists p, r, (Qred (2 * p * r / (p + r))).
    split; [reflexivity |]. unfold p, r at 1.
    rewrite !Qred_correct. repeat split; reflexivity.
Qed.

(** A completed loop over the tags holds one triple of scores per tag, in
    the order of the tags. *)
Lemma score_loop_tags (ann : dict entry) (tags : list string) :
  forall scores, score_loop ann tags = Ok scores -> map fst scores = tags.
Proof.
  induction tags as [| t tags IH]; intros scores H; cbn [score_loop] in H.
  - now inversion H.
  - destruct (score_tag ann t); [| discriminate]. cbn [bind] in H.
    destruct (score_loop ann tags) as [ss |]; [| discriminate]. cbn [bind] in H.
    inversion H; subst. cbn [map fst]. f_equal. now apply IH.
Qed.

Lemma score_loop_scores (ann : dict entry) (tags : list string) (t : string) :
  forall scores,
    score_loop ann tags = Ok scores -> In t tags ->
    exists s, In (t, s) scores /\ score_tag ann t = Ok s.
Proof.
  induction tags as [| t' tags IH]; intros scores H Hin; [destruct Hin |].
  cbn [score_loop] in H.
  destruct (score_tag ann t') as [s' |] eqn:E; [| discriminate]. cbn [bind] in H.
  destruct (score_loop ann tags) as [ss |]; [| discriminate]. cbn [bind] in H.
  inversion H; subst scores. destruct Hin as [-> | Hin].
  - exists s'. split; [now left | exact E].
  - destruct (IH ss eq_refl Hin) as (s & Hs & Es). exists s. split; [now right | exact Es].
Qed.

(** C5. For a tag [t] a position counts as a true positive iff consensus and
    system both equal [t], as a false positive iff they differ and the
    system tag is [t], and as a false negative iff the consensus is [t] and
    the system tag is not; a completed scorer holds the scores of every tag
    of its list; the counts are taken over the pairs of all movies
    concatenated; precision is tp/(tp+fp), recall tp/(tp+fn) and F1
    2*p*r/(p+r); consensus S,S,N against system S,N,S gives 0.5 for the
    three scores of "S". *)
Theorem score_tag_spec (t : string) :
  (forall x y,
     (is_tp t (x, y) = true <-> x = t /\ y = t) /\
     (is_fp t (x, y) = true <-> x <> y /\ y = t) /\
     (is_fn t (x, y) = true <-> x = t /\ y <> t)) /\
  (forall ann tags scores,
     score_loop ann tags = Ok scores ->
     map fst scores = tags /\
     (In t tags -> exists s, In (t, s) scores /\ score_tag ann t = Ok s)) /\
  (forall ann seqs,
     holds_seqs ann seqs ->
     score_tag ann t =
     prf (sum_bool (is_tp t) (corpus_pairs seqs))
         (sum_bool (is_fp t) (corpus_pairs seqs))
         (sum_bool (is_fn t) (corpus_pairs seqs))) /\
  (forall tp fp fn,
     0 < tp -> 0 <= fp -> 0 <= fn ->
     exists p r f1,
       prf tp fp fn = Ok (p, r, f1) /\
       (p == inject_Z tp / inject_Z (tp + fp))%Q /\
       (r == inject_Z tp / inject_Z (tp + fn))%Q /\
       (f1 == 2 * p * r / (p + r))%Q) /\
  score_tag [("m", mkEntry [] [] [] (Some ["S"; "S"; "N"]) (Some ["S"; "N"; "S"]))] "S"
  = Ok (1 # 2, 1 # 2, 1 # 2)%Q.
Proof.
  split; [| split; [| split; [| split]]].
  - intros x y. split; [apply is_tp_iff | split; [apply is_fp_iff | apply is_fn_iff]].
  - intros ann tags scores H.
    split; [now apply (score_loop_tags ann) | now apply (score_loop_scores ann tags)].
  - intros ann seqs H. unfold score_tag.
    rewrite (tag_counts_acc t ann seqs 0 0 0 H). cbn [bind]. reflexivity.
  - apply prf_defined.
  - reflexivity.
Qed.

Lemma score_tag_spec_witness :
  score_tag [("m", mkEntry [] [] [] (Some ["S"; "S"; "N"]) (Some ["S"; "N"; "S"]))] "S"
  = prf 1 1 1 /\
  exists p r f1, prf 2 1 0 = Ok (p, r, f1) /\ (p == 2 # 3)%Q /\ (r == 1)%Q.
Proof.
  split.
  - rewrite (proj1 (proj2 (proj2 (score_tag_spec "S")))
               [("m", mkEntry [] [] [] (Some ["S"; "S"; "N"]) (Some ["S"; "N"; "S"]))]
               [(["S"; "S"; "N"], ["S"; "N"; "S"])]).
    + reflexivity.
    + repeat constructor.
  - destruct (proj1 (proj2 (proj2 (proj2 (score_tag_spec "S")))) 2 1 0)
      as (p & r & f1 & E & Hp & Hr & _); try lia.
    exists p, r, f1. split; [exact E |]. split.
    + rewrite Hp. reflexivity.
    + rewrite Hr. reflexivity.
Defined.

Lemma sum_bool_same_zip (m s : list string) :
  sum_bool same (zip m s) = Z.of_nat (agree_count m s).
Proof.
  revert s. induction m as [| x m IH]; intros [| y s]; try reflexivity.
  cbn [zip agree_count]. rewrite sum_bool_cons, IH. unfold same.
  destruct (String.eqb_spec x y), (string_dec x y); try contradiction; lia.
Qed.

(** Only the positions both sequences have are compared. *)
Lemma agree_count_truncate (m s : list string) :
  agree_count m s = agree_count (firstn (List.length s) m) (firstn (List.length m) s).
Proof.
  revert s. induction m as [| x m IH]; intros [| y s]; try reflexivity.
  cbn [List.length firstn agree_count]. now rewrite <- IH.
Qed.

Lemma agree_count_le (m s : list string) :
  (agree_count m s <= Nat.min (List.length m) (List.length s))%nat.
Proof.
  revert s. induction m as [| x m IH]; intros [| y s]; simpl; try lia.
  specialize (IH s). destruct (string_dec x y); lia.
Qed.

(** Sequences of different lengths raise no length error: on the
    demonstration workbook, annotated identically by the three raters, with
    a window of eight lines on a movie of six, the run completes and
    reports an accuracy of 100%. *)
Lemma evaluate_accepts_length_mismatch :
  exists ann e rep,
    decode_loop demo_workbook demo_workbook demo_workbook
      (movies_of demo_workbook) [] = Ok ann /\
    align_loop demo_folder [mkWindow "m" 0 8] (majority_loop ann) = Ok [("m", e)] /\
    option_map (@List.length string) (maj e) = Some 6%nat /\
    option_map (@List.length string) (sys e) = Some 8%nat /\
    evaluate stat_one stat_one demo_workbook demo_workbook demo_workbook
      demo_folder [mkWindow "m" 0 8] = Ok rep /\
    accuracy_by_movie rep = [("m", 100%Q)].
Proof.
  eexists. eexists. eexists.
  split; [vm_compute; reflexivity |].
  split; [vm_compute; reflexivity |].
  split; [reflexivity |].
  split; [reflexivity |].
  split; [vm_compute; reflexivity |].
  reflexivity.
Qed.

(** C3, as the code has it. The lengths of the consensus and system
    sequences are never compared: for a movie with at least one consensus
    tag the accuracy is defined whatever the two lengths; it counts the
    equal positions among those both sequences have, so the tail of the
    longer one is dropped, and divides by the consensus length. *)
Theorem accuracy_truncates (m s : list string) :
  m <> [] ->
  accuracy m s =
    Ok (Qred (inject_Z (100 * Z.of_nat (agree_count m s))
              / inject_Z (Z.of_nat (List.length m)))) /\
  agree_count m s =
    agree_count (firstn (List.length s) m) (firstn (List.length m) s).
Proof.
  intros Hm. split; [| apply agree_count_truncate].
  unfold accuracy. rewrite sum_bool_same_zip. apply int_div_ok.
  destruct m; [contradiction | simpl; lia].
Qed.

Lemma accuracy_truncates_witness :
  accuracy ["S"; "N"; "O"] ["S"; "C"] = Ok (100 # 3)%Q.
Proof.
  rewrite (proj1 (accuracy_truncates ["S"; "N"; "O"] ["S"; "C"] ltac:(discriminate))).
  reflexivity.
Defined.

(** C9. When a tag has no true positive but false positives and false
    negatives, precision and recall are both defined and equal to 0, the
    division by [p + r] raises, and the scorer fails at that tag: no score
    is produced for it nor for the tags after it. *)
Theorem f1_zero_division (ann : dict entry) (t : string) (fp fn : Z) :
  tag_counts t ann (0, 0, 0) = Ok (0, fp, fn) ->
  0 < fp -> 0 < fn ->
  int_div 0 (0 + fp) = Ok 0%Q /\
  int_div 0 (0 + fn) = Ok 0%Q /\
  float_div (2 * 0 * 0)%Q (0 + 0)%Q = Raise ZeroDivisionError /\
  score_tag ann t = Raise ZeroDivisionError /\
  (forall tags, In t tags -> is_ok (score_loop ann tags) = false).
Proof.
  intros Hc Hfp Hfn.
  assert (Hz : forall b, 0 < b -> int_div 0 (0 + b) = Ok 0%Q).
  { intros b Hb. rewrite int_div_ok by lia. reflexivity. }
  assert (Hs : score_tag ann t = Raise ZeroDivisionError).
  { unfold score_tag. rewrite Hc. cbn [bind]. unfold prf.
    rewrite !Hz by assumption. reflexivity. }
  split; [now apply Hz |]. split; [now apply Hz |].
  split; [reflexivity |]. split; [exact Hs |].
  intros tags. induction tags as [| t' tags IH]; [intros [] |].
  intros [-> | Hin]; cbn [score_loop].
  - rewrite Hs. reflexivity.
  - destruct (score_tag ann t'); [| reflexivity]. cbn [bind].
    specialize (IH Hin). destruct (score_loop ann tags); [discriminate | reflexivity].
Qed.

Lemma f1_zero_division_witness :
  score_tag [("m", mkEntry [] [] [] (Some ["S"; "N"]) (Some ["N"; "S"]))] "S"
  = Raise ZeroDivisionError.
Proof.
  apply (f1_zero_division
           [("m", mkEntry [] [] [] (Some ["S"; "N"]) (Some ["N"; "S"]))] "S" 1 1);
    [reflexivity | lia | lia].
Defined.

(* ================================================================== *)
(** * Dictionaries and the decoding loop *)
(* ================================================================== *)

Lemma get_set_same {V : Type} (d : dict V) (k : string) (v : V) :
  get (set d k v) k = Ok v.
Proof.
  induction d as [| [k' v'] d IH]; cbn [set get].
  - now rewrite String.eqb_refl.
  - destruct (String.eqb_spec k' k) as [-> | Hne]; cbn [get].
    + now rewrite String.eqb_refl.
    + destruct (String.eqb_spec k' k); [contradiction | exact IH].
Qed.

Lemma get_set_other {V : Type} (d : dict V) (k k0 : string) (v : V) :
  k0 <> k -> get (set d k v) k0 = get d k0.
Proof.
  intros Hne. induction d as [| [k' v'] d IH]; cbn [set get].
  - destruct (String.eqb_spec k k0); [congruence | reflexivity].
  - destruct (String.eqb_spec k' k) as [-> | Hne']; cbn [get].
    + destruct (String.eqb_spec k k0); [congruence | reflexivity].
    + now rewrite IH.
Qed.

Lemma keys_set_new {V : Type} (d : dict V) (k : string) (v : V) :
  ~ In k (keys d) -> keys (set d k v) = (keys d ++ [k])%list.
Proof.
  unfold keys. induction d as [| [k' v'] d IH]; intros Hnin; cbn [set map app].
  - reflexivity.
  - cbn [map fst In] in Hnin.
    destruct (String.eqb_spec k' k) as [-> | Hne]; [tauto |].
    cbn [map fst]. rewrite IH by tauto. reflexivity.
Qed.

Lemma get_in_keys {V : Type} (d : dict V) (k : string) :
  In k (keys d) -> exists v, get d k = Ok v.
Proof.
  unfold keys. induction d as [| [k' v'] d IH]; cbn [map fst In get]; [tauto |].
  intros [-> | Hin].
  - rewrite String.eqb_refl. eauto.
  - destruct (String.eqb k' k); eauto.
Qed.

Lemma get_ok_in_keys {V : Type} (d : dict V) (k : string) (v : V) :
  get d k = Ok v -> In k (keys d).
Proof.
  unfold keys. induction d as [| [k' v'] d IH]; cbn [map fst In get]; [discriminate |].
  destruct (String.eqb_spec k' k) as [-> | Hne]; [tauto | intros H; right; now apply IH].
Qed.

(** The dictionary built by the decoding loop: every movie of the loop is
    bound to its decoded entry, the other keys are untouched. *)
Lemma decode_loop_get (wb1 wb2 wb3 : workbook) (movies : list string) :
  forall ann0 ann,
    decode_loop wb1 wb2 wb3 movies ann0 = Ok ann ->
    (forall m, In m movies ->
       exists e, decode_movie wb1 wb2 wb3 m = Ok e /\ get ann m = Ok e) /\
    (forall m, ~ In m movies -> get ann m = get ann0 m).
Proof.
  induction movies as [| movie rest IH]; intros ann0 ann H; cbn [decode_loop] in H.
  - inversion H; subst. split; [intros m [] | reflexivity].
  - destruct (decode_movie wb1 wb2 wb3 movie) as [e |] eqn:He; [| discriminate].
    cbn [bind] in H. destruct (IH _ _ H) as [IH1 IH2]. split.
    + intros m [<- | Hin].
      * destruct (in_dec string_dec movie rest) as [Hr | Hr].
        -- destruct (IH1 _ Hr) as (e' & He' & Hg). exists e'. now split.
        -- exists e. split; [exact He |]. rewrite (IH2 _ Hr). apply get_set_same.
      * now apply IH1.
    + intros m Hnin. cbn [In] in Hnin.
      rewrite IH2 by tauto. apply get_set_other. intros ->. tauto.
Qed.

(** With distinct movies the keys of [ann] are the movies, in their order. *)
Lemma decode_loop_keys (wb1 wb2 wb3 : workbook) (movies : list string) :
  forall ann0 ann,
    NoDup (keys ann0 ++ movies)%list ->
    decode_loop wb1 wb2 wb3 movies ann0 = Ok ann ->
    keys ann = (keys ann0 ++ movies)%list.
Proof.
  induction movies as [| movie rest IH]; intros ann0 ann Hnd H; cbn [decode_loop] in H.
  - inversion H; subst. now rewrite app_nil_r.
  - destruct (decode_movie wb1 wb2 wb3 movie) as [e |]; [| discriminate].
    cbn [bind] in H.
    assert (Hnin : ~ In movie (keys ann0)).
    { intros Hin. apply NoDup_remove_2 in Hnd. apply Hnd.
      apply in_or_app. now left. }
    apply IH in H.
    + rewrite H, keys_set_new by exact Hnin. now rewrite <- app_assoc.
    + rewrite keys_set_new by exact Hnin. now rewrite <- app_assoc.
Qed.

(* ================================================================== *)
(** * Agreement engine: the items x categories table *)
(* ================================================================== *)

Lemma update_nth_length {A : Type} (l : list A) (k : nat) (f : A -> A) :
  List.length (update_nth l k f) = List.length l.
Proof.
  revert k. induction l as [| x l IH]; intros [| k]; simpl; auto.
Qed.

Lemma update_nth_app {A : Type} (l1 l2 : list A) (x : A) (f : A -> A) :
  update_nth (l1 ++ x :: l2) (List.length l1) f = (l1 ++ f x :: l2)%list.
Proof.
  induction l1 as [| y l1 IH]; simpl; [reflexivity | now rewrite IH].
Qed.

Lemma map_update_nth {A B : Type} (h : A -> B) (g : A -> A) (g' : B -> B)
  (l : list A) (k : nat) :
  (forall x, nth_error l k = Some x -> h (g x) = g' (h x)) ->
  map h (update_nth l k g) = update_nth (map h l) k g'.
Proof.
  revert k. induction l as [| x l IH]; intros [| k] H; simpl; try reflexivity.
  - f_equal. now apply H.
  - f_equal. apply IH. intros y Hy. now apply H.
Qed.

Lemma Forall_update_nth {A : Type} (P : A -> Prop) (g : A -> A) (l : list A) (k : nat) :
  (forall x, P x -> P (g x)) -> Forall P l -> Forall P (update_nth l k g).
Proof.
  intros Hg. revert k. induction l as [| x l IH]; intros [| k] H; simpl;
    try constructor; inversion H; subst; auto.
Qed.

Lemma row_sum_incr (r : list Z) (k : nat) :
  (k < List.length r)%nat ->
  row_sum (update_nth r k (fun c => c + 1)) = row_sum r + 1.
Proof.
  revert k. induction r as [| x r IH]; intros [| k] H; simpl in *; try lia.
  rewrite IH by lia. lia.
Qed.

Lemma index_bounds (a : string) (l : list string) (j : Z) :
  index a l = Ok j -> 0 <= j < Z.of_nat (List.length l).
Proof.
  revert j. induction l as [| y l IH]; intros j H; cbn [index] in H; [discriminate |].
  destruct (String.eqb y a).
  - inversion H; subst. simpl List.length. lia.
  - destruct (index a l) as [k |]; [| discriminate]. cbn [bind] in H.
    inversion H; subst. specialize (IH k eq_refl). simpl List.length. lia.
Qed.

Lemma index_in (a : string) (l : list string) :
  In a l -> exists j, index a l = Ok j.
Proof.
  induction l as [| y l IH]; [intros [] |]. intros Hin. cbn [index].
  destruct (String.eqb_spec y a) as [-> | Hne]; [eauto |].
  destruct Hin as [-> | Hin]; [contradiction |].
  destruct (IH Hin) as [j ->]. cbn [bind]. eauto.
Qed.

Lemma np_index_nonneg (n k : Z) (m : nat) :
  0 <= k -> np_index n k = Ok m -> m = Z.to_nat k /\ k < n.
Proof.
  intros Hk. unfold np_index. destruct (Z.ltb_spec k 0); [lia |].
  destruct (Z.leb_spec 0 k), (Z.ltb_spec k n); cbn [andb]; try discriminate.
  intros E. inversion E. split; [reflexivity | assumption].
Qed.

Lemma np_index_in_range (n k : Z) :
  0 <= k < n -> np_index n k = Ok (Z.to_nat k).
Proof.
  intros Hk. unfold np_index. destruct (Z.ltb_spec k 0); [lia |].
  destruct (Z.leb_spec 0 k), (Z.ltb_spec k n); cbn [andb]; try lia. reflexivity.
Qed.

(** One vote adds one to the sum of the row of the item and leaves the
    other sums as they are. *)
Lemma vote_sums (t t' : table) (i : Z) (a : string) :
  0 <= i -> seven_wide t -> vote t i a = Ok t' ->
  seven_wide t' /\
  i < Z.of_nat (List.length t) /\
  map row_sum t' = update_nth (map row_sum t) (Z.to_nat i) (fun c => c + 1).
Proof.
  intros Hi Hw H. unfold vote in H.
  destruct (index a CLASSES) as [j |] eqn:Hj; [| discriminate]. cbn [bind] in H.
  apply index_bounds in Hj. change (Z.of_nat (List.length CLASSES)) with 7 in Hj.
  unfold table_incr in H.
  destruct (np_index (Z.of_nat (List.length t)) i) as [ki |] eqn:Hki; [| discriminate].
  cbn [bind] in H. rewrite (np_index_in_range 7 j Hj) in H. cbn [bind] in H.
  inversion H; subst t'. clear H.
  apply np_index_nonneg in Hki; [| exact Hi]. destruct Hki as [-> Hlt].
  split; [| split].
  - apply Forall_update_nth; [| exact Hw].
    intros r Hr. now rewrite update_nth_length.
  - exact Hlt.
  - apply map_update_nth. intros r Hr. apply row_sum_incr.
    unfold seven_wide in Hw. rewrite Forall_forall in Hw.
    rewrite (Hw r (nth_error_In _ _ Hr)). lia.
Qed.

Lemma sums_after_vote3 (filled rows : nat) :
  (filled < rows)%nat ->
  update_nth
    (update_nth
       (update_nth (sums_after filled rows) filled (fun c => c + 1))
       filled (fun c => c + 1))
    filled (fun c => c + 1)
  = sums_after (S filled) rows.
Proof.
  intros Hlt. unfold sums_after.
  replace (rows - filled)%nat with (S (rows - S filled)) by lia.
  cbn [repeat].
  pose proof (update_nth_app (repeat 3 filled)) as U.
  rewrite repeat_length in U. rewrite !U.
  change (0 + 1 + 1 + 1) with 3. rewrite repeat_cons, <- app_assoc. reflexivity.
Qed.

Lemma sums_after_length (filled rows : nat) :
  List.length (sums_after filled rows) = Nat.max filled rows.
Proof.
  unfold sums_after. rewrite length_app, !repeat_length. lia.
Qed.

(** The counters of a line do not depend on the votes. *)
Lemma agree_line_shape (st : agree_state) (a1 a2 a3 : string) :
  exists c1 c2 c3 agree,
    c1 + c2 + c3 = n1 st + n2 st + n3 st + 1 /\
    agree_line st (a1, a2, a3) =
      (t1 <- vote (item_x_class_table st) (i_item st) a1 ;;
       t2 <- vote t1 (i_item st) a2 ;;
       t3 <- vote t2 (i_item st) a3 ;;
       Ok (mkAgree (n_rater_pairs st + 3) agree t3 (i_item st + 1) c1 c2 c3)).
Proof.
  unfold agree_line.
  destruct (n_distinct a1 a2 a3 =? 1); [| destruct (n_distinct a1 a2 a3 =? 2)];
    do 4 eexists; (split; [| reflexivity]); lia.
Qed.

(** One line: the row of the item receives three votes, the item counter
    moves on by one, three pair slots are counted, and one of the three
    line counters of the movie grows by one. *)
Lemma agree_line_inv (rows : nat) (st st' : agree_state)
  (a : string * string * string) :
  agree_inv rows st -> agree_line st a = Ok st' ->
  agree_inv rows st' /\
  i_item st' = i_item st + 1 /\
  i_item st' <= Z.of_nat rows /\
  n_rater_pairs st' = n_rater_pairs st + 3 /\
  n1 st' + n2 st' + n3 st' = n1 st + n2 st + n3 st + 1.
Proof.
  intros (Hi & Hw & Hs) H. destruct a as [[a1 a2] a3].
  destruct (agree_line_shape st a1 a2 a3) as (c1 & c2 & c3 & agree & Hc & E).
  rewrite E in H. clear E.
  destruct (vote (item_x_class_table st) (i_item st) a1) as [t1 |] eqn:V1;
    [| discriminate]. cbn [bind] in H.
  destruct (vote t1 (i_item st) a2) as [t2 |] eqn:V2; [| discriminate].
  cbn [bind] in H.
  destruct (vote t2 (i_item st) a3) as [t3 |] eqn:V3; [| discriminate].
  cbn [bind] in H.
  destruct (vote_sums _ _ _ _ Hi Hw V1) as (Hw1 & Hlt & Hs1).
  destruct (vote_sums _ _ _ _ Hi Hw1 V2) as (Hw2 & _ & Hs2).
  destruct (vote_sums _ _ _ _ Hi Hw2 V3) as (Hw3 & _ & Hs3).
  assert (Hfill : (Z.to_nat (i_item st) < rows)%nat).
  { assert (L : List.length (map row_sum (item_x_class_table st))
                = Nat.max (Z.to_nat (i_item st)) rows)
      by (rewrite Hs; apply sums_after_length).
    rewrite length_map in L. lia. }
  assert (Hs' : map row_sum t3 = sums_after (Z.to_nat (i_item st + 1)) rows).
  { rewrite Hs3, Hs2, Hs1, Hs.
    replace (Z.to_nat (i_item st + 1)) with (S (Z.to_nat (i_item st))) by lia.
    now apply sums_after_vote3. }
  inversion H; subst st'; clear H.
  cbn [i_item item_x_class_table n_rater_pairs n1 n2 n3].
  split.
  - unfold agree_inv. cbn [i_item item_x_class_table].
    split; [lia | split; assumption].
  - repeat split; lia.
Qed.

Lemma agree_lines_inv (rows : nat) (l : list (string * string * string)) :
  forall st st',
    agree_inv rows st -> agree_lines st l = Ok st' ->
    agree_inv rows st' /\
    i_item st' = i_item st + Z.of_nat (List.length l) /\
    i_item st' <= Z.max (i_item st) (Z.of_nat rows) /\
    n_rater_pairs st' = n_rater_pairs st + 3 * Z.of_nat (List.length l) /\
    n1 st' + n2 st' + n3 st' = n1 st + n2 st + n3 st + Z.of_nat (List.length l).
Proof.
  induction l as [| a l IH]; intros st st' Hinv H; cbn [agree_lines] in H.
  - inversion H; subst. simpl List.length. repeat split; try apply Hinv; lia.
  - destruct (agree_line st a) as [st1 |] eqn:E; [| discriminate]. cbn [bind] in H.
    destruct (agree_line_inv rows _ _ _ Hinv E) as (Hinv1 & Hi1 & Hle1 & Hp1 & Hn1).
    destruct (IH _ _ Hinv1 H) as (Hinv' & Hi' & Hle' & Hp' & Hn').
    simpl List.length. split; [exact Hinv' |]. repeat split; lia.
Qed.

Lemma agree_movie_inv (rows : nat) (ann : dict entry) (st st' : agree_state)
  (movie : string) (line : agree_row) (e : entry) :
  agree_inv rows st -> get ann movie = Ok e ->
  agree_movie ann st movie = Ok (st', line) ->
  agree_inv rows st' /\
  i_item st' = i_item st + Z.of_nat (lines_of e) /\
  i_item st' <= Z.max (i_item st) (Z.of_nat rows) /\
  n_rater_pairs st' = n_rater_pairs st + 3 * Z.of_nat (lines_of e) /\
  (0 < lines_of e)%nat /\
  fst (fst (fst line)) = movie.
Proof.
  intros Hinv He H. unfold agree_movie in H. rewrite He in H. cbn [bind] in H.
  match type of H with
  | context [agree_lines ?s0 ?l] =>
      destruct (agree_lines s0 l) as [st1 |] eqn:E; [| discriminate];
      assert (Hinv0 : agree_inv rows s0) by exact Hinv;
      destruct (agree_lines_inv rows l s0 st1 Hinv0 E) as (Hinv1 & Hi & Hle & Hp & Hn)
  end.
  cbn [bind] in H. cbn [i_item n_rater_pairs n1 n2 n3] in Hi, Hle, Hp, Hn.
  fold (lines_of e) in Hi, Hp, Hn.
  unfold int_div in H.
  destruct (Z.eqb_spec (n1 st1 + n2 st1 + n3 st1) 0) as [Hz | Hnz]; [discriminate |].
  cbn [bind] in H. inversion H; subst st' line. clear H.
  split; [exact Hinv1 |]. repeat split; try assumption; try lia. 
Qed.

Lemma agree_movies_inv (rows : nat) (ann : dict entry) (movies : list string) :
  forall st st' lines,
    agree_inv rows st ->
    agree_movies ann st movies = Ok (st', lines) ->
    agree_inv rows st' /\
    i_item st' = i_item st + Z.of_nat (processed_lines ann movies) /\
    i_item st' <= Z.max (i_item st) (Z.of_nat rows) /\
    n_rater_pairs st' = n_rater_pairs st + 3 * Z.of_nat (processed_lines ann movies) /\
    (forall m e, In m movies -> get ann m = Ok e -> (0 < lines_of e)%nat) /\
    map (fun line => fst (fst (fst line))) lines = movies.
Proof.
  induction movies as [| movie rest IH]; intros st st' lines Hinv H;
    cbn [agree_movies] in H.
  - inversion H; subst. cbn [processed_lines]. split; [exact Hinv |].
    repeat split; try lia. intros m e [].
  - destruct (agree_movie ann st movie) as [[st1 line] |] eqn:E; [| discriminate].
    cbn [bind] in H.
    destruct (agree_movies ann st1 rest) as [[st2 lines'] |] eqn:E2; [| discriminate].
    cbn [bind] in H. inversion H; subst st' lines. clear H.
    assert (Hget : exists e, get ann movie = Ok e).
    { unfold agree_movie in E. destruct (get ann movie); [eauto | discriminate]. }
    destruct Hget as [e He].
    destruct (agree_movie_inv rows _ _ _ _ _ _ Hinv He E)
      as (Hinv1 & Hi1 & Hle1 & Hp1 & Hpos & Hname).
    destruct (IH _ _ _ Hinv1 E2) as (Hinv2 & Hi2 & Hle2 & Hp2 & Hall & Hnames).
    cbn [processed_lines]. rewrite He.
    split; [exact Hinv2 |]. split; [lia |]. split; [lia |]. split; [lia |]. split.
    + intros m e' [<- | Hin] Hg.
      * rewrite He in Hg. inversion Hg; subst. exact Hpos.
      * now apply (Hall m).
    + cbn [map]. now rewrite Hname, Hnames.
Qed.

Lemma row_sum_zero_row :
  row_sum (repeat 0 7%nat) = 0.
Proof. reflexivity. Qed.

Lemma agree_init_inv (rows : Z) :
  agree_inv (Z.to_nat rows) (agree_init rows).
Proof.
  unfold agree_inv, agree_init, zeros. cbn [i_item item_x_class_table].
  split; [lia |]. split.
  - unfold seven_wide. apply Forall_forall. intros r Hr.
    apply repeat_spec in Hr. subst r. reflexivity.
  - rewrite map_repeat, row_sum_zero_row. unfold sums_after.
    change (Z.to_nat 0) with 0%nat. now rewrite Nat.sub_0_r.
Qed.

Lemma zip3_length {A B C : Type} (l1 : list A) (l2 : list B) (l3 : list C) :
  List.length (zip3 l1 l2 l3) =
  Nat.min (List.length l1) (Nat.min (List.length l2) (List.length l3)).
Proof.
  revert l2 l3. induction l1 as [| a l1 IH]; intros [| b l2] [| c l3];
    cbn [zip3 List.length]; try reflexivity; try lia.
  rewrite IH. lia.
Qed.

Lemma decode_movie_lines (wb1 wb2 wb3 : workbook) (m : string) (e : entry) :
  decode_movie wb1 wb2 wb3 m = Ok e ->
  exists df1 df2 df3,
    get wb1 m = Ok df1 /\ get wb2 m = Ok df2 /\ get wb3 m = Ok df3 /\
    e = mkEntry (decode_sheet df1) (decode_sheet df2) (decode_sheet df3) None None /\
    lines_of e =
    Nat.min (List.length df1) (Nat.min (List.length df2) (List.length df3)).
Proof.
  unfold decode_movie. intros H.
  destruct (get wb1 m) as [df1 |]; [| discriminate]. cbn [bind] in H.
  destruct (get wb2 m) as [df2 |]; [| discriminate]. cbn [bind] in H.
  destruct (get wb3 m) as [df3 |]; [| discriminate]. cbn [bind] in H.
  inversion H; subst e. exists df1, df2, df3. repeat split.
  unfold lines_of. cbn [ann1 ann2 ann3]. rewrite zip3_length.
  unfold decode_sheet. now rewrite !length_map.
Qed.

(** When annotators 2 and 3 cover the sheets of annotator 1, the loops visit
    as many lines as the table has rows. *)
Lemma processed_lines_total (wb1 wb2 wb3 : workbook) (ann : dict entry)
  (movies : list string) :
  forall rows,
    (forall m, In m movies ->
       exists e, decode_movie wb1 wb2 wb3 m = Ok e /\ get ann m = Ok e) ->
    (forall m df1 df2 df3, In m movies ->
       get wb1 m = Ok df1 -> get wb2 m = Ok df2 -> get wb3 m = Ok df3 ->
       (List.length df1 <= List.length df2 /\ List.length df1 <= List.length df3)%nat) ->
    total_rows wb1 movies = Ok rows ->
    Z.of_nat (processed_lines ann movies) = rows.
Proof.
  induction movies as [| movie rest IH]; intros rows Hdec Hcov Ht;
    cbn [total_rows processed_lines] in *.
  - now inversion Ht.
  - destruct (Hdec movie (or_introl eq_refl)) as (e & He & Hg). rewrite Hg.
    unfold decode_movie in He.
    destruct (get wb1 movie) as [df1 |] eqn:G1; [| discriminate]. cbn [bind] in He, Ht.
    destruct (get wb2 movie) as [df2 |] eqn:G2; [| discriminate]. cbn [bind] in He.
    destruct (get wb3 movie) as [df3 |] eqn:G3; [| discriminate]. cbn [bind] in He.
    inversion He; subst e. clear He.
    destruct (total_rows wb1 rest) as [t |] eqn:T; [| discriminate]. cbn [bind] in Ht.
    inversion Ht; subst rows. clear Ht.
    rewrite Nat2Z.inj_add, (IH t); auto.
    + unfold lines_of. cbn [ann1 ann2 ann3]. rewrite zip3_length.
      unfold decode_sheet. rewrite !length_map.
      destruct (Hcov movie df1 df2 df3 (or_introl eq_refl) G1 G2 G3). lia.
    + intros m Hin. apply Hdec. now right.
    + intros m d1 d2 d3 Hin. apply Hcov. now right.
Qed.

Lemma total_rows_nonneg (wb1 : workbook) (movies : list string) (rows : Z) :
  total_rows wb1 movies = Ok rows -> 0 <= rows.
Proof.
  revert rows. induction movies as [| movie rest IH]; intros rows H;
    cbn [total_rows] in H.
  - inversion H. lia.
  - destruct (get wb1 movie); [| discriminate]. cbn [bind] in H.
    destruct (total_rows wb1 rest) as [t |]; [| discriminate]. cbn [bind] in H.
    inversion H. specialize (IH t eq_refl). lia.
Qed.

Lemma map_eq_repeat_Forall {A B : Type} (h : A -> B) (b : B) (l : list A) (n : nat) :
  map h l = repeat b n -> Forall (fun x => h x = b) l.
Proof.
  intros H. apply Forall_forall. intros x Hx.
  apply (in_map h) in Hx. rewrite H in Hx. now apply repeat_spec in Hx.
Qed.

(** ** The loops are defined on decoded annotations *)

Lemma vote_defined (t : table) (i : Z) (a : string) :
  In a CLASSES -> 0 <= i < Z.of_nat (List.length t) ->
  exists t', vote t i a = Ok t' /\ List.length t' = List.length t.
Proof.
  intros Ha Hi. unfold vote. destruct (index_in a CLASSES Ha) as [j Hj].
  rewrite Hj. cbn [bind]. apply index_bounds in Hj.
  change (Z.of_nat (List.length CLASSES)) with 7 in Hj.
  unfold table_incr. rewrite (np_index_in_range _ i Hi). cbn [bind].
  rewrite (np_index_in_range 7 j Hj). cbn [bind].
  eexists. split; [reflexivity | apply update_nth_length].
Qed.

Lemma agree_inv_table_length (rows : nat) (st : agree_state) :
  agree_inv rows st -> i_item st <= Z.of_nat rows ->
  List.length (item_x_class_table st) = rows.
Proof.
  intros (Hi & _ & Hs) Hle.
  rewrite <- (length_map row_sum), Hs, sums_after_length. lia.
Qed.

Lemma agree_line_defined (rows : nat) (st : agree_state)
  (a : string * string * string) :
  agree_inv rows st -> i_item st < Z.of_nat rows -> valid_line a ->
  exists st', agree_line st a = Ok st'.
Proof.
  intros Hinv Hlt (H1 & H2 & H3). destruct a as [[a1 a2] a3]. cbn [fst snd] in *.
  pose proof (agree_inv_table_length rows st Hinv ltac:(lia)) as Hlen.
  destruct Hinv as (Hi & _ & _).
  destruct (agree_line_shape st a1 a2 a3) as (c1 & c2 & c3 & agree & _ & E).
  rewrite E.
  destruct (vote_defined (item_x_class_table st) (i_item st) a1 H1 ltac:(lia))
    as (t1 & -> & L1). cbn [bind].
  destruct (vote_defined t1 (i_item st) a2 H2 ltac:(lia)) as (t2 & -> & L2).
  cbn [bind].
  destruct (vote_defined t2 (i_item st) a3 H3 ltac:(lia)) as (t3 & -> & L3).
  cbn [bind]. eauto.
Qed.

Lemma agree_lines_defined (rows : nat) (l : list (string * string * string)) :
  forall st,
    agree_inv rows st ->
    i_item st + Z.of_nat (List.length l) <= Z.of_nat rows ->
    Forall valid_line l ->
    exists st', agree_lines st l = Ok st'.
Proof.
  induction l as [| a l IH]; intros st Hinv Hcap Hval; cbn [agree_lines].
  - eauto.
  - inversion Hval as [| ? ? Ha Hl]; subst. simpl List.length in Hcap.
    destruct (agree_line_defined rows st a Hinv ltac:(lia) Ha) as [st1 E].
    rewrite E. cbn [bind].
    destruct (agree_line_inv rows _ _ _ Hinv E) as (Hinv1 & Hi1 & _).
    apply IH; [exact Hinv1 | lia | exact Hl].
Qed.

Lemma agree_movie_defined (rows : nat) (ann : dict entry) (st : agree_state)
  (movie : string) (e : entry) :
  agree_inv rows st -> get ann movie = Ok e ->
  (0 < lines_of e)%nat ->
  i_item st + Z.of_nat (lines_of e) <= Z.of_nat rows ->
  Forall valid_line (zip3 (ann1 e) (ann2 e) (ann3 e)) ->
  exists st' line, agree_movie ann st movie = Ok (st', line).
Proof.
  intros Hinv He Hpos Hcap Hval. unfold agree_movie. rewrite He. cbn [bind].
  match goal with
  | |- context [agree_lines ?s0 ?l] =>
      assert (Hinv0 : agree_inv rows s0) by exact Hinv;
      destruct (agree_lines_defined rows l s0 Hinv0 Hcap Hval) as [st1 E];
      destruct (agree_lines_inv rows l s0 st1 Hinv0 E) as (_ & _ & _ & _ & Hn)
  end.
  rewrite E. cbn [bind]. cbn [n1 n2 n3] in Hn. fold (lines_of e) in Hn.
  rewrite int_div_ok by lia. cbn [bind]. eauto.
Qed.

Lemma agree_movies_defined (rows : nat) (ann : dict entry) (movies : list string) :
  forall st,
    agree_inv rows st ->
    i_item st + Z.of_nat (processed_lines ann movies) <= Z.of_nat rows ->
    (forall m, In m movies ->
       exists e, get ann m = Ok e /\ (0 < lines_of e)%nat /\
                 Forall valid_line (zip3 (ann1 e) (ann2 e) (ann3 e))) ->
    exists st' lines, agree_movies ann st movies = Ok (st', lines).
Proof.
  induction movies as [| movie rest IH]; intros st Hinv Hcap Hall;
    cbn [agree_movies].
  - eauto.
  - destruct (Hall movie (or_introl eq_refl)) as (e & He & Hpos & Hval).
    cbn [processed_lines] in Hcap. rewrite He in Hcap.
    destruct (agree_movie_defined rows ann st movie e Hinv He Hpos ltac:(lia) Hval)
      as (st1 & line & E).
    rewrite E. cbn [bind].
    destruct (agree_movie_inv rows _ _ _ _ _ _ Hinv He E) as (Hinv1 & Hi1 & _).
    destruct (IH st1 Hinv1 ltac:(lia)) as (st2 & lines & E2).
    + intros m Hm. apply Hall. now right.
    + rewrite E2. cbn [bind]. eauto.
Qed.

Lemma decode_sheet_classes (df : sheet) :
  Forall (fun t => In t CLASSES) (decode_sheet df).
Proof.
  unfold decode_sheet. apply Forall_map. apply Forall_forall. intros r _.
  destruct (decode_row_class r) as [-> | H]; unfold CLASSES, TAGS in *; simpl in *; tauto.
Qed.

Lemma zip3_valid (l1 l2 l3 : list string) :
  Forall (fun t => In t CLASSES) l1 ->
  Forall (fun t => In t CLASSES) l2 ->
  Forall (fun t => In t CLASSES) l3 ->
  Forall valid_line (zip3 l1 l2 l3).
Proof.
  intros H1. revert l2 l3.
  induction H1 as [| a l1 Ha H1 IH]; intros l2 l3 H2 H3; [constructor |].
  destruct H2 as [| b l2 Hb H2]; [constructor |].
  destruct H3 as [| c l3 Hc H3]; [constructor |].
  cbn [zip3]. constructor; [now repeat split | now apply IH].
Qed.

(** The loops visit at most as many lines as the table has rows. *)
Lemma processed_lines_le (wb1 wb2 wb3 : workbook) (ann : dict entry)
  (movies : list string) :
  forall rows,
    (forall m, In m movies ->
       exists e, decode_movie wb1 wb2 wb3 m = Ok e /\ get ann m = Ok e) ->
    total_rows wb1 movies = Ok rows ->
    Z.of_nat (processed_lines ann movies) <= rows.
Proof.
  induction movies as [| movie rest IH]; intros rows Hdec Ht;
    cbn [total_rows processed_lines] in *.
  - inversion Ht. lia.
  - destruct (Hdec movie (or_introl eq_refl)) as (e & He & Hg). rewrite Hg.
    destruct (decode_movie_lines _ _ _ _ _ He) as (d1 & d2 & d3 & G1 & _ & _ & _ & L).
    rewrite G1 in Ht. cbn [bind] in Ht.
    destruct (total_rows wb1 rest) as [t |] eqn:T; [| discriminate]. cbn [bind] in Ht.
    inversion Ht; subst rows. clear Ht.
    assert (Z.of_nat (processed_lines ann rest) <= t).
    { apply IH; [| reflexivity]. intros m Hm. apply Hdec. now right. }
    lia.
Qed.

(** On the decoded annotations the agreement loops raise neither
    [ValueError] nor [IndexError]: they complete as soon as every movie has
    a line. *)
Lemma agree_movies_decoded (wb1 wb2 wb3 : workbook) (ann : dict entry) (rows : Z) :
  decode_loop wb1 wb2 wb3 (movies_of wb1) [] = Ok ann ->
  total_rows wb1 (movies_of wb1) = Ok rows ->
  (forall m e, In m (movies_of wb1) -> get ann m = Ok e -> (0 < lines_of e)%nat) ->
  exists st lines,
    agree_movies ann (agree_init rows) (movies_of wb1) = Ok (st, lines).
Proof.
  intros Hdec Hrows Hpos.
  pose proof (total_rows_nonneg _ _ _ Hrows) as Hnn.
  pose proof (proj1 (decode_loop_get _ _ _ _ _ _ Hdec)) as Hget.
  apply (agree_movies_defined (Z.to_nat rows)).
  - apply agree_init_inv.
  - cbn [agree_init i_item].
    pose proof (processed_lines_le wb1 wb2 wb3 ann _ rows Hget Hrows). lia.
  - intros m Hm. destruct (Hget m Hm) as (e & He & Hg).
    exists e. split; [exact Hg |]. split; [now apply (Hpos m) |].
    destruct (decode_movie_lines _ _ _ _ _ He) as (d1 & d2 & d3 & _ & _ & _ & -> & _).
    cbn [ann1 ann2 ann3]. apply zip3_valid; apply decode_sheet_classes.
Qed.

(** Not every row of the table sums to 3 on every input: when annotator 2
    has one row for a movie of two rows, the table has two rows, one line is
    visited, and the second row stays at zero. *)
Lemma table_row_left_at_zero :
  exists ann st lines,
    decode_loop two_line_workbook one_line_workbook two_line_workbook
      (movies_of two_line_workbook) [] = Ok ann /\
    total_rows two_line_workbook (movies_of two_line_workbook) = Ok 2 /\
    agree_movies ann (agree_init 2) (movies_of two_line_workbook) = Ok (st, lines) /\
    item_x_class_table st = [[0; 0; 0; 3; 0; 0; 0]; [0; 0; 0; 0; 0; 0; 0]] /\
    map row_sum (item_x_class_table st) = [3; 0] /\
    ~ Forall (fun r => row_sum r = 3) (item_x_class_table st).
Proof.
  do 3 eexists.
  split; [vm_compute; reflexivity |].
  split; [reflexivity |].
  split; [vm_compute; reflexivity |].
  split; [reflexivity |].
  split; [reflexivity |].
  intros H. apply Forall_forall with (x := [0; 0; 0; 0; 0; 0; 0]) in H.
  - discriminate H.
  - right. left. reflexivity.
Qed.

(** C4, as the code has it. The table has one row per row of annotator 1's
    sheets and is completed as soon as every movie has a line; the row of
    every visited line has seven columns that sum to 3 and the rows after
    the visited lines sum to 0; when the sheets of annotators 2 and 3 have
    at least as many rows as those of annotator 1, every line is visited and
    every row sums to exactly 3. *)
Theorem table_rows_sum_to_3 (wb1 wb2 wb3 : workbook) (ann : dict entry) (rows : Z) :
  decode_loop wb1 wb2 wb3 (movies_of wb1) [] = Ok ann ->
  total_rows wb1 (movies_of wb1) = Ok rows ->
  let filled := processed_lines ann (movies_of wb1) in
  ((forall m e, In m (movies_of wb1) -> get ann m = Ok e -> (0 < lines_of e)%nat) ->
   exists st lines,
     agree_movies ann (agree_init rows) (movies_of wb1) = Ok (st, lines)) /\
  (forall st lines,
     agree_movies ann (agree_init rows) (movies_of wb1) = Ok (st, lines) ->
     (filled <= Z.to_nat rows)%nat /\
     List.length (item_x_class_table st) = Z.to_nat rows /\
     seven_wide (item_x_class_table st) /\
     map row_sum (item_x_class_table st)
     = (repeat 3 filled ++ repeat 0 (Z.to_nat rows - filled))%list /\
     (sheets_cover wb1 wb2 wb3 ->
      Forall (fun r => row_sum r = 3) (item_x_class_table st))).
Proof.
  intros Hdec Hrows filled. split.
  - now apply (agree_movies_decoded wb1 wb2 wb3).
  - intros st lines Hag.
    pose proof (total_rows_nonneg _ _ _ Hrows) as Hnn.
    destruct (agree_movies_inv (Z.to_nat rows) ann (movies_of wb1) _ _ _
                (agree_init_inv rows) Hag)
      as (Hinv & Hi & Hle & _).
    cbn [agree_init i_item] in Hi, Hle. fold filled in Hi.
    pose proof (agree_inv_table_length _ _ Hinv ltac:(lia)) as Hlen.
    destruct Hinv as (_ & Hw & Hs).
    assert (Hf : Z.to_nat (i_item st) = filled) by lia.
    rewrite Hf in Hs.
    split; [lia |]. split; [exact Hlen |]. split; [exact Hw |].
    split; [exact Hs |].
    intros Hcov.
    assert (Hall : Z.of_nat filled = rows).
    { apply (processed_lines_total wb1 wb2 wb3); try assumption.
      apply (decode_loop_get _ _ _ _ _ _ Hdec). }
    unfold sums_after in Hs.
    replace (Z.to_nat rows - filled)%nat with 0%nat in Hs by lia.
    cbn [repeat] in Hs. rewrite app_nil_r in Hs.
    now apply map_eq_repeat_Forall in Hs.
Qed.

Lemma table_rows_sum_to_3_witness :
  (exists st lines,
     agree_movies demo_ann (agree_init 6) (movies_of demo_workbook) = Ok (st, lines)) /\
  (exists st lines,
     agree_movies demo_ann (agree_init 6) (movies_of demo_workbook) = Ok (st, lines) /\
     Forall (fun r => row_sum r = 3) (item_x_class_table st)).
Proof.
  destruct (table_rows_sum_to_3 demo_workbook demo_workbook demo_workbook
              demo_ann 6 eq_refl eq_refl) as [Hdef Hsum].
  split.
  - apply Hdef. intros m e [<- | []] He. inversion He; subst e. vm_compute. lia.
  - eexists. eexists.
    match goal with
    | |- ?A /\ _ => assert (H : A); [vm_compute; reflexivity | split; [exact H |]]
    end.
    apply (Hsum _ _ H).
    intros m df1 df2 df3 _ H1 H2 H3. rewrite H1 in H2, H3.
    inversion H2; inversion H3; subst. lia.
Defined.

(* ================================================================== *)
(** * Degenerate divisions *)
(* ================================================================== *)

Lemma is_ok_bind {A B : Type} (m : result A) (k : A -> result B) :
  is_ok m = false -> is_ok (bind m k) = false.
Proof.
  destruct m; [discriminate | reflexivity].
Qed.

Lemma is_ok_bind_all {A B : Type} (m : result A) (k : A -> result B) :
  (forall a, is_ok (k a) = false) -> is_ok (bind m k) = false.
Proof.
  intros H. destruct m; [apply H | reflexivity].
Qed.

Lemma agree_movie_zero_lines (ann : dict entry) (st : agree_state)
  (movie : string) (e : entry) :
  get ann movie = Ok e -> lines_of e = 0%nat ->
  agree_movie ann st movie = Raise ZeroDivisionError.
Proof.
  intros He Hz. unfold agree_movie. rewrite He. cbn [bind].
  unfold lines_of in Hz. apply length_zero_iff_nil in Hz. rewrite Hz.
  reflexivity.
Qed.

Lemma agree_movies_zero_lines (ann : dict entry) (movies : list string)
  (m : string) (e : entry) :
  In m movies -> get ann m = Ok e -> lines_of e = 0%nat ->
  forall st, is_ok (agree_movies ann st movies) = false.
Proof.
  intros Hin He Hz. induction movies as [| movie rest IH]; [destruct Hin |].
  intros st. cbn [agree_movies]. destruct Hin as [-> | Hin].
  - now rewrite (agree_movie_zero_lines ann st m e He Hz).
  - destruct (agree_movie ann st movie) as [[st1 line] |]; [| reflexivity].
    cbn [bind]. specialize (IH Hin st1).
    destruct (agree_movies ann st1 rest) as [[st2 lines] |]; [discriminate | reflexivity].
Qed.

(** Without a true positive the scores of a tag are never produced. *)
Lemma prf_no_true_positive (fp fn : Z) :
  0 <= fp -> 0 <= fn -> prf 0 fp fn = Raise ZeroDivisionError.
Proof.
  intros Hfp Hfn. unfold prf.
  destruct (Z.eq_dec fp 0) as [-> | Hp]; [reflexivity |].
  rewrite (int_div_ok 0 (0 + fp)) by lia. cbn [bind].
  destruct (Z.eq_dec fn 0) as [-> | Hn]; [reflexivity |].
  rewrite (int_div_ok 0 (0 + fn)) by lia. reflexivity.
Qed.

Lemma prf_degenerate (tp fp fn : Z) :
  0 <= tp -> 0 <= fp -> 0 <= fn ->
  tp + fp = 0 \/ tp + fn = 0 \/ tp = 0 ->
  prf tp fp fn = Raise ZeroDivisionError.
Proof.
  intros Htp Hfp Hfn H.
  assert (tp = 0) as -> by lia. now apply prf_no_true_positive.
Qed.

Lemma score_loop_fails (ann : dict entry) (t : string) (tags : list string) :
  is_ok (score_tag ann t) = false -> In t tags ->
  is_ok (score_loop ann tags) = false.
Proof.
  intros Hs. induction tags as [| t' tags IH]; [intros [] |].
  intros [-> | Hin]; cbn [score_loop].
  - now apply is_ok_bind.
  - apply is_ok_bind_all. intros a. now apply is_ok_bind, IH.
Qed.

Section Degenerate.

Variable krippendorff_alpha : table -> result Q.
Variable fleiss_kappa : table -> result Q.

(** A movie for which one annotator has no row stops the run. *)
Lemma evaluate_empty_sheet (wb1 wb2 wb3 : workbook) (parsed : folder)
  (windows : list window) (m : string) :
  In m (movies_of wb1) ->
  get wb1 m = Ok [] \/ get wb2 m = Ok [] \/ get wb3 m = Ok [] ->
  is_ok (evaluate krippendorff_alpha fleiss_kappa wb1 wb2 wb3 parsed windows) = false.
Proof.
  intros Hin Hempty. unfold evaluate.
  destruct (decode_loop wb1 wb2 wb3 (movies_of wb1) []) as [ann |] eqn:Hdec;
    [| reflexivity].
  cbn [bind]. apply is_ok_bind. unfold agreement. apply is_ok_bind_all.
  intros rows. apply is_ok_bind.
  destruct (proj1 (decode_loop_get _ _ _ _ _ _ Hdec) m Hin) as (e & He & Hg).
  apply (agree_movies_zero_lines ann _ m e Hin Hg).
  destruct (decode_movie_lines _ _ _ _ _ He) as (d1 & d2 & d3 & G1 & G2 & G3 & _ & L).
  rewrite L.
  destruct Hempty as [E | [E | E]];
    [rewrite E in G1 | rewrite E in G2 | rewrite E in G3];
    match goal with G : Ok [] = Ok _ |- _ => inversion G; subst end;
    simpl; lia.
Qed.

(** A workbook without a movie stops the run as well. *)
Lemma agreement_no_movie (wb1 : workbook) (ann : dict entry) :
  agreement krippendorff_alpha fleiss_kappa wb1 ann [] =
  (_ <- krippendorff_alpha (zeros 0) ;;
   _ <- fleiss_kappa (zeros 0) ;;
   Raise ZeroDivisionError).
Proof.
  unfold agreement. cbn [total_rows agree_movies bind agree_init
                           item_x_class_table n_agree_rater_pairs n_rater_pairs].
  destruct (krippendorff_alpha (zeros 0)); [| reflexivity]. cbn [bind].
  destruct (fleiss_kappa (zeros 0)); reflexivity.
Qed.

Lemma evaluate_no_movie (wb1 wb2 wb3 : workbook) (parsed : folder)
  (windows : list window) :
  movies_of wb1 = [] ->
  is_ok (evaluate krippendorff_alpha fleiss_kappa wb1 wb2 wb3 parsed windows) = false.
Proof.
  intros Hm. unfold evaluate. rewrite Hm. cbn [decode_loop bind].
  apply is_ok_bind. rewrite agreement_no_movie.
  apply is_ok_bind_all. intros _. apply is_ok_bind_all. intros _. reflexivity.
Qed.

End Degenerate.

(** C6. Every degenerate division stops the run with [ZeroDivisionError]
    before any value is written for it, so none is reported as 0% or 100%:
    a movie without lines fails at its agreement percentage, a corpus
    without movies at the percentage of agreeing rater pairs (unless one of
    the two imported statistics has already failed on the empty table), and
    a tag without predicted positives, without true instances or without
    true positives at its precision, recall or F1. *)
Theorem degenerate_divisions_raise :
  (forall ann st movie e,
     get ann movie = Ok e -> lines_of e = 0%nat ->
     agree_movie ann st movie = Raise ZeroDivisionError) /\
  (forall ka fk wb1 wb2 wb3 parsed windows m,
     In m (movies_of wb1) ->
     get wb1 m = Ok [] \/ get wb2 m = Ok [] \/ get wb3 m = Ok [] ->
     is_ok (evaluate ka fk wb1 wb2 wb3 parsed windows) = false) /\
  (forall ka fk wb1 ann,
     agreement ka fk wb1 ann [] =
     (_ <- ka (zeros 0) ;; _ <- fk (zeros 0) ;; Raise ZeroDivisionError)) /\
  (forall ka fk wb1 wb2 wb3 parsed windows,
     movies_of wb1 = [] ->
     is_ok (evaluate ka fk wb1 wb2 wb3 parsed windows) = false) /\
  (forall tp fp fn,
     0 <= tp -> 0 <= fp -> 0 <= fn ->
     tp + fp = 0 \/ tp + fn = 0 \/ tp = 0 ->
     prf tp fp fn = Raise ZeroDivisionError) /\
  (forall ann seqs t,
     holds_seqs ann seqs ->
     sum_bool (is_tp t) (corpus_pairs seqs) = 0 ->
     score_tag ann t = Raise ZeroDivisionError /\
     forall tags, In t tags -> is_ok (score_loop ann tags) = false).
Proof.
  split; [exact agree_movie_zero_lines |].
  split; [exact evaluate_empty_sheet |].
  split; [exact agreement_no_movie |].
  split; [exact evaluate_no_movie |].
  split; [exact prf_degenerate |].
  intros ann seqs t Hs Hz.
  assert (E : score_tag ann t = Raise ZeroDivisionError).
  { unfold score_tag. rewrite (tag_counts_acc t ann seqs 0 0 0 Hs). cbn [bind].
    rewrite Hz. apply prf_no_true_positive.
    - pose proof (sum_bool_bounds (is_fp t) (corpus_pairs seqs)). lia.
    - pose proof (sum_bool_bounds (is_fn t) (corpus_pairs seqs)). lia. }
  split; [exact E |].
  intros tags. apply score_loop_fails. now rewrite E.
Qed.

Lemma degenerate_divisions_raise_witness :
  agree_movie [("m", mkEntry [] [] [] None None)] (agree_init 0) "m"
  = Raise ZeroDivisionError /\
  is_ok (evaluate stat_one stat_one
           [("instructions", []); ("m", [])] [("m", [])] [("m", [])] [] []) = false /\
  is_ok (evaluate stat_one stat_one [("instructions", [])] [] [] [] []) = false /\
  prf 0 3 0 = Raise ZeroDivisionError /\
  score_tag [("m", mkEntry [] [] [] (Some ["S"; "O"]) (Some ["S"; "N"]))] "N"
  = Raise ZeroDivisionError.
Proof.
  destruct degenerate_divisions_raise as (H1 & H2 & _ & H4 & H5 & H6).
  split; [| split; [| split; [| split]]].
  - apply (H1 _ _ "m" (mkEntry [] [] [] None None)); reflexivity.
  - apply (H2 _ _ _ _ _ _ _ "m"); [simpl; tauto | left; reflexivity].
  - apply H4. reflexivity.
  - apply H5; lia.
  - apply (H6 _ [(["S"; "O"], ["S"; "N"])]); [repeat constructor | reflexivity].
Defined.

(* ================================================================== *)
(** * The evaluated movies *)
(* ================================================================== *)

Lemma keys_set_old {V : Type} (d : dict V) (k : string) (v : V) :
  In k (keys d) -> keys (set d k v) = keys d.
Proof.
  unfold keys. induction d as [| [k' v'] d IH]; cbn [set map fst In]; [tauto |].
  intros Hin. destruct (String.eqb_spec k' k) as [-> | Hne]; cbn [map fst].
  - reflexivity.
  - rewrite IH; [reflexivity | tauto].
Qed.

Lemma majority_loop_keys (ann : dict entry) :
  keys (majority_loop ann) = keys ann.
Proof.
  unfold keys, majority_loop. rewrite map_map. apply map_ext. now intros [k e].
Qed.

Lemma align_loop_keys (parsed : folder) (windows : list window) :
  forall ann ann', align_loop parsed windows ann = Ok ann' -> keys ann' = keys ann.
Proof.
  induction windows as [| w rest IH]; intros ann ann' H; cbn [align_loop] in H.
  - now inversion H.
  - destruct (read_lines parsed (w_movie w ++ "_tags.txt")); [| discriminate].
    cbn [bind] in H. destruct (get ann (w_movie w)) as [e |] eqn:He; [| discriminate].
    cbn [bind] in H. rewrite (IH _ _ H). apply keys_set_old.
    now apply get_ok_in_keys in He.
Qed.

Lemma accuracy_loop_names (ann : dict entry) :
  forall accs, accuracy_loop ann = Ok accs -> map fst accs = keys ann.
Proof.
  induction ann as [| [movie e] ann IH]; intros accs H; cbn [accuracy_loop] in H.
  - now inversion H.
  - destruct (get_key "maj" (maj e)) as [m |]; [| discriminate]. cbn [bind] in H.
    destruct (get_key "sys" (sys e)) as [y |]; [| discriminate]. cbn [bind] in H.
    destruct (accuracy m y); [| discriminate]. cbn [bind] in H.
    destruct (accuracy_loop ann) as [accs' |]; [| discriminate]. cbn [bind] in H.
    inversion H; subst. cbn [map fst keys]. f_equal. now apply IH.
Qed.

Lemma decode_loop_ext (wb1 wb2 wb3 wb1' wb2' wb3' : workbook) (movies : list string) :
  (forall m, In m movies ->
     decode_movie wb1' wb2' wb3' m = decode_movie wb1 wb2 wb3 m) ->
  forall ann0,
    decode_loop wb1' wb2' wb3' movies ann0 = decode_loop wb1 wb2 wb3 movies ann0.
Proof.
  induction movies as [| movie rest IH]; intros H ann0; cbn [decode_loop];
    [reflexivity |].
  rewrite (H movie (or_introl eq_refl)).
  destruct (decode_movie wb1 wb2 wb3 movie); [| reflexivity]. cbn [bind].
  apply IH. intros m Hm. apply H. now right.
Qed.

Lemma total_rows_ext (wb1 wb1' : workbook) (movies : list string) :
  (forall m, In m movies -> get wb1' m = get wb1 m) ->
  total_rows wb1' movies = total_rows wb1 movies.
Proof.
  induction movies as [| movie rest IH]; intros H; cbn [total_rows]; [reflexivity |].
  rewrite (H movie (or_introl eq_refl)), IH; [reflexivity |].
  intros m Hm. apply H. now right.
Qed.

Lemma get_skip_first {V : Type} (k : string) (v : V) (d : dict V) (m : string) :
  ~ In k (keys d) -> In m (keys d) -> get ((k, v) :: d) m = get d m.
Proof.
  intros Hk Hm. cbn [get].
  destruct (String.eqb_spec k m) as [-> | Hne]; [contradiction | reflexivity].
Qed.

(** C10. The evaluated movies are the sheets of annotator 1's workbook
    without the first one, in sheet order: they are the keys of the decoded
    annotations and the movies of the agreement and accuracy lines of a
    completed run; the rows of the first sheet, and every sheet of
    annotators 2 and 3 that is not one of these movies, have no effect on
    the run. *)
Theorem evaluated_movies (ka fk : table -> result Q) (wb1 wb2 wb3 : workbook)
  (parsed : folder) (windows : list window) :
  NoDup (keys wb1) ->
  (forall ann,
     decode_loop wb1 wb2 wb3 (movies_of wb1) [] = Ok ann ->
     keys ann = tl (keys wb1)) /\
  (forall rep,
     evaluate ka fk wb1 wb2 wb3 parsed windows = Ok rep ->
     map (fun line => fst (fst (fst line))) (agreement_by_movie rep) = tl (keys wb1) /\
     map fst (accuracy_by_movie rep) = tl (keys wb1)) /\
  (forall first sheet0 sheet0' rest wb2' wb3',
     wb1 = (first, sheet0) :: rest ->
     (forall m, In m (keys rest) ->
        get wb2' m = get wb2 m /\ get wb3' m = get wb3 m) ->
     evaluate ka fk ((first, sheet0') :: rest) wb2' wb3' parsed windows
     = evaluate ka fk wb1 wb2 wb3 parsed windows).
Proof.
  intros Hnd.
  assert (Hnd' : NoDup (movies_of wb1)).
  { unfold movies_of. destruct (keys wb1) as [| k ks]; [constructor |].
    now inversion Hnd. }
  assert (Hkeys : forall ann,
             decode_loop wb1 wb2 wb3 (movies_of wb1) [] = Ok ann ->
             keys ann = tl (keys wb1)).
  { intros ann H. apply decode_loop_keys in H; [exact H | exact Hnd']. }
  split; [exact Hkeys |]. split.
  - intros rep H. unfold evaluate in H.
    destruct (decode_loop wb1 wb2 wb3 (movies_of wb1) []) as [ann |] eqn:Hdec;
      [| discriminate].
    cbn [bind] in H. unfold agreement in H.
    destruct (total_rows wb1 (movies_of wb1)) as [rows |]; [| discriminate].
    cbn [bind] in H.
    destruct (agree_movies ann (agree_init rows) (movies_of wb1))
      as [[st lines] |] eqn:Hag; [| discriminate].
    cbn [bind] in H.
    destruct (ka (item_x_class_table st)); [| discriminate]. cbn [bind] in H.
    destruct (fk (item_x_class_table st)); [| discriminate]. cbn [bind] in H.
    destruct (int_div (100 * n_agree_rater_pairs st) (n_rater_pairs st));
      [| discriminate].
    cbn [bind] in H. unfold parser_scores in H.
    destruct (align_loop parsed windows (majority_loop ann)) as [ann' |] eqn:Hal;
      [| discriminate].
    cbn [bind] in H.
    destruct (accuracy_loop ann') as [accs |] eqn:Hacc; [| discriminate].
    cbn [bind] in H.
    destruct (score_loop ann' TAGS) as [scores |]; [| discriminate].
    cbn [bind] in H. inversion H; subst rep. clear H.
    cbn [agreement_by_movie accuracy_by_movie]. split.
    + apply (agree_movies_inv (Z.to_nat rows) _ _ _ _ _ (agree_init_inv rows) Hag).
    + rewrite (accuracy_loop_names _ _ Hacc), (align_loop_keys _ _ _ _ Hal),
        majority_loop_keys.
      now apply Hkeys.
  - intros first sheet0 sheet0' rest wb2' wb3' -> Hsame.
    cbn [keys map fst] in Hnd. fold (keys rest) in Hnd.
    apply NoDup_cons_iff in Hnd. destruct Hnd as [Hfirst _].
    unfold evaluate, agreement, movies_of. cbn [keys map fst tl].
    fold (keys rest).
    rewrite (decode_loop_ext ((first, sheet0) :: rest) wb2 wb3
               ((first, sheet0') :: rest) wb2' wb3').
    + rewrite (total_rows_ext ((first, sheet0) :: rest) ((first, sheet0') :: rest));
        [reflexivity |].
      intros m Hm. now rewrite !get_skip_first.
    + intros m Hm. unfold decode_movie.
      rewrite !(get_skip_first first) by assumption.
      destruct (Hsame m Hm) as [-> ->]. reflexivity.
Qed.

Lemma evaluated_movies_witness :
  keys demo_ann = ["m"] /\
  evaluate stat_one stat_one
    [("instructions", [row_heading]); ("m", demo_sheet)]
    (("extra", [row_blank]) :: demo_workbook) demo_workbook demo_folder
    [mkWindow "m" 0 6]
  = evaluate stat_one stat_one demo_workbook demo_workbook demo_workbook
      demo_folder [mkWindow "m" 0 6].
Proof.
  assert (Hnd : NoDup (keys demo_workbook)).
  { repeat constructor; simpl; intuition discriminate. }
  destruct (evaluated_movies stat_one stat_one demo_workbook demo_workbook
              demo_workbook demo_folder [mkWindow "m" 0 6] Hnd) as (H1 & _ & H3).
  split.
  - apply (H1 demo_ann). reflexivity.
  - apply (H3 "instructions" [] [row_heading] [("m", demo_sheet)]).
    + reflexivity.
    + intros m [<- | []]. split; reflexivity.
Defined.

(* ================================================================== *)
(** * Text files: tag files, scripts and the report *)
(* ================================================================== *)

Lemma splitlines_break (c : ascii) (s : string) :
  is_linebreak c = true -> Ascii.eqb c CR = false ->
  splitlines (String c s) = EmptyString :: splitlines s.
Proof.
  intros Hb Hc. cbn [splitlines]. rewrite Hb, Hc. cbn [andb].
  destruct s; reflexivity.
Qed.

Lemma splitlines_CR_LF (s : string) :
  splitlines (String CR (String LF s)) = EmptyString :: splitlines s.
Proof. reflexivity. Qed.

Lemma splitlines_CR_other (s : string) :
  (forall s', s <> String LF s') ->
  splitlines (String CR s) = EmptyString :: splitlines s.
Proof.
  intros H. cbn [splitlines]. change (is_linebreak CR) with true. cbv iota.
  destruct s as [| c2 s']; [reflexivity |].
  destruct (Ascii.eqb_spec c2 LF) as [-> | Hne].
  - now destruct (H s').
  - rewrite Bool.andb_false_r. reflexivity.
Qed.

Lemma splitlines_plain (c : ascii) (s : string) :
  is_linebreak c = false ->
  splitlines (String c s) =
  match splitlines s with
  | [] => [String c EmptyString]
  | l :: ls => String c l :: ls
  end.
Proof.
  intros Hb. cbn [splitlines]. now rewrite Hb.
Qed.

(** A line without line break followed by LF is one line of the text. *)
Lemma splitlines_line (t rest : string) :
  one_line t = true ->
  splitlines (t ++ String LF rest) = t :: splitlines rest.
Proof.
  induction t as [| c t IH]; cbn [append one_line]; intros H.
  - now apply splitlines_break.
  - apply andb_true_iff in H. destruct H as [Hc Ht].
    apply negb_true_iff in Hc. rewrite (splitlines_plain c _ Hc), (IH Ht).
    reflexivity.
Qed.

Lemma splitlines_write_tags (tags : list string) :
  Forall (fun t => one_line t = true) tags ->
  splitlines (write_tags tags) = tags.
Proof.
  induction 1 as [| t tags Ht _ IH]; cbn [write_tags]; [reflexivity |].
  now rewrite (splitlines_line t _ Ht), IH.
Qed.

Lemma is_linebreak_CR_false (c : ascii) :
  is_linebreak c = false -> Ascii.eqb c CR = false.
Proof.
  intros H. destruct (Ascii.eqb_spec c CR) as [-> | _]; [discriminate H | reflexivity].
Qed.

Lemma one_line_no_CR (s : string) :
  one_line s = true -> no_CR s = true.
Proof.
  induction s as [| c s IH]; cbn [one_line no_CR]; [reflexivity |].
  intros H. apply andb_true_iff in H. destruct H as [Hc Hs].
  apply negb_true_iff in Hc. now rewrite (is_linebreak_CR_false c Hc), IH.
Qed.

Lemma no_CR_app (s t : string) :
  no_CR (s ++ t) = no_CR s && no_CR t.
Proof.
  induction s as [| c s IH]; cbn [append no_CR]; [reflexivity |].
  now rewrite IH, andb_assoc.
Qed.

Lemma write_tags_no_CR (tags : list string) :
  Forall (fun t => one_line t = true) tags -> no_CR (write_tags tags) = true.
Proof.
  induction 1 as [| t tags Ht _ IH]; cbn [write_tags]; [reflexivity |].
  rewrite no_CR_app. cbn [no_CR]. rewrite (one_line_no_CR t Ht), IH. reflexivity.
Qed.

(** Reading back in text mode what was written in text mode gives the text
    written, on either platform, when the text holds no carriage return. *)
Lemma universal_newlines_write_text (os : platform) (s : string) :
  no_CR s = true -> universal_newlines (write_text os s) = s.
Proof.
  induction s as [| c s IH]; cbn [no_CR write_text]; [reflexivity |].
  intros H. apply andb_true_iff in H. destruct H as [Hc Hs].
  apply negb_true_iff in Hc. specialize (IH Hs).
  destruct (Ascii.eqb_spec c LF) as [-> | Hne].
  - destruct os; cbn [linesep append universal_newlines];
      change (Ascii.eqb LF CR) with false; change (Ascii.eqb CR CR) with true;
      change (Ascii.eqb LF LF) with true; cbv iota; now rewrite IH.
  - cbn [universal_newlines]. now rewrite Hc, IH.
Qed.

Lemma universal_newlines_plain (c : ascii) (s : string) :
  Ascii.eqb c CR = false ->
  universal_newlines (String c s) = String c (universal_newlines s).
Proof.
  intros Hc. cbn [universal_newlines]. now rewrite Hc.
Qed.

Lemma universal_newlines_CR_LF (s : string) :
  universal_newlines (String CR (String LF s)) = String LF (universal_newlines s).
Proof. reflexivity. Qed.

Lemma universal_newlines_CR_other (s : string) :
  (forall s', s <> String LF s') ->
  universal_newlines (String CR s) = String LF (universal_newlines s).
Proof.
  intros H. destruct s as [| c2 s']; [reflexivity |].
  destruct (Ascii.eqb_spec c2 LF) as [-> | Hne].
  - now destruct (H s').
  - change (universal_newlines (String CR (String c2 s')))
      with (if Ascii.eqb c2 LF then String LF (universal_newlines s')
            else String LF (universal_newlines (String c2 s'))).
    apply Ascii.eqb_neq in Hne. now rewrite Hne.
Qed.

(** [splitlines] does not see the translation of line ends made by a read in
    text mode. *)
Lemma splitlines_universal_newlines (s : string) :
  splitlines (universal_newlines s) = splitlines s.
Proof.
  enough (H : splitlines (universal_newlines s) = splitlines s /\
              forall c, splitlines (universal_newlines (String c s))
                        = splitlines (String c s)) by apply H.
  assert (HLF : forall x, splitlines (String LF x) = EmptyString :: splitlines x)
    by (intros x; now apply splitlines_break).
  induction s as [| c2 s [IH1 IH2]].
  - split; [reflexivity |]. intros c.
    destruct (Ascii.eqb_spec c CR) as [-> | Hne]; [reflexivity |].
    apply Ascii.eqb_neq in Hne. now rewrite (universal_newlines_plain c _ Hne).
  - split; [apply IH2 |]. intros c.
    destruct (Ascii.eqb_spec c CR) as [-> | Hne].
    + destruct (Ascii.eqb_spec c2 LF) as [-> | Hne2].
      * now rewrite universal_newlines_CR_LF, splitlines_CR_LF, HLF, IH1.
      * rewrite universal_newlines_CR_other, splitlines_CR_other
          by (intros s' E; inversion E; contradiction).
        now rewrite HLF, IH2.
    + apply Ascii.eqb_neq in Hne. rewrite (universal_newlines_plain c _ Hne).
      destruct (is_linebreak c) eqn:Hb.
      * rewrite !(splitlines_break c _ Hb Hne). now rewrite IH2.
      * rewrite !(splitlines_plain c _ Hb). now rewrite IH2.
Qed.

Lemma split_newline_plain (c : ascii) (s : string) :
  Ascii.eqb c LF = false ->
  exists l ls, split_newline s = l :: ls /\ split_newline (String c s) = String c l :: ls.
Proof.
  intros Hc. cbn [split_newline]. rewrite Hc.
  destruct (split_newline s) as [| l ls] eqn:E.
  - destruct s as [| c' s']; cbn [split_newline] in E; [discriminate |].
    destruct (Ascii.eqb c' LF); [discriminate |].
    destruct (split_newline s'); discriminate.
  - eauto.
Qed.

Lemma concat_LF_cons (l : string) (ls : list string) (c : ascii) :
  String.concat (String LF EmptyString) (String c l :: ls)
  = String c (String.concat (String LF EmptyString) (l :: ls)).
Proof.
  cbn [String.concat]. destruct ls; reflexivity.
Qed.

Lemma split_newline_LF (s : string) :
  split_newline (String LF s) = EmptyString :: split_newline s.
Proof. reflexivity. Qed.

Lemma split_newline_concat (s : string) :
  String.concat (String LF EmptyString) (split_newline s) = s.
Proof.
  induction s as [| c s IH]; [reflexivity |].
  destruct (Ascii.eqb_spec c LF) as [-> | Hne].
  - rewrite split_newline_LF. cbn [String.concat].
    destruct (split_newline s) as [| l ls] eqn:E.
    + destruct s as [| c' s']; cbn [split_newline] in E; [discriminate |].
      destruct (Ascii.eqb c' LF); [discriminate |].
      destruct (split_newline s'); discriminate.
    + cbn [append]. now rewrite IH.
  - apply Ascii.eqb_neq in Hne.
    destruct (split_newline_plain c s Hne) as (l & ls & E & ->).
    rewrite concat_LF_cons, <- E, IH. reflexivity.
Qed.

Lemma split_newline_length (s : string) :
  List.length (split_newline s) = S (count_LF s).
Proof.
  induction s as [| c s IH]; [reflexivity |]. cbn [count_LF].
  destruct (Ascii.eqb c LF) eqn:Hc.
  - cbn [split_newline]. rewrite Hc. cbn [List.length]. now rewrite IH.
  - destruct (split_newline_plain c s Hc) as (l & ls & E & ->).
    rewrite E in IH. exact IH.
Qed.

Lemma split_newline_pieces (s : string) :
  Forall (fun l => count_LF l = 0%nat) (split_newline s).
Proof.
  induction s as [| c s IH]; [repeat constructor |].
  destruct (Ascii.eqb c LF) eqn:Hc.
  - cbn [split_newline]. rewrite Hc. constructor; [reflexivity | exact IH].
  - destruct (split_newline_plain c s Hc) as (l & ls & E & ->).
    rewrite E in IH. inversion IH; subst. constructor; [| assumption].
    cbn [count_LF]. rewrite Hc. assumption.
Qed.

Lemma split_newline_line (t rest : string) :
  count_LF t = 0%nat ->
  split_newline (t ++ String LF rest) = t :: split_newline rest.
Proof.
  induction t as [| c t IH]; cbn [append count_LF]; intros H; [reflexivity |].
  destruct (Ascii.eqb c LF) eqn:Hc; [discriminate |].
  destruct (split_newline_plain c (t ++ String LF rest) Hc) as (l & ls & E & ->).
  rewrite IH in E by exact H. now inversion E.
Qed.

Lemma one_line_count_LF (t : string) :
  one_line t = true -> count_LF t = 0%nat.
Proof.
  induction t as [| c t IH]; cbn [one_line count_LF]; [reflexivity |].
  intros H. apply andb_true_iff in H. destruct H as [Hc Ht].
  apply negb_true_iff in Hc.
  destruct (Ascii.eqb_spec c LF) as [-> | _]; [discriminate Hc | now apply IH].
Qed.

(** X20. The script handed to the parsers: split at the LF characters only, so
    the pieces joined by LF give the text back, they are one more than the
    LF characters and hold none; a text of newline-terminated lines yields
    these lines and a final empty line, where [splitlines] yields the lines
    only. *)
Theorem read_script_lines :
  (forall text,
     String.concat (String LF EmptyString) (split_newline text) = text /\
     List.length (split_newline text) = S (count_LF text) /\
     Forall (fun l => count_LF l = 0%nat) (split_newline text)) /\
  (forall lines,
     Forall (fun l => one_line l = true) lines ->
     split_newline (write_tags lines) = (lines ++ [EmptyString])%list /\
     splitlines (write_tags lines) = lines).
Proof.
  split.
  - intros text. split; [apply split_newline_concat |].
    split; [apply split_newline_length | apply split_newline_pieces].
  - intros lines H. split; [| now apply splitlines_write_tags].
    induction H as [| t lines Ht _ IH]; [reflexivity |].
    cbn [write_tags app].
    now rewrite (split_newline_line t _ (one_line_count_LF t Ht)), IH.
Qed.

Lemma read_script_lines_witness :
  split_newline (write_tags ["INT. HOUSE"; "He sits."])
  = ["INT. HOUSE"; "He sits."; EmptyString].
Proof.
  apply (proj1 (proj2 read_script_lines ["INT. HOUSE"; "He sits."]
                  ltac:(repeat constructor))).
Defined.

(** X19. The tag files written by the script are read back by the evaluation as
    the lists of tags the parsers returned, on either platform, when no tag
    holds a line break. *)
Theorem run_parser_read_back (trx_parse rule_parse : list string -> list string)
  (os : platform) (stored : string) :
  Forall (fun t => one_line t = true) (trx_parse (read_script stored)) ->
  Forall (fun t => one_line t = true) (rule_parse (read_script stored)) ->
  read_splitlines (fst (run_parser trx_parse rule_parse os stored))
  = trx_parse (read_script stored) /\
  read_splitlines (snd (run_parser trx_parse rule_parse os stored))
  = rule_parse (read_script stored).
Proof.
  intros Ht Hr. unfold run_parser, read_splitlines. cbn [fst snd].
  rewrite !universal_newlines_write_text by now apply write_tags_no_CR.
  now rewrite !splitlines_write_tags.
Qed.

Lemma run_parser_read_back_witness :
  read_splitlines
    (fst (run_parser demo_parse demo_parse Windows (write_tags ["JOHN"; "Hello."])))
  = ["D"; "D"; "O"].
Proof.
  rewrite (proj1 (run_parser_read_back demo_parse demo_parse Windows
                    (write_tags ["JOHN"; "Hello."])
                    ltac:(repeat constructor) ltac:(repeat constructor))).
  reflexivity.
Defined.

(** X21. The tags read from a tag file do not depend on the convention of its
    line ends: the read in text mode followed by [splitlines] gives the
    lines of the stored characters, and a text without carriage return
    written on either platform is read back as its lines. *)
Theorem read_splitlines_line_ends (os : platform) (stored text : string) :
  read_splitlines stored = splitlines stored /\
  (no_CR text = true -> read_splitlines (write_text os text) = splitlines text).
Proof.
  split; [apply splitlines_universal_newlines |].
  intros H. unfold read_splitlines. now rewrite universal_newlines_write_text.
Qed.

Lemma read_splitlines_line_ends_witness :
  read_splitlines (write_text Windows (write_tags ["S"; "N"])) = ["S"; "N"].
Proof.
  rewrite (proj2 (read_splitlines_line_ends Windows EmptyString (write_tags ["S"; "N"])))
    by reflexivity.
  reflexivity.
Defined.

Lemma string_append_empty (s : string) :
  (s ++ EmptyString)%string = s.
Proof.
  induction s as [| c s IH]; cbn [append]; [reflexivity | now rewrite IH].
Qed.

Lemma string_append_assoc (s t u : string) :
  ((s ++ t) ++ u)%string = (s ++ (t ++ u))%string.
Proof.
  induction s as [| c s IH]; cbn [append]; [reflexivity | now rewrite IH].
Qed.

Lemma log_all_acc (msgs : list string) :
  forall o,
    log_all o msgs
    = mkSinks (printed o ++ write_tags msgs)%string (fw o ++ write_tags msgs)%string.
Proof.
  unfold log_all. induction msgs as [| m msgs IH]; intros [p f]; cbn [fold_left].
  - cbn [write_tags printed fw]. now rewrite !string_append_empty.
  - rewrite IH. unfold logf. cbn [printed fw write_tags].
    now rewrite !string_append_assoc.
Qed.

(** X22. After any sequence of calls of [logf] on an empty report the same text
    has been printed and written, and the report read back line by line is
    the sequence of messages, in order, when no message holds a line
    break. *)
Theorem logf_report (os : platform) (msgs : list string) :
  printed (log_all (mkSinks EmptyString EmptyString) msgs)
  = fw (log_all (mkSinks EmptyString EmptyString) msgs) /\
  (Forall (fun m => one_line m = true) msgs ->
   read_splitlines
     (write_text os (fw (log_all (mkSinks EmptyString EmptyString) msgs)))
   = msgs).
Proof.
  rewrite log_all_acc. cbn [printed fw append]. split; [reflexivity |].
  intros H. unfold read_splitlines.
  rewrite universal_newlines_write_text by now apply write_tags_no_CR.
  now apply splitlines_write_tags.
Qed.

Lemma logf_report_witness :
  read_splitlines
    (write_text Posix
       (fw (log_all (mkSinks EmptyString EmptyString)
              ["agreement scores by movie:"; EmptyString])))
  = ["agreement scores by movie:"; EmptyString].
Proof.
  apply (proj2 (logf_report Posix ["agreement scores by movie:"; EmptyString])).
  repeat constructor.
Defined.

(* ================================================================== *)
(** * Decoder: further properties *)
(* ================================================================== *)

Lemma rstrip_idempotent (s : string) :
  rstrip (rstrip s) = rstrip s.
Proof.
  induction s as [| c s IH]; [reflexivity |]. cbn [rstrip].
  destruct (rstrip s) as [| a u] eqn:E.
  - destruct (isspace c) eqn:Hc; [reflexivity |]. cbn [rstrip]. now rewrite Hc.
  - cbn [rstrip] in IH |- *. rewrite IH. reflexivity.
Qed.

Lemma lstrip_fixed (s : string) :
  (forall c t, s = String c t -> isspace c = false) -> lstrip s = s.
Proof.
  intros H. destruct s as [| c t]; [reflexivity |].
  cbn [lstrip]. now rewrite (H c t eq_refl).
Qed.

Lemma strip_idempotent (s : string) :
  strip (strip s) = strip s.
Proof.
  destruct (strip_spec s) as (_ & _ & _ & _ & _ & Hfirst & _).
  unfold strip at 1. rewrite (lstrip_fixed (strip s) Hfirst).
  unfold strip. apply rstrip_idempotent.
Qed.

Lemma field_matches_alike (l l' : string) (c c' : cell) :
  strip l = strip l' -> cell_alike c c' ->
  field_matches l c = field_matches l' c'.
Proof.
  intros Hl Hc. destruct c as [s | | z], c' as [s' | | z']; cbn in Hc |- *;
    try reflexivity; try contradiction.
  now rewrite Hl, Hc.
Qed.

Lemma cell_alike_strip (c : cell) :
  cell_alike c (cell_strip c).
Proof.
  destruct c as [s | | z]; cbn; [| exact I | exact I].
  symmetry. apply strip_idempotent.
Qed.

(** X1. Whitespace around the text of the line or of a tag column never changes
    the decoded tag: rows whose cells are alike decode to the same tag, in
    particular a row and the row with every text stripped. *)
Theorem decode_row_ignores_padding (r r' : row) :
  (row_alike r r' -> decode_row r = decode_row r') /\
  decode_row (row_strip r) = decode_row r.
Proof.
  assert (H : forall a b, row_alike a b -> decode_row a = decode_row b).
  { intros a b [Hline Hcols]. unfold decode_row.
    destruct (col_line a) as [l | | z], (col_line b) as [l' | | z'];
      cbn in Hline; try reflexivity; try contradiction.
    rewrite Hline.
    destruct (strip l' =? EmptyString)%string; [reflexivity |].
    assert (Hm : forall t, In t TAGS ->
                 field_matches l (row_get a t) = field_matches l' (row_get b t)).
    { intros t Ht. apply field_matches_alike; [exact Hline | now apply Hcols]. }
    apply forall_TAGS in Hm. destruct Hm as (H1 & H2 & H3 & H4 & H5 & H6).
    unfold TAGS, decode_step. cbn [fold_left].
    now rewrite H1, H2, H3, H4, H5, H6. }
  split; [apply H |]. symmetry. apply H. split.
  - apply cell_alike_strip.
  - intros t Ht. apply forall_TAGS with (t := t); [| exact Ht].
    repeat split; apply cell_alike_strip.
Qed.

Lemma decode_row_ignores_padding_witness :
  decode_row (mkRow (Text "  JOHN ") NaN NaN (Text "JOHN   ") NaN NaN NaN)
  = decode_row (mkRow (Text "JOHN") NaN NaN (Text " JOHN") NaN NaN NaN).
Proof.
  apply (proj1 (decode_row_ignores_padding _ _)). split.
  - reflexivity.
  - intros t Ht. apply forall_TAGS with (t := t); [| exact Ht].
    repeat split; reflexivity.
Defined.

Lemma get_raise {V : Type} (d : dict V) (k : string) (e : exn) :
  get d k = Raise e -> e = KeyError k /\ ~ In k (keys d).
Proof.
  unfold keys. induction d as [| [k' v] d IH]; cbn [get map fst In].
  - intros H. inversion H. tauto.
  - destruct (String.eqb_spec k' k) as [-> | Hne]; [discriminate |].
    intros H. destruct (IH H) as [-> Hnin]. tauto.
Qed.

Lemma get_empty {V : Type} (k : string) :
  get (@nil (string * V)) k = Raise (KeyError k).
Proof. reflexivity. Qed.

(** X2. What the decoding loop leaves in [ann] for a movie: three sequences, one
    tag per row of the annotator's sheet, every tag one of the seven
    categories, and neither a majority nor a system sequence yet; nothing is
    bound for a name that is not a movie. *)
Theorem decoded_sequences (wb1 wb2 wb3 : workbook) (ann : dict entry) (m : string) :
  decode_loop wb1 wb2 wb3 (movies_of wb1) [] = Ok ann ->
  (In m (movies_of wb1) ->
   exists df1 df2 df3 e,
     get wb1 m = Ok df1 /\ get wb2 m = Ok df2 /\ get wb3 m = Ok df3 /\
     get ann m = Ok e /\
     List.length (ann1 e) = List.length df1 /\
     List.length (ann2 e) = List.length df2 /\
     List.length (ann3 e) = List.length df3 /\
     Forall (fun t => In t CLASSES) (ann1 e ++ ann2 e ++ ann3 e) /\
     maj e = None /\ sys e = None) /\
  (~ In m (movies_of wb1) -> get ann m = Raise (KeyError m)).
Proof.
  intros Hdec. destruct (decode_loop_get _ _ _ _ _ _ Hdec) as [Hin Hout]. split.
  - intros Hm. destruct (Hin m Hm) as (e & He & Hg).
    destruct (decode_movie_lines _ _ _ _ _ He) as (d1 & d2 & d3 & G1 & G2 & G3 & -> & _).
    exists d1, d2, d3. eexists.
    split; [exact G1 |]. split; [exact G2 |]. split; [exact G3 |].
    split; [exact Hg |]. cbn [ann1 ann2 ann3 maj sys].
    split; [apply length_map |]. split; [apply length_map |].
    split; [apply length_map |]. split; [| split; reflexivity].
    rewrite !Forall_app. repeat split; apply decode_sheet_classes.
  - intros Hm. now rewrite (Hout m Hm).
Qed.

Lemma decoded_sequences_witness :
  exists df1 df2 df3 e,
    get demo_workbook "m" = Ok df1 /\ get demo_workbook "m" = Ok df2 /\
    get demo_workbook "m" = Ok df3 /\ get demo_ann "m" = Ok e /\
    List.length (ann1 e) = List.length df1 /\
    List.length (ann2 e) = List.length df2 /\
    List.length (ann3 e) = List.length df3 /\
    Forall (fun t => In t CLASSES) (ann1 e ++ ann2 e ++ ann3 e) /\
    maj e = None /\ sys e = None.
Proof.
  apply (proj1 (decoded_sequences demo_workbook demo_workbook demo_workbook
                  demo_ann "m" eq_refl)).
  simpl. tauto.
Defined.

Lemma decode_movie_defined (wb1 wb2 wb3 : workbook) (m : string) :
  In m (keys wb1) -> In m (keys wb2) -> In m (keys wb3) ->
  exists e, decode_movie wb1 wb2 wb3 m = Ok e.
Proof.
  intros H1 H2 H3. unfold decode_movie.
  destruct (get_in_keys _ _ H1) as [d1 ->].
  destruct (get_in_keys _ _ H2) as [d2 ->].
  destruct (get_in_keys _ _ H3) as [d3 ->].
  cbn [bind]. eauto.
Qed.

Lemma decode_movie_raise (wb1 wb2 wb3 : workbook) (m : string) (e : exn) :
  In m (keys wb1) -> decode_movie wb1 wb2 wb3 m = Raise e ->
  e = KeyError m /\ (~ In m (keys wb2) \/ ~ In m (keys wb3)).
Proof.
  intros H1 H. unfold decode_movie in H.
  destruct (get_in_keys _ _ H1) as [d1 E1]. rewrite E1 in H. cbn [bind] in H.
  destruct (get wb2 m) as [d2 |] eqn:E2; cbn [bind] in H.
  - destruct (get wb3 m) as [d3 |] eqn:E3; cbn [bind] in H; [discriminate |].
    inversion H; subst. destruct (get_raise _ _ _ E3) as [-> Hn]. tauto.
  - inversion H; subst. destruct (get_raise _ _ _ E2) as [-> Hn]. tauto.
Qed.

Lemma decode_loop_outcome (wb1 wb2 wb3 : workbook) (movies : list string) :
  (forall m, In m movies -> In m (keys wb1)) ->
  forall ann0,
    match decode_loop wb1 wb2 wb3 movies ann0 with
    | Ok _ => forall m, In m movies -> In m (keys wb2) /\ In m (keys wb3)
    | Raise e =>
        exists before m after,
          movies = (before ++ m :: after)%list /\
          (forall m', In m' before -> In m' (keys wb2) /\ In m' (keys wb3)) /\
          (~ In m (keys wb2) \/ ~ In m (keys wb3)) /\
          e = KeyError m
    end.
Proof.
  induction movies as [| movie rest IH]; intros H1 ann0; cbn [decode_loop].
  - intros m [].
  - destruct (decode_movie wb1 wb2 wb3 movie) as [e |] eqn:E; cbn [bind].
    + assert (Hp : In movie (keys wb2) /\ In movie (keys wb3)).
      { unfold decode_movie in E.
        destruct (get wb1 movie); [| discriminate]. cbn [bind] in E.
        destruct (get wb2 movie) eqn:E2; [| discriminate]. cbn [bind] in E.
        destruct (get wb3 movie) eqn:E3; [| discriminate].
        split; eapply get_ok_in_keys; eassumption. }
      specialize (IH (fun m Hm => H1 m (or_intror Hm)) (set ann0 movie e)).
      destruct (decode_loop wb1 wb2 wb3 rest (set ann0 movie e)) as [ann | err].
      * intros m [<- | Hm]; [exact Hp | now apply IH].
      * destruct IH as (before & m & after & -> & Hb & Hm & ->).
        exists (movie :: before), m, after.
        split; [reflexivity |]. split; [| split; [exact Hm | reflexivity]].
        intros m' [<- | Hm']; [exact Hp | now apply Hb].
    + destruct (decode_movie_raise _ _ _ _ _ (H1 movie (or_introl eq_refl)) E)
        as [-> Hmiss].
      exists [], movie, rest.
      split; [reflexivity |]. split; [intros m' [] |]. split; [exact Hmiss | reflexivity].
Qed.

Lemma movies_of_in_keys (wb1 : workbook) (m : string) :
  In m (movies_of wb1) -> In m (keys wb1).
Proof.
  unfold movies_of. destruct (keys wb1); [intros [] | now right].
Qed.

(** X3. The decoding loop completes exactly when every movie is a sheet of the
    workbooks of annotators 2 and 3; otherwise it stops with the [KeyError]
    of the first movie, in sheet order, that one of them lacks. *)
Theorem decode_loop_missing_sheet (wb1 wb2 wb3 : workbook) :
  ((forall m, In m (movies_of wb1) -> In m (keys wb2) /\ In m (keys wb3)) <->
   exists ann, decode_loop wb1 wb2 wb3 (movies_of wb1) [] = Ok ann) /\
  (forall e,
     decode_loop wb1 wb2 wb3 (movies_of wb1) [] = Raise e ->
     exists before m after,
       movies_of wb1 = (before ++ m :: after)%list /\
       (forall m', In m' before -> In m' (keys wb2) /\ In m' (keys wb3)) /\
       (~ In m (keys wb2) \/ ~ In m (keys wb3)) /\
       e = KeyError m).
Proof.
  pose proof (decode_loop_outcome wb1 wb2 wb3 (movies_of wb1)
                (movies_of_in_keys wb1) []) as H.
  destruct (decode_loop wb1 wb2 wb3 (movies_of wb1) []) as [ann | err].
  - split; [| discriminate]. split; [eauto | intros _; exact H].
  - split.
    + split; [| intros [ann E]; discriminate].
      intros Hall. destruct H as (before & m & after & E & _ & Hmiss & _).
      assert (Hin : In m (movies_of wb1)).
      { rewrite E. apply in_or_app. right. now left. }
      destruct (Hall m Hin). tauto.
    + intros e E. inversion E; subst. exact H.
Qed.

Lemma decode_loop_missing_sheet_witness :
  (exists ann,
     decode_loop demo_workbook demo_workbook demo_workbook
       (movies_of demo_workbook) [] = Ok ann) /\
  exists before m after,
    movies_of demo_workbook = (before ++ m :: after)%list /\
    (forall m', In m' before -> In m' (keys [("instructions", [row_blank])]) /\
                                In m' (keys demo_workbook)) /\
    (~ In m (keys [("instructions", [row_blank])]) \/ ~ In m (keys demo_workbook)) /\
    KeyError "m" = KeyError m.
Proof.
  split.
  - apply (proj1 (proj1 (decode_loop_missing_sheet demo_workbook demo_workbook
                           demo_workbook))).
    intros m [<- | []]. simpl. tauto.
  - apply (proj2 (decode_loop_missing_sheet demo_workbook
                    [("instructions", [row_blank])] demo_workbook)).
    reflexivity.
Defined.

(* ================================================================== *)
(** * Agreement engine: the counters and the percentages *)
(* ================================================================== *)

Lemma n_distinct_cases (a1 a2 a3 : string) :
  n_distinct a1 a2 a3 =
  if all_agree (a1, a2, a3) then 1
  else if none_agree (a1, a2, a3) then 3 else 2.
Proof.
  unfold n_distinct, all_agree, none_agree. cbn [nodup].
  destruct (in_dec string_dec a1 [a2; a3]) as [H1 | H1],
           (in_dec string_dec a2 [a3]) as [H2 | H2],
           (in_dec string_dec a3 []) as [H3 | H3];
    cbn [In] in H1, H2, H3; try contradiction;
    destruct (String.eqb_spec a1 a2), (String.eqb_spec a1 a3),
      (String.eqb_spec a2 a3); cbn; subst; try reflexivity;
      try congruence; exfalso; intuition congruence.
Qed.

(** X4. The number of distinct tags of a line is 1 exactly when the three
    annotators agree and 3 exactly when no two of them do; with three
    distinct tags the consensus is "O", and otherwise the consensus is a tag
    that two of them hold. *)
Theorem n_distinct_spec (a1 a2 a3 : string) :
  (n_distinct a1 a2 a3 = 1 <-> a1 = a2 /\ a1 = a3) /\
  (n_distinct a1 a2 a3 = 3 <-> a1 <> a2 /\ a1 <> a3 /\ a2 <> a3) /\
  (n_distinct a1 a2 a3 = 1 \/ n_distinct a1 a2 a3 = 2 \/ n_distinct a1 a2 a3 = 3) /\
  (n_distinct a1 a2 a3 = 3 -> majority a1 a2 a3 = "O") /\
  (n_distinct a1 a2 a3 < 3 -> (2 <= holders a1 a2 a3 (majority a1 a2 a3))%nat).
Proof.
  rewrite n_distinct_cases. unfold all_agree, none_agree, majority, holders.
  cbn [count_occ].
  destruct (String.eqb_spec a1 a2), (String.eqb_spec a1 a3),
    (String.eqb_spec a2 a3); cbn [andb orb negb]; subst;
    repeat match goal with
    | |- context [string_dec ?x ?y] => destruct (string_dec x y)
    end;
    repeat split; intros; try lia; try congruence; try tauto;
    try (exfalso; intuition congruence).
Qed.

Lemma n_distinct_spec_witness :
  majority "S" "N" "C" = "O" /\ (2 <= holders "D" "C" "D" (majority "D" "C" "D"))%nat.
Proof.
  split.
  - apply (proj1 (proj2 (proj2 (proj2 (n_distinct_spec "S" "N" "C"))))). reflexivity.
  - apply (proj2 (proj2 (proj2 (proj2 (n_distinct_spec "D" "C" "D"))))). reflexivity.
Defined.

Lemma agree_line_exact (st : agree_state) (a : string * string * string) :
  agree_line st a =
  (t1 <- vote (item_x_class_table st) (i_item st) (fst (fst a)) ;;
   t2 <- vote t1 (i_item st) (snd (fst a)) ;;
   t3 <- vote t2 (i_item st) (snd a) ;;
   Ok (mkAgree (n_rater_pairs st + 3)
         (n_agree_rater_pairs st + 3 * (if all_agree a then 1 else 0)
          + (if two_agree a then 1 else 0))
         t3 (i_item st + 1)
         (n1 st + (if all_agree a then 1 else 0))
         (n2 st + (if two_agree a then 1 else 0))
         (n3 st + (if none_agree a then 1 else 0)))).
Proof.
  destruct a as [[a1 a2] a3]. unfold agree_line, two_agree. cbn [fst snd].
  rewrite n_distinct_cases.
  assert (Hx : all_agree (a1, a2, a3) = true -> none_agree (a1, a2, a3) = false).
  { unfold all_agree, none_agree. destruct (String.eqb a1 a2); [reflexivity | discriminate]. }
  destruct (all_agree (a1, a2, a3)) eqn:Ha;
    [rewrite (Hx eq_refl) | destruct (none_agree (a1, a2, a3)) eqn:Hn];
    cbn [Z.eqb Pos.eqb negb andb];
    (destruct (vote (item_x_class_table st) (i_item st) a1) as [t1 |];
       [| reflexivity]); cbn [bind];
    (destruct (vote t1 (i_item st) a2) as [t2 |]; [| reflexivity]); cbn [bind];
    (destruct (vote t2 (i_item st) a3) as [t3 |]; [| reflexivity]); cbn [bind];
    f_equal; f_equal; lia.
Qed.

Lemma agree_line_counters (st st' : agree_state) (a : string * string * string) :
  agree_line st a = Ok st' ->
  n1 st' = n1 st + (if all_agree a then 1 else 0) /\
  n2 st' = n2 st + (if two_agree a then 1 else 0) /\
  n3 st' = n3 st + (if none_agree a then 1 else 0) /\
  n_agree_rater_pairs st' =
    n_agree_rater_pairs st + 3 * (if all_agree a then 1 else 0)
    + (if two_agree a then 1 else 0) /\
  n_rater_pairs st' = n_rater_pairs st + 3.
Proof.
  rewrite agree_line_exact.
  destruct (vote (item_x_class_table st) (i_item st) (fst (fst a))) as [t1 |];
    [| discriminate]. cbn [bind].
  destruct (vote t1 (i_item st) (snd (fst a))) as [t2 |]; [| discriminate].
  cbn [bind].
  destruct (vote t2 (i_item st) (snd a)) as [t3 |]; [| discriminate].
  cbn [bind]. intros H. inversion H; subst st'.
  cbn [n1 n2 n3 n_agree_rater_pairs n_rater_pairs]. repeat split.
Qed.

Lemma agree_lines_counters (l : list (string * string * string)) :
  forall st st',
    agree_lines st l = Ok st' ->
    n1 st' = n1 st + sum_bool all_agree l /\
    n2 st' = n2 st + sum_bool two_agree l /\
    n3 st' = n3 st + sum_bool none_agree l /\
    n_agree_rater_pairs st' =
      n_agree_rater_pairs st + 3 * sum_bool all_agree l + sum_bool two_agree l /\
    n_rater_pairs st' = n_rater_pairs st + 3 * Z.of_nat (List.length l).
Proof.
  induction l as [| a l IH]; intros st st' H; cbn [agree_lines] in H.
  - inversion H; subst. rewrite !sum_bool_nil. simpl List.length.
    repeat split; lia.
  - destruct (agree_line st a) as [st1 |] eqn:E; [| discriminate]. cbn [bind] in H.
    destruct (agree_line_counters _ _ _ E) as (H1 & H2 & H3 & H4 & H5).
    destruct (IH _ _ H) as (I1 & I2 & I3 & I4 & I5).
    rewrite !sum_bool_cons. simpl List.length. repeat split; lia.
Qed.

(** The three kinds of line are exclusive and exhaustive. *)
Lemma agreement_kinds_total (l : list (string * string * string)) :
  sum_bool all_agree l + sum_bool two_agree l + sum_bool none_agree l
  = Z.of_nat (List.length l).
Proof.
  induction l as [| a l IH].
  - rewrite !sum_bool_nil. reflexivity.
  - rewrite !sum_bool_cons. simpl List.length.
    assert (H1 : (if all_agree a then 1 else 0) + (if two_agree a then 1 else 0)
                 + (if none_agree a then 1 else 0) = 1).
    { destruct a as [[a1 a2] a3]. unfold two_agree, all_agree, none_agree.
      destruct (String.eqb_spec a1 a2), (String.eqb_spec a1 a3),
        (String.eqb_spec a2 a3); cbn [andb negb]; subst; try congruence;
        reflexivity. }
    lia.
Qed.

Lemma agree_movie_row (ann : dict entry) (st st' : agree_state)
  (movie : string) (line : agree_row) :
  agree_movie ann st movie = Ok (st', line) ->
  line = agree_row_of movie (movie_lines ann movie) /\
  movie_lines ann movie <> [] /\
  n_agree_rater_pairs st' =
    n_agree_rater_pairs st + 3 * sum_bool all_agree (movie_lines ann movie)
    + sum_bool two_agree (movie_lines ann movie) /\
  n_rater_pairs st' =
    n_rater_pairs st + 3 * Z.of_nat (List.length (movie_lines ann movie)).
Proof.
  unfold agree_movie, movie_lines. intros H.
  destruct (get ann movie) as [e |]; [| discriminate]. cbn [bind] in H.
  set (l := zip3 (ann1 e) (ann2 e) (ann3 e)) in *.
  match type of H with
  | context [agree_lines ?s0 l] =>
      destruct (agree_lines s0 l) as [st1 |] eqn:E; [| discriminate];
      destruct (agree_lines_counters l s0 st1 E) as (H1 & H2 & H3 & H4 & H5)
  end.
  cbn [bind] in H. cbn [n1 n2 n3 n_agree_rater_pairs n_rater_pairs] in *.
  pose proof (agreement_kinds_total l) as Ht.
  unfold int_div in H.
  destruct (Z.eqb_spec (n1 st1 + n2 st1 + n3 st1) 0) as [Hz | Hnz]; [discriminate |].
  cbn [bind] in H. inversion H; subst st' line. clear H.
  split; [| split; [| split; assumption]].
  - unfold agree_row_of.
    replace (n1 st1 + n2 st1 + n3 st1) with (Z.of_nat (List.length l)) by lia.
    replace (n1 st1) with (sum_bool all_agree l) by lia.
    replace (n2 st1) with (sum_bool two_agree l) by lia.
    replace (n3 st1) with (sum_bool none_agree l) by lia.
    reflexivity.
  - intros E0. rewrite E0 in *. rewrite !sum_bool_nil in *. simpl in Ht. lia.
Qed.

Lemma agree_movies_rows (ann : dict entry) (movies : list string) :
  forall st st' lines,
    agree_movies ann st movies = Ok (st', lines) ->
    lines = map (fun m => agree_row_of m (movie_lines ann m)) movies /\
    (forall m, In m movies -> movie_lines ann m <> []) /\
    n_agree_rater_pairs st' =
      n_agree_rater_pairs st + 3 * sum_bool all_agree (corpus_lines ann movies)
      + sum_bool two_agree (corpus_lines ann movies) /\
    n_rater_pairs st' =
      n_rater_pairs st + 3 * Z.of_nat (List.length (corpus_lines ann movies)).
Proof.
  induction movies as [| movie rest IH]; intros st st' lines H;
    cbn [agree_movies] in H.
  - inversion H; subst. unfold corpus_lines. cbn [flat_map map].
    rewrite !sum_bool_nil. simpl List.length.
    repeat split; try lia. intros m [].
  - destruct (agree_movie ann st movie) as [[st1 line] |] eqn:E; [| discriminate].
    cbn [bind] in H.
    destruct (agree_movies ann st1 rest) as [[st2 lines'] |] eqn:E2; [| discriminate].
    cbn [bind] in H. inversion H; subst st' lines. clear H.
    destruct (agree_movie_row _ _ _ _ _ E) as (Hl & Hne & Ha & Hp).
    destruct (IH _ _ _ E2) as (Hls & Hnes & Has & Hps).
    unfold corpus_lines in *. cbn [flat_map map].
    rewrite !sum_bool_app, length_app.
    split; [now rewrite Hl, Hls |]. split; [| split; lia].
    intros m [<- | Hm]; [exact Hne | now apply Hnes].
Qed.

Lemma inject_Z_div_eq (a b c : Z) :
  0 < b -> (inject_Z a / inject_Z b == inject_Z c)%Q <-> a = c * b.
Proof.
  intros Hb. destruct b as [| p | p]; try lia.
  unfold Qeq, Qdiv, Qmult, Qinv, inject_Z. cbn [Qnum Qden].
  rewrite !Z.mul_1_r, Pos.mul_1_l. reflexivity.
Qed.

Lemma inject_Z_div_le (a b c : Z) :
  0 < b -> (inject_Z a / inject_Z b <= inject_Z c)%Q <-> a <= c * b.
Proof.
  intros Hb. destruct b as [| p | p]; try lia.
  unfold Qle, Qdiv, Qmult, Qinv, inject_Z. cbn [Qnum Qden].
  rewrite !Z.mul_1_r, Pos.mul_1_l. reflexivity.
Qed.

Lemma inject_Z_div_ge (a b c : Z) :
  0 < b -> (inject_Z c <= inject_Z a / inject_Z b)%Q <-> c * b <= a.
Proof.
  intros Hb. destruct b as [| p | p]; try lia.
  unfold Qle, Qdiv, Qmult, Qinv, inject_Z. cbn [Qnum Qden].
  rewrite !Z.mul_1_r, Pos.mul_1_l. reflexivity.
Qed.

Lemma sum_bool_all {A : Type} (f : A -> bool) (l : list A) :
  sum_bool f l = Z.of_nat (List.length l) <-> Forall (fun x => f x = true) l.
Proof.
  induction l as [| x l IH].
  - rewrite sum_bool_nil. split; [constructor | reflexivity].
  - rewrite sum_bool_cons. simpl List.length.
    pose proof (sum_bool_bounds f l) as Hb. split.
    + intros H. destruct (f x) eqn:Hx; [| lia].
      constructor; [exact Hx | apply IH; lia].
    + intros H. inversion H as [| ? ? Hx Hl]; subst. rewrite Hx.
      apply IH in Hl. lia.
Qed.

(** X5. The agreement lines of a completed loop: one per movie, in order, each
    holding the share of the movie's lines on which the three annotators
    agree, as a percentage between 0 and 100, and the numbers of lines on
    which two and none agree; every movie has a line, and the three kinds
    of line add up to the lines of the movie. *)
Theorem agreement_by_movie_rows (ann : dict entry) (movies : list string)
  (rows : Z) (st : agree_state) (lines : list agree_row) :
  agree_movies ann (agree_init rows) movies = Ok (st, lines) ->
  lines = map (fun m => agree_row_of m (movie_lines ann m)) movies /\
  forall m, In m movies ->
    let l := movie_lines ann m in
    l <> [] /\
    sum_bool all_agree l + sum_bool two_agree l + sum_bool none_agree l
    = Z.of_nat (List.length l) /\
    (0 <= snd (fst (fst (agree_row_of m l))) <= 100)%Q /\
    (snd (fst (fst (agree_row_of m l))) == 100 <->
     Forall (fun a => all_agree a = true) l)%Q.
Proof.
  intros H. destruct (agree_movies_rows _ _ _ _ _ H) as (Hl & Hne & _).
  split; [exact Hl |]. intros m Hm l. specialize (Hne m Hm). fold l in Hne.
  pose proof (agreement_kinds_total l) as Ht.
  pose proof (sum_bool_bounds all_agree l) as Ha.
  pose proof (sum_bool_bounds two_agree l) as Hp.
  pose proof (sum_bool_bounds none_agree l) as Hn.
  assert (Hpos : 0 < Z.of_nat (List.length l)).
  { destruct l; [contradiction | simpl; lia]. }
  split; [exact Hne |]. split; [exact Ht |].
  unfold agree_row_of. cbn [fst snd]. rewrite Qred_correct.
  split; [split |].
  - change 0%Q with (inject_Z 0). apply inject_Z_div_ge; lia.
  - change 100%Q with (inject_Z 100). apply inject_Z_div_le; lia.
  - change 100%Q with (inject_Z 100). rewrite inject_Z_div_eq by exact Hpos.
    rewrite <- sum_bool_all. lia.
Qed.

Lemma agreement_by_movie_rows_witness :
  exists st lines,
    agree_movies demo_ann (agree_init 6) ["m"] = Ok (st, lines) /\
    lines = [agree_row_of "m" (movie_lines demo_ann "m")].
Proof.
  eexists. eexists.
  match goal with
  | |- ?A /\ _ => assert (H : A); [vm_compute; reflexivity | split; [exact H |]]
  end.
  apply (proj1 (agreement_by_movie_rows demo_ann ["m"] 6 _ _ H)).
Defined.

(** X6. The percentage of agreeing rater pairs of a completed agreement part:
    three votes per line of the corpus, three agreeing on a line where all
    agree and one where two agree; the corpus has a line; the percentage
    lies between 0 and 100 and is 100 exactly when the three annotators
    agree on every line. *)
Theorem rater_pairs_percentage (ka fk : table -> result Q) (wb1 : workbook)
  (ann : dict entry) (movies : list string) (st : agree_state)
  (lines : list agree_row) (pct kappa alpha : Q) :
  agreement ka fk wb1 ann movies = Ok (st, lines, pct, kappa, alpha) ->
  let l := corpus_lines ann movies in
  l <> [] /\
  n_rater_pairs st = 3 * Z.of_nat (List.length l) /\
  n_agree_rater_pairs st = 3 * sum_bool all_agree l + sum_bool two_agree l /\
  pct = Qred (inject_Z (100 * n_agree_rater_pairs st) / inject_Z (n_rater_pairs st)) /\
  (0 <= pct <= 100)%Q /\
  (pct == 100 <-> Forall (fun a => all_agree a = true) l)%Q.
Proof.
  intros H l. unfold agreement in H.
  destruct (total_rows wb1 movies) as [rows |]; [| discriminate]. cbn [bind] in H.
  destruct (agree_movies ann (agree_init rows) movies) as [[st0 lines0] |] eqn:E;
    [| discriminate].
  cbn [bind] in H.
  destruct (ka (item_x_class_table st0)); [| discriminate]. cbn [bind] in H.
  destruct (fk (item_x_class_table st0)); [| discriminate]. cbn [bind] in H.
  destruct (int_div (100 * n_agree_rater_pairs st0) (n_rater_pairs st0))
    as [q |] eqn:Eq; [| discriminate].
  cbn [bind] in H.
  assert (Hst : st0 = st) by congruence. assert (Hq : q = pct) by congruence.
  subst st0 q. clear H.
  assert (Hnz : n_rater_pairs st <> 0).
  { intros Hz. rewrite Hz in Eq. discriminate Eq. }
  rewrite int_div_ok in Eq by exact Hnz.
  assert (Hpct : pct = Qred (inject_Z (100 * n_agree_rater_pairs st)
                             / inject_Z (n_rater_pairs st))) by congruence.
  clear Eq.
  destruct (agree_movies_rows _ _ _ _ _ E) as (_ & _ & Ha & Hp).
  cbn [agree_init n_agree_rater_pairs n_rater_pairs] in Ha, Hp. fold l in Ha, Hp.
  pose proof (agreement_kinds_total l) as Ht.
  pose proof (sum_bool_bounds all_agree l) as Hba.
  pose proof (sum_bool_bounds two_agree l) as Hbp.
  pose proof (sum_bool_bounds none_agree l) as Hbn.
  assert (Hpos : 0 < n_rater_pairs st) by lia.
  split; [intros E0; rewrite E0 in Hp; simpl in Hp; lia |].
  split; [lia |]. split; [lia |]. split; [exact Hpct |].
  rewrite Hpct, Qred_correct. split; [split |].
  - change 0%Q with (inject_Z 0). apply inject_Z_div_ge; lia.
  - change 100%Q with (inject_Z 100). apply inject_Z_div_le; lia.
  - change 100%Q with (inject_Z 100). rewrite inject_Z_div_eq by exact Hpos.
    rewrite <- sum_bool_all. lia.
Qed.

Lemma rater_pairs_percentage_witness :
  exists st lines,
    agreement stat_one stat_one demo_workbook demo_ann ["m"]
    = Ok (st, lines, 100%Q, 1%Q, 1%Q) /\
    Forall (fun a => all_agree a = true) (corpus_lines demo_ann ["m"]).
Proof.
  eexists. eexists.
  match goal with
  | |- ?A /\ _ => assert (H : A); [vm_compute; reflexivity | split; [exact H |]]
  end.
  apply (proj2 (proj2 (proj2 (proj2 (proj2
           (rater_pairs_percentage stat_one stat_one demo_workbook demo_ann ["m"]
              _ _ _ _ _ H)))))).
  reflexivity.
Defined.

(* ================================================================== *)
(** * Consensus builder: further properties *)
(* ================================================================== *)

(** X7. The consensus does not depend on the order of the three annotators, and
    it is a category of the table when the three tags are. *)
Theorem majority_symmetric (a1 a2 a3 : string) :
  majority a2 a1 a3 = majority a1 a2 a3 /\
  majority a1 a3 a2 = majority a1 a2 a3 /\
  majority a3 a2 a1 = majority a1 a2 a3 /\
  majority a2 a3 a1 = majority a1 a2 a3 /\
  majority a3 a1 a2 = majority a1 a2 a3 /\
  (In a1 CLASSES -> In a2 CLASSES -> In (majority a1 a2 a3) CLASSES).
Proof.
  unfold majority.
  rewrite (String.eqb_sym a2 a1), (String.eqb_sym a3 a1), (String.eqb_sym a3 a2).
  destruct (String.eqb_spec a1 a2), (String.eqb_spec a1 a3), (String.eqb_spec a2 a3);
    cbn [orb]; subst; repeat split; try congruence; try tauto;
    intros; unfold CLASSES; simpl; tauto.
Qed.

Lemma majority_symmetric_witness :
  In (majority "S" "N" "S") CLASSES.
Proof.
  apply (proj2 (proj2 (proj2 (proj2 (proj2 (majority_symmetric "S" "N" "S"))))));
    unfold CLASSES; simpl; tauto.
Defined.

Lemma nth_error_zip3 {A B C : Type} (l1 : list A) (l2 : list B) (l3 : list C) (k : nat) :
  nth_error (zip3 l1 l2 l3) k =
  match nth_error l1 k, nth_error l2 k, nth_error l3 k with
  | Some a, Some b, Some c => Some (a, b, c)
  | _, _, _ => None
  end.
Proof.
  revert l2 l3 k. induction l1 as [| a l1 IH]; intros l2 l3 k.
  - destruct k; reflexivity.
  - destruct l2 as [| b l2].
    + destruct k; cbn [zip3 nth_error]; [reflexivity |]. now destruct (nth_error l1 k).
    + destruct l3 as [| c l3].
      * destruct k; cbn [zip3 nth_error]; [reflexivity |].
        destruct (nth_error l1 k), (nth_error l2 k); reflexivity.
      * destruct k; cbn [zip3 nth_error]; [reflexivity | apply IH].
Qed.

Lemma get_majority_loop (ann : dict entry) (m : string) :
  get (majority_loop ann) m =
  (e <- get ann m ;;
   Ok (mkEntry (ann1 e) (ann2 e) (ann3 e)
         (Some (majority_seq (ann1 e) (ann2 e) (ann3 e))) (sys e))).
Proof.
  induction ann as [| [k e] ann IH]; cbn [majority_loop map get bind]; [reflexivity |].
  destruct (String.eqb k m); [reflexivity | exact IH].
Qed.

(** X8. After the majority loop every movie keeps its three sequences and
    holds a consensus sequence as long as the shortest of them, whose
    element at each position is the consensus of the three tags at that
    position and is a category of the table when theirs are. *)
Theorem majority_loop_sequences (ann : dict entry) (m : string) (e : entry) :
  get ann m = Ok e ->
  exists e' c,
    get (majority_loop ann) m = Ok e' /\
    ann1 e' = ann1 e /\ ann2 e' = ann2 e /\ ann3 e' = ann3 e /\ sys e' = sys e /\
    maj e' = Some c /\
    List.length c =
      Nat.min (List.length (ann1 e))
        (Nat.min (List.length (ann2 e)) (List.length (ann3 e))) /\
    (forall k a1 a2 a3,
       nth_error (ann1 e) k = Some a1 -> nth_error (ann2 e) k = Some a2 ->
       nth_error (ann3 e) k = Some a3 ->
       nth_error c k = Some (majority a1 a2 a3)) /\
    (Forall valid_line (zip3 (ann1 e) (ann2 e) (ann3 e)) ->
     Forall (fun t => In t CLASSES) c).
Proof.
  intros He. eexists. eexists. rewrite get_majority_loop, He. cbn [bind].
  split; [reflexivity |]. cbn [ann1 ann2 ann3 sys maj].
  do 4 (split; [reflexivity |]). split; [reflexivity |].
  unfold majority_seq. split; [| split].
  - now rewrite length_map, zip3_length.
  - intros k a1 a2 a3 H1 H2 H3.
    rewrite nth_error_map, nth_error_zip3, H1, H2, H3. reflexivity.
  - intros H. apply Forall_map. revert H. apply Forall_impl.
    intros [[a1 a2] a3] (H1 & H2 & _). cbn [fst snd] in H1, H2.
    unfold majority.
    destruct ((a1 =? a2) || (a1 =? a3))%string; [exact H1 |].
    destruct (a2 =? a3)%string; [exact H2 |]. unfold CLASSES. simpl. tauto.
Qed.

Lemma majority_loop_sequences_witness :
  exists e' c,
    get (majority_loop demo_ann) "m" = Ok e' /\ maj e' = Some c /\
    List.length c = 6%nat.
Proof.
  destruct (majority_loop_sequences demo_ann "m" (mkEntry TAGS TAGS TAGS None None)
              eq_refl) as (e' & c & Hg & _ & _ & _ & _ & Hm & Hl & _).
  exists e', c. split; [exact Hg |]. split; [exact Hm |]. exact Hl.
Defined.

(* ================================================================== *)
(** * System-output aligner: further properties *)
(* ================================================================== *)

Lemma normalize_tag (t : string) :
  In t TAGS -> normalize t = t.
Proof.
  intros H. rewrite normalize_words_eq. unfold normalize_words.
  destruct (in_dec string_dec t TAGS); [reflexivity | contradiction].
Qed.

Lemma normalize_other (t : string) :
  ~ In t TAGS -> normalize t = "O".
Proof.
  intros H. rewrite normalize_words_eq. unfold normalize_words.
  destruct (in_dec string_dec t TAGS); [contradiction | reflexivity].
Qed.

(** X9. The normalisation keeps exactly the seven categories, sends every other
    token to "O", and applying it twice changes nothing more. *)
Theorem normalize_fixpoints (t : string) :
  (normalize t = t <-> In t CLASSES) /\
  (~ In t CLASSES -> normalize t = "O") /\
  normalize (normalize t) = normalize t.
Proof.
  assert (HO : ~ In "O" TAGS).
  { unfold TAGS. simpl. intuition discriminate. }
  assert (Hc : In t CLASSES <-> In t TAGS \/ t = "O").
  { unfold CLASSES, TAGS. simpl. intuition. }
  destruct (in_dec string_dec t TAGS) as [Hin | Hnin].
  - rewrite (normalize_tag t Hin). split; [tauto |]. split; [tauto |].
    now apply normalize_tag.
  - rewrite (normalize_other t Hnin). split; [| split].
    + rewrite Hc. split; [intros <-; now right | intros [H | ->]; tauto].
    + reflexivity.
    + now apply normalize_other.
Qed.

Lemma normalize_fixpoints_witness :
  normalize "dialogue" = "O".
Proof.
  apply (proj1 (proj2 (normalize_fixpoints "dialogue"))).
  unfold CLASSES. simpl. intuition discriminate.
Defined.

Lemma firstn_add {A : Type} (a b : nat) (r : list A) :
  firstn (a + b) r = (firstn a r ++ firstn b (skipn a r))%list.
Proof.
  revert r. induction a as [| a IH]; intros r; [reflexivity |].
  destruct r as [| x r]; cbn [Nat.add firstn skipn app].
  - now rewrite firstn_nil.
  - now rewrite IH.
Qed.

Lemma slice_in_window {A : Type} (l : list A) (i j : Z) :
  window_ok (List.length l) i j ->
  slice l i j = firstn (Z.to_nat (j - i)) (skipn (Z.to_nat i) l).
Proof.
  intros (Hi & Hij & Hj). rewrite slice_nonneg by lia. f_equal. lia.
Qed.

(** X10. Inside its contract a window of [end - start] lines yields that many
    tags, the tag at position [k] being the normalised token of line
    [start + k]; the window of the whole file yields every token
    normalised; and two adjacent windows yield together what the window
    that spans them yields. *)
Theorem align_in_window (tags : list string) (i j : Z) :
  window_ok (List.length tags) i j ->
  List.length (align tags i j) = Z.to_nat (j - i) /\
  (forall k, (k < Z.to_nat (j - i))%nat ->
     exists t, nth_error tags (Z.to_nat i + k) = Some t /\
               nth_error (align tags i j) k = Some (normalize t)) /\
  align tags 0 (Z.of_nat (List.length tags)) = map normalize tags /\
  (forall h, i <= h <= j ->
     (align tags i h ++ align tags h j)%list = align tags i j).
Proof.
  intros Hw. pose proof Hw as (Hi & Hij & Hj).
  assert (Hwn : forall a b, 0 <= a -> a <= b -> b <= Z.of_nat (List.length tags) ->
                window_ok (List.length (map normalize tags)) a b).
  { intros a b H1 H2 H3. rewrite length_map. unfold window_ok. lia. }
  unfold align. rewrite (slice_in_window _ i j) by (apply Hwn; lia).
  split; [| split; [| split]].
  - rewrite length_firstn, length_skipn, length_map. lia.
  - intros k Hk. rewrite nth_error_firstn.
    destruct (Nat.ltb_spec k (Z.to_nat (j - i))) as [_ | Hge]; [| lia].
    rewrite nth_error_skipn, nth_error_map.
    destruct (nth_error tags (Z.to_nat i + k)) as [t |] eqn:E.
    + exists t. split; reflexivity.
    + apply nth_error_None in E. lia.
  - rewrite slice_in_window by (apply Hwn; lia).
    rewrite Z.sub_0_r, Nat2Z.id. change (Z.to_nat 0) with 0%nat. cbn [skipn].
    apply firstn_all2. rewrite length_map. lia.
  - intros h Hh. rewrite !slice_in_window by (apply Hwn; lia).
    set (l := map normalize tags).
    replace (Z.to_nat h) with (Z.to_nat (h - i) + Z.to_nat i)%nat by lia.
    rewrite <- (skipn_skipn (Z.to_nat (h - i)) (Z.to_nat i) l).
    replace (Z.to_nat (j - i)) with (Z.to_nat (h - i) + Z.to_nat (j - h))%nat by lia.
    symmetry. apply firstn_add.
Qed.

Lemma align_in_window_witness :
  List.length (align ["X"; "S"; "dialogue"; "D"; "T"] 1 4) = 3%nat.
Proof.
  apply (proj1 (align_in_window ["X"; "S"; "dialogue"; "D"; "T"] 1 4
                  ltac:(unfold window_ok; simpl; lia))).
Defined.

(** X11. An offset below zero is read from the end of the file: it stands for the
    offset increased by the number of lines, or for 0 when that is still
    negative; so the window (-k, number of lines) yields the last [k] tags
    and the window (0, -k) all but the last [k]. *)
Theorem align_negative_offsets (tags : list string) (i j : Z) :
  let n := Z.of_nat (List.length tags) in
  (i < 0 -> align tags i j = align tags (Z.max 0 (i + n)) j) /\
  (j < 0 -> align tags i j = align tags i (Z.max 0 (j + n))) /\
  (0 < - i <= n ->
   align tags i n = skipn (Z.to_nat (n + i)) (map normalize tags)) /\
  (0 < - j <= n ->
   align tags 0 j = firstn (Z.to_nat (n + j)) (map normalize tags)).
Proof.
  intros n.
  assert (Hc : forall o, o < 0 ->
               clamp_index n o = clamp_index n (Z.max 0 (o + n))).
  { intros o Ho. unfold clamp_index.
    destruct (Z.ltb_spec o 0); [| lia].
    destruct (Z.ltb_spec (Z.max 0 (o + n)) 0); lia. }
  assert (Hn : Z.of_nat (List.length (map normalize tags)) = n)
    by (now rewrite length_map).
  split; [| split; [| split]].
  - intros Hi. unfold align, slice. rewrite Hn. now rewrite (Hc i Hi).
  - intros Hj. unfold align, slice. rewrite Hn. now rewrite (Hc j Hj).
  - intros Hi. unfold align, slice. rewrite Hn.
    replace (clamp_index n i) with (n + i) by (unfold clamp_index;
      destruct (Z.ltb_spec i 0); lia).
    replace (clamp_index n n) with n by (unfold clamp_index;
      destruct (Z.ltb_spec n 0); lia).
    apply firstn_all2. rewrite length_skipn, length_map. unfold n. lia.
  - intros Hj. unfold align, slice. rewrite Hn.
    replace (clamp_index n j) with (n + j) by (unfold clamp_index;
      destruct (Z.ltb_spec j 0); lia).
    replace (clamp_index n 0) with 0 by (unfold clamp_index;
      destruct (Z.ltb_spec 0 0); lia).
    rewrite Z.sub_0_r. reflexivity.
Qed.

Lemma align_negative_offsets_witness :
  align ["X"; "S"; "dialogue"; "D"; "T"] (-2) 5 = ["D"; "T"].
Proof.
  exact (proj1 (proj2 (proj2 (align_negative_offsets
                                ["X"; "S"; "dialogue"; "D"; "T"] (-2) 5)))
           ltac:(simpl; lia)).
Defined.

Lemma read_lines_outcome (parsed : folder) (name : string) :
  (In name (keys parsed) -> exists tags, read_lines parsed name = Ok tags) /\
  (~ In name (keys parsed) -> read_lines parsed name = Raise (FileNotFoundError name)).
Proof.
  unfold read_lines. split.
  - intros H. destruct (get_in_keys _ _ H) as [tags ->]. eauto.
  - intros H. destruct (get parsed name) as [tags |] eqn:E; [| reflexivity].
    apply get_ok_in_keys in E. contradiction.
Qed.

(** X12. A line of the offsets file stops the run when the tag file of its movie
    does not exist, with [FileNotFoundError] on the file name, and
    otherwise when its movie is not among the annotated movies, with
    [KeyError] on the movie; the tag file is looked for first. *)
Theorem align_loop_errors (parsed : folder) (w : window) (rest : list window)
  (ann : dict entry) :
  let name := (w_movie w ++ "_tags.txt")%string in
  (~ In name (keys parsed) ->
   align_loop parsed (w :: rest) ann = Raise (FileNotFoundError name)) /\
  (In name (keys parsed) -> ~ In (w_movie w) (keys ann) ->
   align_loop parsed (w :: rest) ann = Raise (KeyError (w_movie w))).
Proof.
  intros name. destruct (read_lines_outcome parsed name) as [Hin Hout]. split.
  - intros H. cbn [align_loop]. fold name. now rewrite (Hout H).
  - intros H Hm. cbn [align_loop]. fold name. destruct (Hin H) as [tags ->].
    cbn [bind]. destruct (get ann (w_movie w)) as [e | err] eqn:E.
    + apply get_ok_in_keys in E. contradiction.
    + cbn [bind]. now destruct (get_raise _ _ _ E) as [-> _].
Qed.

Lemma align_loop_errors_witness :
  align_loop [] [mkWindow "m" 0 6] demo_ann = Raise (FileNotFoundError "m_tags.txt") /\
  align_loop demo_folder [mkWindow "m" 0 6] [] = Raise (KeyError "m").
Proof.
  split.
  - apply (proj1 (align_loop_errors [] (mkWindow "m" 0 6) [] demo_ann)).
    intros [].
  - apply (proj2 (align_loop_errors demo_folder (mkWindow "m" 0 6) [] [])).
    + simpl. tauto.
    + intros [].
Defined.

Lemma last_window_movie (m : string) (ws : list window) (w : window) :
  last_window m ws = Some w -> w_movie w = m /\ In w ws.
Proof.
  induction ws as [| w0 ws IH]; cbn [last_window]; [discriminate |].
  destruct (last_window m ws) as [w' |].
  - intros H. inversion H; subst. destruct (IH eq_refl). split; [assumption | now right].
  - destruct (String.eqb_spec (w_movie w0) m) as [E | _]; [| discriminate].
    intros H. inversion H; subst. split; [reflexivity | now left].
Qed.

Lemma last_window_none (m : string) (ws : list window) :
  last_window m ws = None <-> ~ In m (map w_movie ws).
Proof.
  induction ws as [| w0 ws IH]; cbn [last_window map In]; [tauto |].
  destruct (last_window m ws) as [w' |] eqn:El.
  - split; [discriminate |]. intros H. exfalso. apply H. right.
    destruct (last_window_movie m ws w' El) as [<- Hin]. now apply in_map.
  - destruct (String.eqb_spec (w_movie w0) m) as [E | Hne].
    + split; [discriminate | tauto].
    + split; [| reflexivity]. intros _ [E | Hin]; [contradiction |].
      now apply (proj1 IH).
Qed.

(** X13. What a completed loop over the offsets file leaves in [ann]: the same
    movies with the same annotations and consensus; a movie named by some
    line holds the slice of its tag file given by the last line that names
    it, and a movie named by no line keeps the system sequence it had. *)
Theorem align_loop_entries (parsed : folder) (line_numbers : list window) :
  forall (ann ann' : dict entry) (m : string) (e : entry),
    align_loop parsed line_numbers ann = Ok ann' ->
    get ann m = Ok e ->
    exists e',
      get ann' m = Ok e' /\
      ann1 e' = ann1 e /\ ann2 e' = ann2 e /\ ann3 e' = ann3 e /\ maj e' = maj e /\
      match last_window m line_numbers with
      | None => sys e' = sys e
      | Some w =>
          exists tags,
            get parsed (m ++ "_tags.txt")%string = Ok tags /\
            sys e' = Some (align tags (w_start w) (w_end w))
      end.
Proof.
  induction line_numbers as [| w rest IH]; intros ann ann' m e H He;
    cbn [align_loop] in H.
  - inversion H; subst. exists e. cbn [last_window]. tauto.
  - unfold read_lines in H.
    destruct (get parsed (w_movie w ++ "_tags.txt")) as [tags |] eqn:Ef;
      [| discriminate].
    cbn [bind] in H.
    destruct (get ann (w_movie w)) as [ew |] eqn:Ew; [| discriminate].
    cbn [bind] in H. cbn [last_window].
    destruct (String.eqb_spec (w_movie w) m) as [Em | Hne].
    + subst m. rewrite He in Ew. inversion Ew; subst ew. clear Ew.
      destruct (IH _ _ (w_movie w) _ H (get_set_same _ _ _))
        as (e' & Hg & H1 & H2 & H3 & H4 & Hs).
      cbn [ann1 ann2 ann3 maj sys] in H1, H2, H3, H4, Hs.
      exists e'. do 5 (split; [assumption |]).
      destruct (last_window (w_movie w) rest) as [w' |]; [exact Hs |].
      exists tags. split; [exact Ef | exact Hs].
    + assert (Hg0 : get (set ann (w_movie w)
                           (mkEntry (ann1 ew) (ann2 ew) (ann3 ew) (maj ew)
                              (Some (align tags (w_start w) (w_end w))))) m = Ok e).
      { rewrite get_set_other; [exact He | congruence]. }
      destruct (IH _ _ m e H Hg0) as (e' & Hg & H1 & H2 & H3 & H4 & Hs).
      exists e'. do 5 (split; [assumption |]).
      destruct (last_window m rest) as [w' |]; exact Hs.
Qed.

Lemma align_loop_entries_witness :
  exists e',
    get [("m", mkEntry ["N"] ["N"] ["N"] (Some ["N"]) (Some ["N"]))] "m" = Ok e' /\
    sys e' = Some ["N"].
Proof.
  destruct (align_loop_entries [("m_tags.txt", ["S"; "N"])]
              [mkWindow "m" 0 1; mkWindow "m" 1 5]
              [("m", mkEntry ["N"] ["N"] ["N"] (Some ["N"]) None)]
              [("m", mkEntry ["N"] ["N"] ["N"] (Some ["N"]) (Some ["N"]))]
              "m" (mkEntry ["N"] ["N"] ["N"] (Some ["N"]) None) eq_refl eq_refl)
    as (e' & Hg & _ & _ & _ & _ & tags & Ht & Hs).
  exists e'. split; [exact Hg |].
  inversion Ht; subst tags. exact Hs.
Defined.

(* ================================================================== *)
(** * Scorer: further properties *)
(* ================================================================== *)

Lemma agree_count_full (m s : list string) :
  agree_count m s = List.length m <-> firstn (List.length m) s = m.
Proof.
  revert s. induction m as [| x m IH]; intros s; [simpl; tauto |].
  destruct s as [| y s]; cbn [agree_count List.length firstn].
  - split; discriminate.
  - pose proof (agree_count_le m s) as Hle.
    destruct (string_dec x y) as [-> | Hne].
    + split.
      * intros H. f_equal. apply IH. lia.
      * intros H. inversion H as [H']. rewrite H'. apply IH in H'. lia.
    + split; [lia | intros H; inversion H; congruence].
Qed.

(** X14. The accuracy of a movie is defined exactly when it has a consensus tag;
    it lies between 0 and 100, is 100 exactly when the system sequence
    starts with the whole consensus sequence, and 0 exactly when the two
    agree at no position. *)
Theorem accuracy_range (m s : list string) :
  (m = [] -> accuracy m s = Raise ZeroDivisionError) /\
  (forall q,
     accuracy m s = Ok q ->
     m <> [] /\
     (0 <= q <= 100)%Q /\
     (q == 100 <-> firstn (List.length m) s = m)%Q /\
     (q == 0 <-> agree_count m s = 0%nat)%Q).
Proof.
  split; [intros ->; reflexivity |].
  intros q H. unfold accuracy in H. rewrite sum_bool_same_zip in H.
  destruct m as [| x m']; [discriminate H |]. set (m := x :: m') in *.
  rewrite int_div_ok in H by (unfold m; simpl; lia).
  assert (Hq : q = Qred (inject_Z (100 * Z.of_nat (agree_count m s))
                         / inject_Z (Z.of_nat (List.length m)))) by congruence.
  clear H. pose proof (agree_count_le m s) as Hle.
  assert (Hpos : 0 < Z.of_nat (List.length m)) by (unfold m; simpl; lia).
  split; [discriminate |]. rewrite Hq, Qred_correct. split; [split |]; [| | split].
  - change 0%Q with (inject_Z 0). apply inject_Z_div_ge; lia.
  - change 100%Q with (inject_Z 100). apply inject_Z_div_le; lia.
  - change 100%Q with (inject_Z 100). rewrite inject_Z_div_eq by exact Hpos.
    rewrite <- agree_count_full. lia.
  - change 0%Q with (inject_Z 0). rewrite inject_Z_div_eq by exact Hpos. lia.
Qed.

Lemma accuracy_range_witness :
  accuracy [] ["S"] = Raise ZeroDivisionError /\
  (0 <= 200 # 3 <= 100)%Q.
Proof.
  split.
  - apply (proj1 (accuracy_range [] ["S"])). reflexivity.
  - apply (proj2 (accuracy_range ["S"; "N"; "O"] ["S"; "C"; "O"]) (200 # 3)%Q).
    reflexivity.
Defined.

Lemma get_ok_in {V : Type} (d : dict V) (k : string) (v : V) :
  get d k = Ok v -> In (k, v) d.
Proof.
  induction d as [| [k' v'] d IH]; cbn [get In]; [discriminate |].
  destruct (String.eqb_spec k' k) as [-> | Hne].
  - intros H. inversion H. now left.
  - intros H. right. now apply IH.
Qed.

Lemma accuracy_loop_no_sys (ann : dict entry) (k : string) (e : entry) :
  In (k, e) ann -> sys e = None -> is_ok (accuracy_loop ann) = false.
Proof.
  intros Hin Hs. induction ann as [| [k' e'] ann IH]; [destruct Hin |].
  cbn [accuracy_loop]. destruct Hin as [E | Hin].
  - inversion E; subst. rewrite Hs.
    destruct (get_key "maj" (maj e)); reflexivity.
  - apply is_ok_bind_all. intros m. apply is_ok_bind_all. intros s.
    apply is_ok_bind_all. intros acc. apply is_ok_bind. now apply IH.
Qed.

Lemma align_loop_untouched (parsed : folder) (line_numbers : list window) (m : string) :
  ~ In m (map w_movie line_numbers) ->
  forall ann ann',
    align_loop parsed line_numbers ann = Ok ann' -> get ann' m = get ann m.
Proof.
  induction line_numbers as [| w rest IH]; intros Hm ann ann' H; cbn [align_loop] in H.
  - now inversion H.
  - cbn [map In] in Hm.
    destruct (read_lines parsed (w_movie w ++ "_tags.txt")); [| discriminate].
    cbn [bind] in H. destruct (get ann (w_movie w)); [| discriminate].
    cbn [bind] in H. rewrite (IH ltac:(tauto) _ _ H).
    apply get_set_other. intros E. apply Hm. now left.
Qed.

Lemma align_loop_windows (parsed : folder) (line_numbers : list window) :
  forall ann ann',
    align_loop parsed line_numbers ann = Ok ann' ->
    forall w, In w line_numbers ->
      In (w_movie w ++ "_tags.txt")%string (keys parsed) /\ In (w_movie w) (keys ann).
Proof.
  induction line_numbers as [| w0 rest IH]; intros ann ann' H w Hw; [destruct Hw |].
  cbn [align_loop] in H. unfold read_lines in H.
  destruct (get parsed (w_movie w0 ++ "_tags.txt")) as [tags |] eqn:Ef; [| discriminate].
  cbn [bind] in H. destruct (get ann (w_movie w0)) as [e |] eqn:Ee; [| discriminate].
  cbn [bind] in H. destruct Hw as [<- | Hw].
  - split; eapply get_ok_in_keys; eassumption.
  - destruct (IH _ _ H w Hw) as [H1 H2]. split; [exact H1 |].
    rewrite keys_set_old in H2; [exact H2 |]. eapply get_ok_in_keys; eassumption.
Qed.

(** An annotated movie that no line of the offsets file names stops the
    scoring: it has no system sequence when its accuracy is computed. *)
Lemma parser_scores_no_window (ann : dict entry) (parsed : folder)
  (line_numbers : list window) (m : string) (e : entry) :
  get ann m = Ok e -> sys e = None ->
  ~ In m (map w_movie line_numbers) ->
  is_ok (parser_scores ann parsed line_numbers) = false.
Proof.
  intros He Hs Hm. unfold parser_scores.
  destruct (align_loop parsed line_numbers (majority_loop ann)) as [ann' |] eqn:Ea;
    [| reflexivity].
  cbn [bind]. apply is_ok_bind.
  pose proof (align_loop_untouched _ _ m Hm _ _ Ea) as Hg.
  rewrite get_majority_loop, He in Hg. cbn [bind] in Hg.
  apply get_ok_in in Hg.
  now apply (accuracy_loop_no_sys ann' m _ Hg).
Qed.

Lemma prf_ok_true_positive (tp fp fn : Z) (p r f1 : Q) :
  0 <= tp -> 0 <= fp -> 0 <= fn ->
  prf tp fp fn = Ok (p, r, f1) ->
  0 < tp /\
  (p == inject_Z tp / inject_Z (tp + fp))%Q /\
  (r == inject_Z tp / inject_Z (tp + fn))%Q /\
  (f1 == 2 * p * r / (p + r))%Q.
Proof.
  intros Htp Hfp Hfn H.
  assert (Hpos : 0 < tp).
  { destruct (Z.eq_dec tp 0) as [-> | Hne]; [| lia].
    rewrite prf_no_true_positive in H by assumption. discriminate. }
  split; [exact Hpos |].
  destruct (prf_defined tp fp fn Hpos Hfp Hfn) as (p' & r' & f' & E & Hp & Hr & Hf).
  rewrite E in H. assert (p' = p /\ r' = r /\ f' = f1) as (<- & <- & <-).
  { repeat split; congruence. }
  tauto.
Qed.

Lemma f1_closed_form (a b c : Q) :
  (0 < a)%Q -> (0 < b)%Q -> (0 < c)%Q ->
  (2 * (a / b) * (a / c) / (a / b + a / c) == 2 * a / (b + c))%Q.
Proof.
  intros Ha Hb Hc.
  assert (Ha' : ~ (a == 0)%Q) by (intros E; rewrite E in Ha; now apply (Qlt_irrefl 0)).
  assert (Hb' : ~ (b == 0)%Q) by (intros E; rewrite E in Hb; now apply (Qlt_irrefl 0)).
  assert (Hc' : ~ (c == 0)%Q) by (intros E; rewrite E in Hc; now apply (Qlt_irrefl 0)).
  assert (Hbc : ~ (b + c == 0)%Q).
  { intros E. pose proof (Qplus_lt_compat 0 b 0 c Hb Hc) as H.
    rewrite E in H. now apply (Qlt_irrefl 0). }
  field. repeat split; try assumption.
  intros E. assert (E' : (a * (b + c) == 0)%Q) by (rewrite <- E; ring).
  apply Qmult_integral in E'. tauto.
Qed.

(** X15. The scores of a tag exist only with a true positive; then precision and
    recall lie above 0 and at most at 1, F1 equals
    [2*tp / (2*tp + fp + fn)], and F1 is 1 exactly when the tag has neither
    a false positive nor a false negative. *)
Theorem prf_closed_form (tp fp fn : Z) (p r f1 : Q) :
  0 <= tp -> 0 <= fp -> 0 <= fn ->
  prf tp fp fn = Ok (p, r, f1) ->
  0 < tp /\
  (0 < p <= 1)%Q /\ (0 < r <= 1)%Q /\
  (f1 == inject_Z (2 * tp) / inject_Z (2 * tp + fp + fn))%Q /\
  (0 < f1 <= 1)%Q /\
  ((f1 == 1)%Q <-> fp = 0 /\ fn = 0).
Proof.
  intros Htp Hfp Hfn H.
  destruct (prf_ok_true_positive tp fp fn p r f1 Htp Hfp Hfn H)
    as (Hpos & Hp & Hr & Hf).
  assert (Hf' : (f1 == inject_Z (2 * tp) / inject_Z (2 * tp + fp + fn))%Q).
  { rewrite Hf, Hp, Hr.
    rewrite f1_closed_form
      by (change 0%Q with (inject_Z 0); rewrite <- Zlt_Qlt; lia).
    replace (2 * tp + fp + fn) with ((tp + fp) + (tp + fn)) by lia.
    rewrite !inject_Z_plus, inject_Z_mult. reflexivity. }
  split; [exact Hpos |].
  split; [rewrite Hp; split;
          [apply inject_Z_div_pos; lia
          | change 1%Q with (inject_Z 1); apply inject_Z_div_le; lia] |].
  split; [rewrite Hr; split;
          [apply inject_Z_div_pos; lia
          | change 1%Q with (inject_Z 1); apply inject_Z_div_le; lia] |].
  split; [exact Hf' |]. rewrite Hf'. split; [split |].
  - apply inject_Z_div_pos; lia.
  - change 1%Q with (inject_Z 1). apply inject_Z_div_le; lia.
  - change 1%Q with (inject_Z 1). rewrite inject_Z_div_eq by lia. lia.
Qed.

Lemma prf_closed_form_witness :
  (2 # 3 == inject_Z (2 * 2) / inject_Z (2 * 2 + 1 + 1))%Q.
Proof.
  apply (prf_closed_form 2 1 1 (2 # 3) (2 # 3) (2 # 3)); try lia. reflexivity.
Defined.

Lemma true_positive_iff (t : string) (ps : list (string * string)) :
  0 < sum_bool (is_tp t) ps <-> In (t, t) ps.
Proof.
  rewrite sum_bool_pos. split.
  - intros ([x y] & Hin & Hp). apply is_tp_iff in Hp. destruct Hp as [-> ->].
    exact Hin.
  - intros H. exists (t, t). split; [exact H | now apply is_tp_iff].
Qed.

Lemma score_tag_ok_iff (ann : dict entry) (seqs : list (list string * list string))
  (t : string) :
  holds_seqs ann seqs ->
  (is_ok (score_tag ann t) = true <-> In (t, t) (corpus_pairs seqs)).
Proof.
  intros Hs. rewrite <- true_positive_iff. unfold score_tag.
  rewrite (tag_counts_acc t ann seqs 0 0 0 Hs). cbn [bind Z.add].
  pose proof (sum_bool_bounds (is_tp t) (corpus_pairs seqs)) as Hb.
  pose proof (sum_bool_bounds (is_fp t) (corpus_pairs seqs)) as Hfp.
  pose proof (sum_bool_bounds (is_fn t) (corpus_pairs seqs)) as Hfn.
  split.
  - intros H. destruct (Z.eq_dec (sum_bool (is_tp t) (corpus_pairs seqs)) 0) as [E | E];
      [| lia].
    rewrite E, prf_no_true_positive in H by lia. discriminate.
  - intros H. destruct (prf_defined _ _ _ H (proj1 Hfp) (proj1 Hfn))
      as (p & r & f & -> & _). reflexivity.
Qed.

Lemma score_loop_ok_iff (ann : dict entry) (tags : list string) :
  is_ok (score_loop ann tags) = true <->
  forall t, In t tags -> is_ok (score_tag ann t) = true.
Proof.
  induction tags as [| t tags IH]; cbn [score_loop].
  - split; [intros _ t [] | reflexivity].
  - destruct (score_tag ann t) as [s |] eqn:E; cbn [bind].
    + destruct (score_loop ann tags) as [ss |]; cbn [bind is_ok] in *.
      * split; [| reflexivity]. intros _ t' [<- | H]; [now rewrite E | now apply IH].
      * split; [discriminate |]. intros H. apply IH. intros t' Ht'. apply H. now right.
    + split; [discriminate |]. intros H.
      specialize (H t (or_introl eq_refl)). rewrite E in H. discriminate.
Qed.

(** X16. The loop over the six tags completes exactly when, somewhere in the
    corpus, consensus and system agree on each of S, N, C, D, E and T at
    least once. *)
Theorem score_loop_completes (ann : dict entry)
  (seqs : list (list string * list string)) :
  holds_seqs ann seqs ->
  (is_ok (score_loop ann TAGS) = true <->
   forall t, In t TAGS -> In (t, t) (corpus_pairs seqs)).
Proof.
  intros Hs. rewrite score_loop_ok_iff. split.
  - intros H t Ht. now apply (score_tag_ok_iff ann seqs t Hs), H.
  - intros H t Ht. now apply (score_tag_ok_iff ann seqs t Hs), H.
Qed.

Lemma score_loop_completes_witness :
  is_ok (score_loop [("m", mkEntry [] [] [] (Some TAGS) (Some TAGS))] TAGS) = true.
Proof.
  apply (proj2 (score_loop_completes
                  [("m", mkEntry [] [] [] (Some TAGS) (Some TAGS))]
                  [(TAGS, TAGS)] ltac:(repeat constructor))).
  intros t Ht. unfold TAGS in Ht. simpl in Ht. unfold corpus_pairs, TAGS. simpl.
  intuition (subst; tauto).
Defined.

Lemma sum_bool_split {A : Type} (f g h : A -> bool) (l : list A) :
  (forall x, (if f x then 1 else 0) + (if g x then 1 else 0) = (if h x then 1 else 0)) ->
  sum_bool f l + sum_bool g l = sum_bool h l.
Proof.
  intros H. induction l as [| x l IH].
  - now rewrite !sum_bool_nil.
  - rewrite !sum_bool_cons. specialize (H x). lia.
Qed.

(** X17. The counts of a tag over the corpus: true positives and false negatives
    together are the positions whose consensus is the tag, true and false
    positives together the positions whose system tag is the tag; no
    position is counted twice for a tag. *)
Theorem tag_counts_marginals (ann : dict entry)
  (seqs : list (list string * list string)) (t : string) :
  holds_seqs ann seqs ->
  exists tp fp fn,
    tag_counts t ann (0, 0, 0) = Ok (tp, fp, fn) /\
    tp + fn = sum_bool (fun p => (fst p =? t)%string) (corpus_pairs seqs) /\
    tp + fp = sum_bool (fun p => (snd p =? t)%string) (corpus_pairs seqs) /\
    0 <= tp /\ 0 <= fp /\ 0 <= fn /\
    tp + fp + fn <= Z.of_nat (List.length (corpus_pairs seqs)).
Proof.
  intros Hs. rewrite (tag_counts_acc t ann seqs 0 0 0 Hs). cbn [Z.add].
  set (ps := corpus_pairs seqs). do 3 eexists. split; [reflexivity |].
  pose proof (sum_bool_bounds (is_tp t) ps) as Htp.
  pose proof (sum_bool_bounds (is_fp t) ps) as Hfp.
  pose proof (sum_bool_bounds (is_fn t) ps) as Hfn.
  assert (H1 : sum_bool (is_tp t) ps + sum_bool (is_fn t) ps
               = sum_bool (fun p => (fst p =? t)%string) ps).
  { apply sum_bool_split. intros [x y]. unfold is_tp, is_fn. cbn [fst].
    rewrite (String.eqb_sym t x).
    destruct (String.eqb_spec x y), (String.eqb_spec y t), (String.eqb_spec x t);
      cbn [andb negb]; subst; try congruence; reflexivity. }
  assert (H2 : sum_bool (is_tp t) ps + sum_bool (is_fp t) ps
               = sum_bool (fun p => (snd p =? t)%string) ps).
  { apply sum_bool_split. intros [x y]. unfold is_tp, is_fp. cbn [snd].
    destruct (String.eqb_spec x y), (String.eqb_spec y t);
      cbn [andb negb]; reflexivity. }
  assert (H3 : sum_bool (is_tp t) ps + sum_bool (is_fp t) ps + sum_bool (is_fn t) ps
               <= Z.of_nat (List.length ps)).
  { clear. induction ps as [| [x y] ps IH].
    - rewrite !sum_bool_nil. simpl. lia.
    - rewrite !sum_bool_cons. simpl List.length. unfold is_tp at 1, is_fp at 1, is_fn at 1.
      rewrite (String.eqb_sym t x).
      destruct (String.eqb_spec x y), (String.eqb_spec y t), (String.eqb_spec x t);
        cbn [andb negb]; subst; try congruence; lia. }
  repeat split; lia.
Qed.

Lemma tag_counts_marginals_witness :
  exists tp fp fn,
    tag_counts "S" [("m", mkEntry [] [] [] (Some ["S"; "S"; "N"]) (Some ["S"; "N"; "S"]))]
      (0, 0, 0) = Ok (tp, fp, fn) /\
    tp + fn = 2 /\ tp + fp = 2.
Proof.
  destruct (tag_counts_marginals
              [("m", mkEntry [] [] [] (Some ["S"; "S"; "N"]) (Some ["S"; "N"; "S"]))]
              [(["S"; "S"; "N"], ["S"; "N"; "S"])] "S" ltac:(repeat constructor))
    as (tp & fp & fn & E & H1 & H2 & _).
  exists tp, fp, fn. split; [exact E |]. split; [exact H1 | exact H2].
Defined.

(* ================================================================== *)
(** * What a completed run requires *)
(* ================================================================== *)

Lemma decoded_keys_are_movies (wb1 wb2 wb3 : workbook) (movies : list string)
  (ann : dict entry) (m : string) :
  decode_loop wb1 wb2 wb3 movies [] = Ok ann ->
  In m (keys ann) -> In m movies.
Proof.
  intros Hdec Hin. destruct (in_dec string_dec m movies) as [H | H]; [exact H |].
  destruct (get_in_keys _ _ Hin) as [e He].
  rewrite (proj2 (decode_loop_get _ _ _ _ _ _ Hdec) m H) in He. discriminate.
Qed.

(** X18. A run that completes had at least one movie; every movie is a sheet of
    the three workbooks, has a row in each, and is named by a line of the
    offsets file; every line of the offsets file names a movie and has its
    tag file; and the report holds the scores of the six tags in their
    order. *)
Theorem evaluate_requirements (ka fk : table -> result Q) (wb1 wb2 wb3 : workbook)
  (parsed : folder) (line_numbers : list window) (rep : report) :
  evaluate ka fk wb1 wb2 wb3 parsed line_numbers = Ok rep ->
  movies_of wb1 <> [] /\
  (forall m, In m (movies_of wb1) ->
     In m (keys wb2) /\ In m (keys wb3) /\ In m (map w_movie line_numbers) /\
     get wb1 m <> Ok [] /\ get wb2 m <> Ok [] /\ get wb3 m <> Ok []) /\
  (forall w, In w line_numbers ->
     In (w_movie w) (movies_of wb1) /\
     In (w_movie w ++ "_tags.txt")%string (keys parsed)) /\
  map fst (prf_by_tag rep) = TAGS.
Proof.
  intros H.
  assert (Hok : is_ok (evaluate ka fk wb1 wb2 wb3 parsed line_numbers) = true)
    by now rewrite H.
  assert (Hempty : forall m, In m (movies_of wb1) ->
            get wb1 m <> Ok [] /\ get wb2 m <> Ok [] /\ get wb3 m <> Ok []).
  { intros m Hm. repeat split; intros E;
      rewrite (evaluate_empty_sheet ka fk wb1 wb2 wb3 parsed line_numbers m Hm) in Hok;
      try discriminate; tauto. }
  assert (Hmov : movies_of wb1 <> []).
  { intros E. rewrite (evaluate_no_movie ka fk wb1 wb2 wb3 parsed line_numbers E) in Hok.
    discriminate. }
  unfold evaluate in H.
  pose proof (decode_loop_outcome wb1 wb2 wb3 (movies_of wb1)
                (movies_of_in_keys wb1) []) as Hpres.
  destruct (decode_loop wb1 wb2 wb3 (movies_of wb1) []) as [ann |] eqn:Hdec;
    [| discriminate].
  cbn [bind] in H.
  destruct (agreement ka fk wb1 ann (movies_of wb1)) as [[[[[st lines] pct] k] a] |];
    [| discriminate].
  cbn [bind] in H.
  destruct (parser_scores ann parsed line_numbers) as [[accs scores] |] eqn:Hps;
    [| discriminate].
  cbn [bind] in H. inversion H; subst rep. clear H. cbn [prf_by_tag].
  split; [exact Hmov |]. split; [| split].
  - intros m Hm. destruct (Hpres m Hm) as [H2 H3]. destruct (Hempty m Hm) as (E1 & E2 & E3).
    repeat split; try assumption.
    destruct (in_dec string_dec m (map w_movie line_numbers)) as [Hin | Hnin];
      [exact Hin |].
    destruct (proj1 (decode_loop_get _ _ _ _ _ _ Hdec) m Hm) as (e & He & Hg).
    assert (Hs : sys e = None).
    { destruct (decode_movie_lines _ _ _ _ _ He) as (? & ? & ? & _ & _ & _ & -> & _).
      reflexivity. }
    pose proof (parser_scores_no_window ann parsed line_numbers m e Hg Hs Hnin) as Hno.
    rewrite Hps in Hno. discriminate.
  - intros w Hw. unfold parser_scores in Hps.
    destruct (align_loop parsed line_numbers (majority_loop ann)) as [ann' |] eqn:Ea;
      [| discriminate].
    destruct (align_loop_windows _ _ _ _ Ea w Hw) as [Hf Hk].
    split; [| exact Hf]. rewrite majority_loop_keys in Hk.
    now apply (decoded_keys_are_movies wb1 wb2 wb3 _ ann).
  - unfold parser_scores in Hps.
    destruct (align_loop parsed line_numbers (majority_loop ann)) as [ann' |];
      [| discriminate].
    cbn [bind] in Hps. destruct (accuracy_loop ann'); [| discriminate].
    cbn [bind] in Hps. destruct (score_loop ann' TAGS) as [ss |] eqn:Es; [| discriminate].
    cbn [bind] in Hps. inversion Hps; subst. now apply (score_loop_tags ann').
Qed.

Lemma evaluate_requirements_witness :
  exists rep,
    evaluate stat_one stat_one demo_workbook demo_workbook demo_workbook
      demo_folder [mkWindow "m" 0 6] = Ok rep /\
    map fst (prf_by_tag rep) = TAGS.
Proof.
  eexists.
  match goal with
  | |- ?A /\ _ => assert (H : A); [vm_compute; reflexivity | split; [exact H |]]
  end.
  apply (evaluate_requirements _ _ _ _ _ _ _ _ H).
Defined.
